(** * mitre_agentic: the shared MCP client and the investigation workflow

    A shallow embedding of
    - [mitre_agentic/mcp_client.py]   (module [McpClient]),
    - [mitre_agentic/workflows/state.py], [nodes.py], [graph.py] and the
      per-technique agents (module [Workflow]),
    together with the properties of the design document that concern them. *)

From stdpp Require Import base option list strings gmap.
From Stdlib Require Import ZArith QArith Lia.

Open Scope Z_scope.

(** ** The MCP client ([mcp_client.py])

    asyncio is cooperative: a coroutine runs without interruption from one
    [await] that suspends to the next.  A coroutine is therefore modelled by a
    program counter naming the [await] it is parked at, and one transition
    executes the code between two suspension points.  The results of the
    awaited operations of the [mcp] library (entering and leaving the stdio
    context and the session, [initialize], the remote call) are not decided by
    this program: every transition takes the result as an argument. *)

Module McpClient.

(** Exceptions that reach a caller of the client. *)
Inductive exn :=
| RuntimeError (msg : string)
| AssertionError
| AttributeError
| RemoteError (tag : nat).

Definition closing_cannot_connect : string := "Client is closing; cannot connect.".
Definition closing_refusing : string := "Client is closing; refusing new requests.".

(** Result of an awaited library operation. *)
Inductive ext := ExtOk | ExtRaise (tag : nat).

Inductive outcome := Returned | Raised (e : exn).

Definition outcome_of (x : ext) : outcome :=
  match x with ExtOk => Returned | ExtRaise t => Raised (RemoteError t) end.

(** Teardown operations that were run to the end, oldest first. *)
Inductive event := SessionExited (id : nat) | TransportExited (id : nat).

(** The fields of [MitreMcpClient].  The two locks are [true] when held, the
    event [_no_inflight] is [true] when set.  [spawned], [sessions] and
    [teardown_log] are not fields of the class: they count the calls of
    [stdio_client(...)] and of [ClientSession(...)] and record the teardown
    operations, so that properties can speak about them. *)
Record client := mk_client {
  _ctx : option nat;
  _read : option nat;
  _write : option nat;
  _session : option nat;
  _connect_lock : bool;
  _close_lock : bool;
  _closing : bool;
  _inflight : Z;
  _no_inflight : bool;
  spawned : nat;
  sessions : nat;
  teardown_log : list event
}.

(** [MitreMcpClient.__init__] *)
Definition new_client : client :=
  {| _ctx := None; _read := None; _write := None; _session := None;
     _connect_lock := false; _close_lock := false; _closing := false;
     _inflight := 0; _no_inflight := true;
     spawned := 0; sessions := 0; teardown_log := [] |}.

Definition set_connect_lock (b : bool) (c : client) : client :=
  {| _ctx := _ctx c; _read := _read c; _write := _write c; _session := _session c;
     _connect_lock := b; _close_lock := _close_lock c; _closing := _closing c;
     _inflight := _inflight c; _no_inflight := _no_inflight c;
     spawned := spawned c; sessions := sessions c; teardown_log := teardown_log c |}.

Definition set_close_lock (b : bool) (c : client) : client :=
  {| _ctx := _ctx c; _read := _read c; _write := _write c; _session := _session c;
     _connect_lock := _connect_lock c; _close_lock := b; _closing := _closing c;
     _inflight := _inflight c; _no_inflight := _no_inflight c;
     spawned := spawned c; sessions := sessions c; teardown_log := teardown_log c |}.

Definition set_closing (b : bool) (c : client) : client :=
  {| _ctx := _ctx c; _read := _read c; _write := _write c; _session := _session c;
     _connect_lock := _connect_lock c; _close_lock := _close_lock c; _closing := b;
     _inflight := _inflight c; _no_inflight := _no_inflight c;
     spawned := spawned c; sessions := sessions c; teardown_log := teardown_log c |}.

Definition set_inflight (n : Z) (e : bool) (c : client) : client :=
  {| _ctx := _ctx c; _read := _read c; _write := _write c; _session := _session c;
     _connect_lock := _connect_lock c; _close_lock := _close_lock c;
     _closing := _closing c;
     _inflight := n; _no_inflight := e;
     spawned := spawned c; sessions := sessions c; teardown_log := teardown_log c |}.

(** [self._ctx = stdio_client(server_params)] *)
Definition spawn_ctx (c : client) : client :=
  {| _ctx := Some (spawned c); _read := _read c; _write := _write c;
     _session := _session c;
     _connect_lock := _connect_lock c; _close_lock := _close_lock c;
     _closing := _closing c;
     _inflight := _inflight c; _no_inflight := _no_inflight c;
     spawned := S (spawned c); sessions := sessions c;
     teardown_log := teardown_log c |}.

(** [self._read, self._write = ...; self._session = ClientSession(...)] *)
Definition open_session (c : client) : client :=
  {| _ctx := _ctx c; _read := Some (sessions c); _write := Some (sessions c);
     _session := Some (sessions c);
     _connect_lock := _connect_lock c; _close_lock := _close_lock c;
     _closing := _closing c;
     _inflight := _inflight c; _no_inflight := _no_inflight c;
     spawned := spawned c; sessions := S (sessions c);
     teardown_log := teardown_log c |}.

(** [finally: self._session = None] after [self._session.__aexit__] *)
Definition drop_session (c : client) : client :=
  {| _ctx := _ctx c; _read := _read c; _write := _write c; _session := None;
     _connect_lock := _connect_lock c; _close_lock := _close_lock c;
     _closing := _closing c;
     _inflight := _inflight c; _no_inflight := _no_inflight c;
     spawned := spawned c; sessions := sessions c;
     teardown_log :=
       teardown_log c ++ match _session c with
                         | Some i => [SessionExited i]
                         | None => []
                         end |}.

(** [finally: self._ctx = None; self._read = None; self._write = None] after
    [self._ctx.__aexit__] *)
Definition drop_ctx (c : client) : client :=
  {| _ctx := None; _read := None; _write := None; _session := _session c;
     _connect_lock := _connect_lock c; _close_lock := _close_lock c;
     _closing := _closing c;
     _inflight := _inflight c; _no_inflight := _no_inflight c;
     spawned := spawned c; sessions := sessions c;
     teardown_log :=
       teardown_log c ++ match _ctx c with
                         | Some i => [TransportExited i]
                         | None => []
                         end |}.

(** *** Program counters *)

(** Where a coroutine running [connect] is parked. *)
Inductive conn_pc :=
| AtEntry            (* not started *)
| AtLockWait         (* async with self._connect_lock, lock held by another *)
| AtCtxEnter         (* await self._ctx.__aenter__() *)
| AtSessionEnter     (* await self._session.__aenter__() *)
| AtInitialize.      (* await self._session.initialize() *)

(** Where a coroutine running [close] is parked. *)
Inductive close_pc :=
| ClEntry
| ClLockWait                    (* async with self._close_lock *)
| ClDrainWait (woken : bool)    (* await self._no_inflight.wait() *)
| ClSessionExit                 (* await self._session.__aexit__(...) *)
| ClCtxExit.                    (* await self._ctx.__aexit__(...) *)

Inductive call_kind := CallTool | ListTools.

Inductive op := OpConnect | OpCall (ck : call_kind) | OpClose.

Inductive task :=
| Connecting (k : conn_pc)
| Calling (ck : call_kind) (k : conn_pc)   (* inside [await self.connect()] *)
| InFlight (ck : call_kind)                (* awaiting the remote call *)
| Closing (k : close_pc)
| Finished (o : op) (r : outcome).

(** *** [connect] *)

(** The body of [async with self._connect_lock], the lock being held. *)
Definition connect_locked (c : client) : client * (conn_pc + outcome) :=
  match _session c with
  | Some _ => (set_connect_lock false c, inr Returned)
  | None =>
      if _closing c
      then (set_connect_lock false c,
            inr (Raised (RuntimeError closing_cannot_connect)))
      else (spawn_ctx c, inl AtCtxEnter)
  end.

Definition connect_step (x : ext) (k : conn_pc) (c : client)
  : option (client * (conn_pc + outcome)) :=
  match k with
  | AtEntry =>
      match _session c with
      | Some _ => Some (c, inr Returned)
      | None =>
          if _connect_lock c then Some (c, inl AtLockWait)
          else Some (connect_locked (set_connect_lock true c))
      end
  | AtLockWait =>
      if _connect_lock c then None
      else Some (connect_locked (set_connect_lock true c))
  | AtCtxEnter =>
      match x with
      | ExtOk => Some (open_session c, inl AtSessionEnter)
      | ExtRaise t =>
          Some (set_connect_lock false c, inr (Raised (RemoteError t)))
      end
  | AtSessionEnter =>
      match x with
      | ExtOk =>
          match _session c with
          | Some _ => Some (c, inl AtInitialize)
          | None => Some (set_connect_lock false c, inr (Raised AttributeError))
          end
      | ExtRaise t =>
          Some (set_connect_lock false c, inr (Raised (RemoteError t)))
      end
  | AtInitialize => Some (set_connect_lock false c, inr (outcome_of x))
  end.

(** *** [_begin_call], [_end_call] *)

Definition _begin_call (c : client) : client + exn :=
  if _closing c then inr (RuntimeError closing_refusing)
  else
    let n := _inflight c + 1 in
    inl (set_inflight n (if n =? 1 then false else _no_inflight c) c).

(** The boolean tells whether [self._no_inflight.set()] was called. *)
Definition _end_call (c : client) : client * bool :=
  let n := _inflight c - 1 in
  if n <=? 0 then (set_inflight 0 true c, true)
  else (set_inflight n (_no_inflight c) c, false).

(** [call_tool] and [list_tools] once [await self.connect()] has returned:
    the assertion, [_begin_call()], and the remote call is started. *)
Definition call_connected (ck : call_kind) (c : client) : client * task :=
  match _session c with
  | None => (c, Finished (OpCall ck) (Raised AssertionError))
  | Some _ =>
      match _begin_call c with
      | inl c' => (c', InFlight ck)
      | inr e => (c, Finished (OpCall ck) (Raised e))
      end
  end.

(** *** [close] *)

Definition teardown_ctx (c : client) : client * task :=
  match _ctx c with
  | Some _ => (c, Closing ClCtxExit)
  | None => (set_close_lock false c, Finished OpClose Returned)
  end.

Definition teardown (c : client) : client * task :=
  match _session c with
  | Some _ => (c, Closing ClSessionExit)
  | None => teardown_ctx c
  end.

(** The body of [async with self._close_lock], the lock being held. *)
Definition close_locked (c : client) : client * task :=
  if _closing c then (set_close_lock false c, Finished OpClose Returned)
  else
    let c := set_closing true c in
    if _no_inflight c then teardown c else (c, Closing (ClDrainWait false)).

Definition close_step (x : ext) (k : close_pc) (c : client)
  : option (client * task) :=
  match k with
  | ClEntry =>
      if _close_lock c then Some (c, Closing ClLockWait)
      else Some (close_locked (set_close_lock true c))
  | ClLockWait =>
      if _close_lock c then None
      else Some (close_locked (set_close_lock true c))
  | ClDrainWait woken => if woken then Some (teardown c) else None
  | ClSessionExit =>
      let c := drop_session c in
      match x with
      | ExtOk => Some (teardown_ctx c)
      | ExtRaise t =>
          Some (set_close_lock false c,
                Finished OpClose (Raised (RemoteError t)))
      end
  | ClCtxExit =>
      Some (set_close_lock false (drop_ctx c), Finished OpClose (outcome_of x))
  end.

(** *** One transition of one coroutine

    [None]: the coroutine cannot run (it waits for a lock or for the event, or
    it has finished).  The boolean of the result tells whether the event
    [_no_inflight] was set by the transition. *)
Definition task_step (x : ext) (t : task) (c : client)
  : option (client * task * bool) :=
  match t with
  | Connecting k =>
      match connect_step x k c with
      | Some (c', inl k') => Some (c', Connecting k', false)
      | Some (c', inr r) => Some (c', Finished OpConnect r, false)
      | None => None
      end
  | Calling ck k =>
      match connect_step x k c with
      | Some (c', inl k') => Some (c', Calling ck k', false)
      | Some (c', inr Returned) =>
          let '(c'', t') := call_connected ck c' in Some (c'', t', false)
      | Some (c', inr (Raised e)) =>
          Some (c', Finished (OpCall ck) (Raised e), false)
      | None => None
      end
  | InFlight ck =>
      let '(c', w) := _end_call c in
      Some (c', Finished (OpCall ck) (outcome_of x), w)
  | Closing k =>
      match close_step x k c with
      | Some (c', t') => Some (c', t', false)
      | None => None
      end
  | Finished _ _ => None
  end.

(** *** The event loop *)

Record system := mk_system { cl : client; tasks : list task }.

(** [Event.set()] resolves the future of every waiter: a waiter resumes even
    if the event is cleared again before it runs. *)
Definition wake (t : task) : task :=
  match t with
  | Closing (ClDrainWait _) => Closing (ClDrainWait true)
  | _ => t
  end.

Definition step (i : nat) (x : ext) (s : system) : option system :=
  match tasks s !! i with
  | None => None
  | Some t =>
      match task_step x t (cl s) with
      | None => None
      | Some (c', t', w) =>
          let ts := <[i := t']> (tasks s) in
          Some {| cl := c'; tasks := if w then wake <$> ts else ts |}
      end
  end.

Inductive reachable (s0 : system) : system -> Prop :=
| reach_refl : reachable s0 s0
| reach_step s i x s' :
    reachable s0 s -> step i x s = Some s' -> reachable s0 s'.

(** A coroutine that has not run yet. *)
Definition fresh (t : task) : bool :=
  match t with
  | Connecting AtEntry | Calling _ AtEntry | Closing ClEntry => true
  | _ => false
  end.

Definition initial (ts : list task) : system :=
  {| cl := new_client; tasks := ts |}.

(** Running a schedule: a list of (coroutine index, library result). *)
Fixpoint run (sched : list (nat * ext)) (s : system) : option system :=
  match sched with
  | [] => Some s
  | (i, x) :: rest =>
      match step i x s with
      | Some s' => run rest s'
      | None => None
      end
  end.

(** *** Predicates on coroutines and the invariants of the event loop *)

Definition in_flight (t : task) : bool :=
  match t with InFlight _ => true | _ => false end.

(** A [close] that holds the close lock or has returned. *)
Definition close_started (t : task) : bool :=
  match t with
  | Closing (ClDrainWait _) | Closing ClSessionExit | Closing ClCtxExit
  | Finished OpClose _ => true
  | _ => false
  end.

(** A [close] that is past [await self._no_inflight.wait()]. *)
Definition past_drain (t : task) : bool :=
  match t with
  | Closing (ClDrainWait true) | Closing ClSessionExit | Closing ClCtxExit
  | Finished OpClose _ => true
  | _ => false
  end.

Definition close_returned (t : task) : bool :=
  match t with Finished OpClose _ => true | _ => false end.

(** A [connect] inside [async with self._connect_lock]. *)
Definition in_critical (t : task) : bool :=
  match t with
  | Connecting AtCtxEnter | Connecting AtSessionEnter | Connecting AtInitialize
  | Calling _ AtCtxEnter | Calling _ AtSessionEnter | Calling _ AtInitialize =>
      true
  | _ => false
  end.

Definition at_ctx_enter (t : task) : bool :=
  match t with
  | Connecting AtCtxEnter | Calling _ AtCtxEnter => true
  | _ => false
  end.

Definition count (P : task -> bool) (ts : list task) : nat :=
  length (List.filter P ts).

Definition is_closing_error (r : outcome) : Prop :=
  r = Raised (RuntimeError closing_refusing)
  \/ r = Raised (RuntimeError closing_cannot_connect).

(** The bookkeeping of in-flight calls. *)
Record drain_inv (s : system) : Prop := mk_drain_inv {
  inv_count : _inflight (cl s) = Z.of_nat (count in_flight (tasks s));
  inv_event : _no_inflight (cl s) = (_inflight (cl s) =? 0);
  inv_closing :
    forall i t, tasks s !! i = Some t -> close_started t = true ->
                _closing (cl s) = true;
  inv_past :
    forall i t, tasks s !! i = Some t -> past_drain t = true ->
                _inflight (cl s) = 0;
  inv_free :
    _closing (cl s) = true -> _close_lock (cl s) = false ->
    _inflight (cl s) = 0;
  inv_session : 0 < _inflight (cl s) -> is_Some (_session (cl s))
}.

(** The bookkeeping of [connect]. *)
Record connect_inv (s : system) : Prop := mk_connect_inv {
  inv_critical :
    count in_critical (tasks s) = if _connect_lock (cl s) then 1%nat else 0%nat;
  inv_unopened : sessions (cl s) = 0%nat -> _session (cl s) = None;
  inv_opened :
    (1 <= sessions (cl s))%nat ->
    is_Some (_session (cl s)) \/ _closing (cl s) = true;
  inv_entering :
    forall i t, tasks s !! i = Some t -> at_ctx_enter t = true ->
                sessions (cl s) = 0%nat;
  inv_once : (sessions (cl s) <= 1)%nat
}.

Definition all_fresh (ts : list task) : Prop :=
  Forall (fun t => fresh t = true) ts.

(** Schedules used as examples below.  Coroutine 0 calls a tool, coroutine 1
    closes the client, coroutine 2 connects. *)
Definition three_tasks : list task :=
  [Calling CallTool AtEntry; Closing ClEntry; Connecting AtEntry].

(** The call is in flight, then [close] starts and waits for it. *)
Definition sched_close_waits : list (nat * ext) :=
  [(0, ExtOk); (0, ExtOk); (0, ExtOk); (0, ExtOk); (1, ExtOk)]%nat.

(** ... then [connect] is called. *)
Definition sched_connect_during_close : list (nat * ext) :=
  sched_close_waits ++ [(2%nat, ExtOk)].

(** ... the call returns, the session is left and the transport is left. *)
Definition sched_clean_shutdown : list (nat * ext) :=
  sched_close_waits ++ [(0, ExtOk); (1, ExtOk); (1, ExtOk); (1, ExtOk)]%nat.

(** The state in which [close] waits for the call of coroutine 0. *)
Definition state_close_waits : system :=
  Eval vm_compute in
    default (initial three_tasks) (run sched_close_waits (initial three_tasks)).

(** A connected client on which [close] has begun: it is marked closing and
    the session is still there. *)
Definition client_closing_connected : client := cl state_close_waits.

(** A client on which [close] has returned. *)
Definition client_closed : client :=
  Eval vm_compute in
    cl (default (initial three_tasks)
          (run (sched_close_waits
                ++ [(0, ExtOk); (1, ExtOk); (1, ExtOk); (1, ExtOk)]%nat)
               (initial three_tasks))).

(** Coroutine 2 is a second call, made while [close] waits for the first. *)
Definition late_call_tasks : list task :=
  [Calling CallTool AtEntry; Closing ClEntry; Calling ListTools AtEntry].

Definition state_late_call : system :=
  Eval vm_compute in
    default (initial late_call_tasks)
            (run sched_close_waits (initial late_call_tasks)).

Definition state_late_call_rejected : system :=
  Eval vm_compute in
    default state_late_call (run [(2%nat, ExtOk)] state_late_call).

(** Coroutine 0 connects and is parked in [await self._ctx.__aenter__()],
    holding the connect lock; coroutine 1 closes; then coroutine 2 calls a
    tool. *)
Definition blocked_call_tasks : list task :=
  [Connecting AtEntry; Closing ClEntry; Calling CallTool AtEntry].

Definition state_closing_during_connect : system :=
  Eval vm_compute in
    default (initial blocked_call_tasks)
            (run [(0, ExtOk); (1, ExtOk)]%nat (initial blocked_call_tasks)).

Definition state_call_blocked : system :=
  Eval vm_compute in
    default state_closing_during_connect
            (run [(2%nat, ExtOk)] state_closing_during_connect).

(** ... and [close] returns. *)
Definition state_call_blocked_closed : system :=
  Eval vm_compute in
    default state_call_blocked (run [(1%nat, ExtOk)] state_call_blocked).

(** The same, but leaving the session raises. *)
Definition sched_session_exit_raises : list (nat * ext) :=
  sched_close_waits ++ [(0, ExtOk); (1, ExtOk); (1, ExtRaise 7)]%nat.

End McpClient.

(** ** The investigation workflow ([workflows/state.py], [nodes.py],
    [graph.py]) and the per-technique agents

    Payloads typed [Dict[str, Any]] or [Any] in the source are values of
    [value]; numbers in payloads are integers.  The fields of the state are
    typed as [InvestigationState] declares them.  Clock readings
    ([time.time()]) are rationals; they are stored, never inspected. *)

Module Workflow.

Inductive value :=
| VNone
| VBool (b : bool)
| VInt (n : Z)
| VStr (s : string)
| VList (l : list value)
| VDict (d : gmap string value).

Abbreviation dict := (gmap string value).

(** A Python exception: its class and [str(e)]. *)
Record exn := mk_exn { exn_class : string; exn_text : string }.

Inductive result (A : Type) :=
| Ok (a : A)
| Raise (e : exn).
Arguments Ok {A} a.
Arguments Raise {A} e.

Definition type_name (v : value) : string :=
  match v with
  | VNone => "NoneType"
  | VBool _ => "bool"
  | VInt _ => "int"
  | VStr _ => "str"
  | VList _ => "list"
  | VDict _ => "dict"
  end.

(** Truth value of an object ([not x], [x or y], [if x]). *)
Definition truthy (v : value) : bool :=
  match v with
  | VNone => false
  | VBool b => b
  | VInt n => negb (n =? 0)
  | VStr s => negb (String.eqb s "")
  | VList l => match l with [] => false | _ => true end
  | VDict d => match size d with O => false | _ => true end
  end.

Definition py_or (a b : value) : value := if truthy a then a else b.

(** [v == 0] *)
Definition eq_zero (v : value) : bool :=
  match v with
  | VInt n => n =? 0
  | VBool b => negb b
  | _ => false
  end.

(** [d.get(key, default)] on a dict *)
Definition get (d : dict) (key : string) (default : value) : value :=
  match d !! key with
  | Some v => v
  | None => default
  end.

(** [v.get(key, default)] on any object: only a dict has the method. *)
Definition get_method (v : value) (key : string) (default : value)
  : result value :=
  match v with
  | VDict d => Ok (get d key default)
  | _ =>
      Raise (mk_exn "AttributeError"
               ("'" ++ type_name v ++ "' object has no attribute 'get'"))
  end.

(** [for item in v]: the items, in order.  The keys of a dict are strings;
    their order plays no part below. *)
Definition iterate (v : value) : result (list value) :=
  match v with
  | VList l => Ok l
  | VStr s => Ok ((fun c => VStr (String c EmptyString)) <$> String.list_ascii_of_string s)
  | VDict d => Ok ((fun kv => VStr kv.1) <$> map_to_list d)
  | _ =>
      Raise (mk_exn "TypeError"
               ("'" ++ type_name v ++ "' object is not iterable"))
  end.

(** [l[:n]] *)
Definition slice_to {A} (n : Z) (l : list A) : list A :=
  if 0 <=? n then take (Z.to_nat n) l
  else take (length l - Z.to_nat (- n))%nat l.

(** A Python [str] is held as its UTF-8 encoding: its characters are the
    bytes that are no continuation bytes, each with the continuation bytes
    that follow it. *)
Definition is_continuation (c : Ascii.ascii) : bool :=
  let n := Ascii.N_of_ascii c in ((128 <=? n) && (n <? 192))%N.

(** [len(s)] *)
Fixpoint len (s : string) : Z :=
  match s with
  | EmptyString => 0
  | String c rest => (if is_continuation c then 0 else 1) + len rest
  end.

(** The first [k] characters of [s]. *)
Fixpoint take_chars (k : nat) (s : string) : string :=
  match s with
  | EmptyString => EmptyString
  | String c rest =>
      if is_continuation c then String c (take_chars k rest)
      else match k with
           | O => EmptyString
           | S k' => String c (take_chars k' rest)
           end
  end.

(** [s[:k]] *)
Definition str_slice_to (k : Z) (s : string) : string :=
  if 0 <=? k then take_chars (Z.to_nat k) s
  else take_chars (Z.to_nat (len s + k)) s.

(** [len(v)] where only its exception matters (the number is printed and
    dropped): an object without a length raises. *)
Definition sized (v : value) : result unit :=
  match v with
  | VStr _ | VList _ | VDict _ => Ok tt
  | _ =>
      Raise (mk_exn "TypeError"
               ("object of type '" ++ type_name v ++ "' has no len()"))
  end.

(** [_safe_get(d, *path, default=default)] of the agents *)
Fixpoint _safe_get (d : value) (path : list string) (default : value) : value :=
  match path with
  | [] => d
  | p :: rest =>
      match d with
      | VDict m =>
          match m !! p with
          | Some v => _safe_get v rest default
          | None => default
          end
      | _ => default
      end
  end.

(** *** [state.py] *)

(** [merge_dicts]: [{**left, **right}] *)
Definition merge_dicts {V} (left right : gmap string V) : gmap string V :=
  right ∪ left.

(** [lambda x, y: x + y], the reducer of [completed_agents] and [errors] *)
Definition add_lists {A} (x y : list A) : list A := x ++ y.

Record error_record := mk_error {
  agent : string;
  error : string;
  timestamp : string
}.

(** [InvestigationState].  The nodes read every field through [state.get]
    with a default, so an absent key is represented by that default: the
    empty string, list or dict, or [None]. *)
Record InvestigationState := mk_state {
  incident_text : string;
  mcp_client : option nat;
  triage_summary : option string;
  technique_candidates : list (string * list string);
  technique_ids : list string;
  confirmed_techniques : list dict;
  intel : dict;
  detections : dict;
  detection_reasoning : dict;
  mitigations : dict;
  navigator_layer_path : option string;
  navigator_layer : option dict;
  report : dict;
  report_markdown : option string;
  completed_agents : list string;
  errors : list error_record;
  timings : gmap string Q;
  domain : option string;
  llm_model : option string
}.

(** What a node returns: a dict holding some of the keys of the state.
    [None]: the key is not in the dict. *)
Record update := mk_update {
  u_triage_summary : option (option string);
  u_technique_candidates : option (list (string * list string));
  u_technique_ids : option (list string);
  u_confirmed_techniques : option (list dict);
  u_intel : option dict;
  u_detections : option dict;
  u_detection_reasoning : option dict;
  u_mitigations : option dict;
  u_navigator_layer_path : option (option string);
  u_navigator_layer : option (option dict);
  u_report : option dict;
  u_report_markdown : option (option string);
  u_completed_agents : option (list string);
  u_errors : option (list error_record);
  u_timings : option (gmap string Q)
}.

(** [{}] *)
Definition no_update : update :=
  mk_update None None None None None None None None None None None None
            None None None.

Definition later {A} (a b : option A) : option A :=
  match b with Some v => Some v | None => a end.

(** [{**a, **b}] *)
Definition spread (a b : update) : update :=
  {| u_triage_summary := later (u_triage_summary a) (u_triage_summary b);
     u_technique_candidates :=
       later (u_technique_candidates a) (u_technique_candidates b);
     u_technique_ids := later (u_technique_ids a) (u_technique_ids b);
     u_confirmed_techniques :=
       later (u_confirmed_techniques a) (u_confirmed_techniques b);
     u_intel := later (u_intel a) (u_intel b);
     u_detections := later (u_detections a) (u_detections b);
     u_detection_reasoning :=
       later (u_detection_reasoning a) (u_detection_reasoning b);
     u_mitigations := later (u_mitigations a) (u_mitigations b);
     u_navigator_layer_path :=
       later (u_navigator_layer_path a) (u_navigator_layer_path b);
     u_navigator_layer := later (u_navigator_layer a) (u_navigator_layer b);
     u_report := later (u_report a) (u_report b);
     u_report_markdown := later (u_report_markdown a) (u_report_markdown b);
     u_completed_agents := later (u_completed_agents a) (u_completed_agents b);
     u_errors := later (u_errors a) (u_errors b);
     u_timings := later (u_timings a) (u_timings b) |}.

(** [create_initial_state] *)
Definition create_initial_state (incident_text : string) (domain : string)
    (llm_model : string) (mcp_client : option nat) : InvestigationState :=
  {| incident_text := incident_text;
     mcp_client := mcp_client;
     triage_summary := None;
     technique_candidates := [];
     technique_ids := [];
     confirmed_techniques := [];
     intel := ∅;
     detections := ∅;
     detection_reasoning := ∅;
     mitigations := ∅;
     navigator_layer_path := None;
     navigator_layer := None;
     report := ∅;
     report_markdown := None;
     completed_agents := [];
     errors := [];
     timings := ∅;
     domain := Some domain;
     llm_model := Some llm_model |}.

(** [add_error]; [now] is [datetime.now().isoformat()]. *)
Definition add_error (now : string) (state : InvestigationState)
    (agent_name : string) (error : string) : update :=
  mk_update None None None None None None None None None None None None
            None (Some [mk_error agent_name error now]) None.

(** [mark_agent_complete] *)
Definition mark_agent_complete (state : InvestigationState)
    (agent_name : string) : update :=
  mk_update None None None None None None None None None None None None
            (Some [agent_name]) None None.

(** [add_timing] *)
Definition add_timing (state : InvestigationState) (agent_name : string)
    (duration : Q) : update :=
  mk_update None None None None None None None None None None None None
            None None (Some (<[agent_name := duration]> (timings state))).

Definition overwrite {A} (old : A) (new : option A) : A :=
  match new with Some v => v | None => old end.

Definition reduce {A} (reducer : A -> A -> A) (old : A) (new : option A) : A :=
  match new with Some v => reducer old v | None => old end.

(** Modelled from the spec: the merge of a node's return value into the
    state, which LangGraph performs and which is not part of this
    repository.  Section 4.4, rule 6: "its partial update is merged into the
    State Store using each field's declared reducer (overwrite for
    step-output fields, append for error/completed lists, key-merge for
    timing)".  The reducers are those that [InvestigationState] declares. *)
Definition apply_update (s : InvestigationState) (u : update)
  : InvestigationState :=
  {| incident_text := incident_text s;
     mcp_client := mcp_client s;
     triage_summary := overwrite (triage_summary s) (u_triage_summary u);
     technique_candidates :=
       overwrite (technique_candidates s) (u_technique_candidates u);
     technique_ids := overwrite (technique_ids s) (u_technique_ids u);
     confirmed_techniques :=
       overwrite (confirmed_techniques s) (u_confirmed_techniques u);
     intel := overwrite (intel s) (u_intel u);
     detections := overwrite (detections s) (u_detections u);
     detection_reasoning :=
       overwrite (detection_reasoning s) (u_detection_reasoning u);
     mitigations := overwrite (mitigations s) (u_mitigations u);
     navigator_layer_path :=
       overwrite (navigator_layer_path s) (u_navigator_layer_path u);
     navigator_layer := overwrite (navigator_layer s) (u_navigator_layer u);
     report := overwrite (report s) (u_report u);
     report_markdown := overwrite (report_markdown s) (u_report_markdown u);
     completed_agents :=
       reduce add_lists (completed_agents s) (u_completed_agents u);
     errors := reduce add_lists (errors s) (u_errors u);
     timings := reduce merge_dicts (timings s) (u_timings u);
     domain := domain s;
     llm_model := llm_model s |}.

(** *** The retry decorator ([nodes.py], [retry_async])

    [func k] is the outcome of the call of the wrapped coroutine made in
    attempt [k].  The second component of the result lists the arguments of
    [asyncio.sleep], oldest first. *)
Section Retry.
Context {A : Type}.
Variable name : string.
Variable max_attempts : Z.
Variable backoff : Q.
Variable func : Z -> result A.

(** [wait_time = backoff * (2 ** (attempt - 1))], as a rational.  [backoff]
    is a float, and the rational is the float that the code computes as
    long as the power converts to a float and the product is finite; see
    [waits_in_range] below. *)
Definition wait_time (attempt : Z) : Q :=
  Qmult backoff (inject_Z (2 ^ (attempt - 1))).

Fixpoint retry_loop (attempts : list Z) (last_exception : option exn)
    (slept : list Q) : result A * list Q :=
  match attempts with
  | [] =>
      (match last_exception with
       | Some e => Raise e
       | None =>
           Raise (mk_exn "RuntimeError"
                    (name ++ " failed with no exception captured"))
       end, slept)
  | attempt :: rest =>
      match func attempt with
      | Ok v => (Ok v, slept)
      | Raise e =>
          if attempt <? max_attempts
          then retry_loop rest (Some e) (slept ++ [wait_time attempt])
          else retry_loop rest (Some e) slept
      end
  end.

(** [range(1, max_attempts + 1)] is [seqZ 1 max_attempts]. *)
Definition retry_async : result A * list Q :=
  retry_loop (seqZ 1 max_attempts) None [].
End Retry.

(** The waits after the attempts [1 .. n] are in the range of the floats:
    the int [2 ** (attempt - 1)] converts to a float for [attempt <= 1024]
    (from [2 ** 1024] on the conversion raises [OverflowError] inside the
    [except] clause), and the product, exact for a power of two, is finite
    when its magnitude is below [2 ** 1024] (beyond, it is [inf] and
    [asyncio.sleep(inf)] does not return).  The last wait is the largest. *)
Definition waits_in_range (backoff : Q) (n : Z) : Prop :=
  n <= 1024
  /\ Qlt (Qopp (inject_Z (2 ^ 1024))) (wait_time backoff n)
  /\ Qlt (wait_time backoff n) (inject_Z (2 ^ 1024)).

(** *** [asyncio.gather] under an [asyncio.Semaphore]

    The tasks [_fetch_with_limit(x)] of [map_techniques] and
    [enrich_with_mitigations]: a task waits for the semaphore, runs the lookup
    holding it, and releases it whether the lookup returned or raised.
    With [return_exceptions=True] the outcome of a task, whichever it is,
    becomes its entry of the list that [gather] returns. *)
Section Gather.
Context {R : Type}.

Inductive slot :=
| Pending            (* in [async with sem], not admitted yet *)
| Running            (* admitted, awaiting the lookup *)
| Done (r : result R).

Record pool := mk_pool { sem_value : Z; slots : list slot }.

Definition gather_start (capacity : Z) (n : nat) : pool :=
  {| sem_value := capacity; slots := replicate n Pending |}.

(** One transition of task [i]; [r] is the outcome of its lookup. *)
Definition gather_step (i : nat) (r : result R) (p : pool) : option pool :=
  match slots p !! i with
  | Some Pending =>
      if 0 <? sem_value p
      then Some {| sem_value := sem_value p - 1;
                   slots := <[i := Running]> (slots p) |}
      else None
  | Some Running =>
      Some {| sem_value := sem_value p + 1;
              slots := <[i := Done r]> (slots p) |}
  | _ => None
  end.

Inductive gather_reachable (p0 : pool) : pool -> Prop :=
| gather_refl : gather_reachable p0 p0
| gather_next p i r p' :
    gather_reachable p0 p -> gather_step i r p = Some p' ->
    gather_reachable p0 p'.

Definition is_running (s : slot) : bool :=
  match s with Running => true | _ => false end.

(** Number of lookups in progress. *)
Definition running (p : pool) : nat :=
  length (List.filter is_running (slots p)).

Definition slot_result (s : slot) : option (result R) :=
  match s with Done r => Some r | _ => None end.

(** What [await asyncio.gather(...)] evaluates to, once every task is done. *)
Definition gathered (p : pool) : option (list (result R)) :=
  mapM slot_result (slots p).
End Gather.
Arguments slot R : clear implicits.
Arguments pool R : clear implicits.

(** *** [agents/mapping_agent.py] *)

Record mapping_output := mk_mapping {
  m_domain : string;
  m_confirmed_techniques : list dict;
  m_not_found : list string;
  m_errors : option (list string)       (* no such key on the early return *)
}.

(** The loop [for result in results] of [map_techniques]. *)
Fixpoint map_techniques_collect (results : list (result (string * option dict)))
    (confirmed : list dict) (not_found errors : list string)
  : list dict * list string * list string :=
  match results with
  | [] => (confirmed, not_found, errors)
  | Raise e :: rest =>
      map_techniques_collect rest confirmed not_found (errors ++ [exn_text e])
  | Ok (tid, None) :: rest =>
      map_techniques_collect rest confirmed (not_found ++ [tid]) errors
  | Ok (tid, Some technique) :: rest =>
      map_techniques_collect rest (confirmed ++ [technique]) not_found errors
  end.

(** [map_techniques] from the results of [gather] onwards. *)
Definition map_techniques_finish (domain : string)
    (results : list (result (string * option dict))) : mapping_output :=
  let '(confirmed, not_found, errors) := map_techniques_collect results [] [] [] in
  {| m_domain := domain; m_confirmed_techniques := confirmed;
     m_not_found := not_found; m_errors := Some errors |}.

(** [asyncio.Semaphore(value)] *)
Definition Semaphore (value : Z) : result Z :=
  if value <? 0
  then Raise (mk_exn "ValueError" "Semaphore initial value must be >= 0")
  else Ok value.

Definition default_concurrency : Z := 10.

Section MapTechniques.
(** [fetch i tid domain include_description]: the outcome of
    [_fetch_technique_details] in the task of the [i]-th identifier. *)
Variable _fetch_technique_details :
  nat -> string -> string -> bool -> result (option dict).

Definition _fetch_with_limit (domain : string) (include_description : bool)
    (i : nat) (tid : string) : result (string * option dict) :=
  match _fetch_technique_details i tid domain include_description with
  | Ok r => Ok (tid, r)
  | Raise e => Raise e
  end.

(** The tasks that [map_techniques] hands to [gather], under
    [asyncio.Semaphore(concurrency)]. *)
Definition map_techniques_pool (technique_ids : list string)
    (concurrency : Z) : pool (string * option dict) :=
  gather_start concurrency (length technique_ids).

(** [None]: the call never returns (a semaphore of value 0 admits no
    task). *)
Definition map_techniques (technique_ids : list string) (domain : string)
    (include_description : bool) (concurrency : Z)
  : option (result mapping_output) :=
  match technique_ids with
  | [] =>
      Some (Ok {| m_domain := domain; m_confirmed_techniques := [];
                  m_not_found := []; m_errors := None |})
  | _ =>
      match Semaphore concurrency with
      | Raise e => Some (Raise e)
      | Ok sem =>
          if sem =? 0 then None
          else Some (Ok (map_techniques_finish domain
                           (imap (_fetch_with_limit domain include_description)
                                 technique_ids)))
      end
  end.
End MapTechniques.

(** *** [agents/mitigation_agent.py] *)

(** What [_fetch_mitigations_for_technique] returns when it returns a dict. *)
Record mitigation_entry := mk_entry {
  me_technique : dict;
  me_found : bool;
  me_count : Z;
  me_mitigations : list dict;
  me_formatted : value;
  me_message : value
}.

Record mitigation_summary := mk_summary {
  total_techniques : Z;
  with_mitigations : Z;
  total_mitigations : Z
}.

Record mitigations_output := mk_mitigations {
  mo_domain : string;
  mo_mitigations : list mitigation_entry;
  mo_errors : list string;
  mo_summary : mitigation_summary
}.

(** The loop [for result in results] of [enrich_with_mitigations]. *)
Fixpoint mitigations_collect (results : list (result (option mitigation_entry)))
    (out : list mitigation_entry) (errors : list string)
  : list mitigation_entry * list string :=
  match results with
  | [] => (out, errors)
  | Raise e :: rest => mitigations_collect rest out (errors ++ [exn_text e])
  | Ok None :: rest => mitigations_collect rest out errors
  | Ok (Some r) :: rest => mitigations_collect rest (out ++ [r]) errors
  end.

Definition sum_list (l : list Z) : Z := foldr Z.add 0 l.

Definition enrich_with_mitigations_finish (domain : string)
    (confirmed_techniques : list dict)
    (results : list (result (option mitigation_entry))) : mitigations_output :=
  let '(out, errors) := mitigations_collect results [] [] in
  {| mo_domain := domain;
     mo_mitigations := out;
     mo_errors := errors;
     mo_summary :=
       {| total_techniques := Z.of_nat (length confirmed_techniques);
          with_mitigations :=
            sum_list ((fun _ => 1) <$> filter (fun item => 0 < me_count item) out);
          total_mitigations := sum_list (me_count <$> out) |} |}.

Section Mitigations.
Variable _fetch_mitigations_for_technique :
  nat -> dict -> string -> bool -> result (option mitigation_entry).

(** The semaphore holds [max(1, concurrency)]: some task is always
    admitted and the call returns. *)
Definition mitigation_capacity (concurrency : Z) : Z := Z.max 1 concurrency.

(** The tasks that [enrich_with_mitigations] hands to [gather], under
    [asyncio.Semaphore(max(1, concurrency))]. *)
Definition mitigations_pool (confirmed_techniques : list dict)
    (concurrency : Z) : pool (option mitigation_entry) :=
  gather_start (mitigation_capacity concurrency)
               (length confirmed_techniques).

Definition enrich_with_mitigations (confirmed_techniques : list dict)
    (domain : string) (include_description : bool) (concurrency : Z)
  : mitigations_output :=
  match confirmed_techniques with
  | [] =>
      {| mo_domain := domain; mo_mitigations := []; mo_errors := [];
         mo_summary := mk_summary 0 0 0 |}
  | _ =>
      enrich_with_mitigations_finish domain confirmed_techniques
        (imap (fun i t =>
                 _fetch_mitigations_for_technique i t domain include_description)
              confirmed_techniques)
  end.
End Mitigations.

Definition entry_value (e : mitigation_entry) : value :=
  VDict {[ "technique" := VDict (me_technique e);
           "found" := VBool (me_found e);
           "count" := VInt (me_count e);
           "mitigations" := VList (VDict <$> me_mitigations e);
           "formatted" := me_formatted e;
           "message" := me_message e ]}.

(** The dict that [enrich_with_mitigations] returns. *)
Definition mitigations_dict (o : mitigations_output) : dict :=
  {[ "domain" := VStr (mo_domain o);
     "mitigations" := VList (entry_value <$> mo_mitigations o);
     "errors" := VList (VStr <$> mo_errors o);
     "summary" :=
       VDict {[ "total_techniques" := VInt (total_techniques (mo_summary o));
                "with_mitigations" := VInt (with_mitigations (mo_summary o));
                "total_mitigations" := VInt (total_mitigations (mo_summary o)) ]} ]}.

(** *** [agents/intel_agent.py] *)

Section Intel.
(** [call_tool n name arguments]: the outcome of the [n]-th
    [await client.call_tool(name, arguments)] of the run, counted from 0. *)
Variable call_tool : nat -> string -> dict -> result value.

Definition as_list (v : value) (max_items : Z) : list value :=
  match v with VList l => slice_to max_items l | _ => [] end.

(** The loop [for t in confirmed_techniques]; [n] calls were made so far.
    The result comes with the number of calls made. *)
Fixpoint enrich_loop (n : nat) (techniques : list dict) (domain : string)
    (max_items : Z) (enriched : list value) : result (list value) * nat :=
  match techniques with
  | [] => (Ok enriched, n)
  | t :: rest =>
      let stix_id := get t "stix_id" VNone in
      if negb (truthy stix_id) then enrich_loop n rest domain max_items enriched
      else
        let arguments : dict :=
          {[ "technique_stix_id" := stix_id; "domain" := VStr domain ]} in
        match call_tool n "get_groups_using_technique" arguments with
        | Raise e => (Raise e, S n)
        | Ok groups_resp =>
            match call_tool (S n) "get_software_using_technique" arguments with
            | Raise e => (Raise e, S (S n))
            | Ok software_resp =>
                let groups :=
                  py_or (_safe_get groups_resp ["result"; "groups"] VNone)
                        (_safe_get groups_resp ["groups"] (VList [])) in
                let software :=
                  py_or (_safe_get software_resp ["result"; "software"] VNone)
                        (_safe_get software_resp ["software"] (VList [])) in
                enrich_loop (S (S n)) rest domain max_items
                  (enriched ++
                   [VDict {[ "technique" :=
                               VDict {[ "id" := get t "id" VNone;
                                        "name" := get t "name" VNone;
                                        "stix_id" := stix_id ]};
                             "groups_using_technique" :=
                               VList (as_list groups max_items);
                             "software_using_technique" :=
                               VList (as_list software max_items) ]}])
            end
        end
  end.

Definition enrich_with_groups_and_software (confirmed_techniques : list dict)
    (domain : string) (max_items : Z) : result dict * nat :=
  match enrich_loop 0 confirmed_techniques domain max_items [] with
  | (Ok enriched, n) =>
      (Ok {[ "domain" := VStr domain; "intel" := VList enriched ]}, n)
  | (Raise e, n) => (Raise e, n)
  end.
End Intel.

(** *** The nodes ([workflows/nodes.py]) *)

#[export] Instance result_ret : MRet result := fun A a => Ok a.
#[export] Instance result_bind : MBind result :=
  fun A B f m => match m with Ok a => f a | Raise e => Raise e end.

Definition dict_truthy (d : dict) : bool := truthy (VDict d).

Definition str_truthy (s : option string) : bool :=
  match s with Some s => negb (String.eqb s "") | None => false end.

Section Nodes.
(** [datetime.now().isoformat()] and the two readings of [time.time()]. *)
Variable now : string.
Variables start_time end_time : Q.

(** The awaited collaborators: remote lookups, LLM-backed agents, files. *)
Variable _fetch_technique_details :
  nat -> string -> string -> bool -> result (option dict).
Variable call_tool : nat -> string -> dict -> result value.
Variable _fetch_mitigations_for_technique :
  nat -> dict -> string -> bool -> result (option mitigation_entry).
Variable recommend_detection_telemetry :
  list dict -> string -> Z -> result dict.
Variable reason_detection_with_llm_fallback :
  list dict -> dict -> string -> string -> Z -> result dict.
Variable build_navigator_layer_from_techniques :
  list dict -> string -> string -> string -> result dict.
Variable save_layer_json : dict -> string -> result string.
Variable write_executive_report_llm :
  string -> string -> list dict -> dict -> dict -> dict -> dict ->
  option string -> string -> result dict.
Variable open_for_writing : string -> result unit.
Variable file_write : string -> string -> result unit.

Definition duration : Q := Qminus end_time start_time.

(** [except Exception as e: return add_error(state, name, str(e))] *)
Definition or_error (state : InvestigationState) (name : string)
    (body : result update) : update :=
  match body with
  | Ok u => u
  | Raise e => add_error now state name (exn_text e)
  end.

Definition completed (state : InvestigationState) (name : string)
    (outputs : update) : update :=
  spread (spread outputs (mark_agent_complete state name))
         (add_timing state name duration).

(** [mapping_node], undecorated *)
Definition mapping_node_body (state : InvestigationState) : update :=
  match technique_ids state with
  | [] => add_error now state "mapping" "No technique IDs from triage"
  | technique_ids =>
      match mcp_client state with
      | None => add_error now state "mapping" "No MCP client in state"
      | Some client =>
          or_error state "mapping"
            (match map_techniques _fetch_technique_details technique_ids
                     (default "enterprise" (domain state)) true
                     default_concurrency with
             | None => Ok no_update   (* not reached: ten tasks are admitted *)
             | Some r =>
                 mapping ← r;
                 match m_confirmed_techniques mapping with
                 | [] =>
                     Raise (mk_exn "ValueError"
                              "No techniques confirmed by mapping agent")
                 | confirmed =>
                     Ok (completed state "mapping"
                           (mk_update None None None (Some confirmed) None None
                              None None None None None None None None None))
                 end
             end)
      end
  end.

(** [intel_node], undecorated *)
Definition intel_node_body (state : InvestigationState) : update :=
  match confirmed_techniques state with
  | [] => add_error now state "intel" "No confirmed techniques"
  | confirmed =>
      match mcp_client state with
      | None => add_error now state "mapping" "No MCP client in state"
      | Some client =>
          or_error state "intel"
            (intel ← (enrich_with_groups_and_software call_tool confirmed
                        (default "enterprise" (domain state)) 5).1;
             Ok (completed state "intel"
                   (mk_update None None None None (Some intel) None
                      None None None None None None None None None)))
      end
  end.

(** [detection_node], undecorated *)
Definition detection_node_body (state : InvestigationState) : update :=
  match confirmed_techniques state with
  | [] => add_error now state "detection" "No confirmed techniques"
  | confirmed =>
      match mcp_client state with
      | None => add_error now state "mapping" "No MCP client in state"
      | Some client =>
          or_error state "detection"
            (detections ← recommend_detection_telemetry confirmed
                             (default "enterprise" (domain state)) 7;
             _ ← sized (get detections "detections" (VList []));
             Ok (completed state "detection"
                   (mk_update None None None None None (Some detections)
                      None None None None None None None None None)))
      end
  end.

(** [mitigation_node], undecorated *)
Definition mitigation_node_body (state : InvestigationState) : update :=
  match confirmed_techniques state with
  | [] => add_error now state "mitigation" "No confirmed techniques"
  | confirmed =>
      match mcp_client state with
      | None => add_error now state "mitigation" "No MCP client in state"
      | Some client =>
          completed state "mitigation"
            (mk_update None None None None None None None
               (Some (mitigations_dict
                        (enrich_with_mitigations
                           _fetch_mitigations_for_technique confirmed
                           (default "enterprise" (domain state)) false
                           default_concurrency)))
               None None None None None None None)
      end
  end.

(** [detection_reasoning_node], undecorated *)
Definition detection_reasoning_node_body (state : InvestigationState)
  : update :=
  let confirmed := confirmed_techniques state in
  let detections := detections state in
  let incident_text := incident_text state in
  if negb (truthy (VList (VDict <$> confirmed)))
     || negb (dict_truthy detections)
  then add_error now state "detection_reasoning" "Missing prerequisites"
  else
    match reasoning ← reason_detection_with_llm_fallback confirmed detections
                        incident_text
                        (default "gpt-4o-mini" (llm_model state)) 3;
          _ ← sized (get reasoning "detection_reasoning" (VList []));
          Ok reasoning with
    | Ok reasoning =>
        completed state "detection_reasoning"
          (mk_update None None None None None None (Some reasoning)
             None None None None None None None None)
    | Raise e =>
        spread
          (mk_update None None None None None None
             (Some {[ "detection_reasoning" := VList [] ]})
             None None None None None None None None)
          (mark_agent_complete state "detection_reasoning")
    end.

(** [visualization_node], undecorated *)
Definition visualization_node_body (state : InvestigationState) : update :=
  let incident_text := incident_text state in
  match confirmed_techniques state with
  | [] => add_error now state "visualization" "No confirmed techniques"
  | confirmed =>
      match mcp_client state with
      | None => add_error now state "mapping" "No MCP client in state"
      | Some client =>
          or_error state "visualization"
            (layer ← build_navigator_layer_from_techniques confirmed
                       (default "enterprise" (domain state))
                       "Incident Investigation: Technique Coverage"
                       (str_slice_to 200 incident_text);
             layer_path ← save_layer_json layer "./out/incident_layer.json";
             Ok (completed state "visualization"
                   (mk_update None None None None None None None None
                      (Some (Some layer_path)) (Some (Some layer))
                      None None None None None)))
      end
  end.

Definition report_missing (state : InvestigationState) : list string :=
  (if str_truthy (triage_summary state) then [] else ["triage_summary"])
  ++ (match confirmed_techniques state with
      | [] => ["confirmed_techniques"] | _ => [] end)
  ++ (if dict_truthy (intel state) then [] else ["intel"])
  ++ (if dict_truthy (detections state) then [] else ["detections"]).

(** [report_node], undecorated *)
Definition report_node_body (state : InvestigationState) : update :=
  if negb (str_truthy (triage_summary state))
     || negb (truthy (VList (VDict <$> confirmed_techniques state)))
     || negb (dict_truthy (intel state))
     || negb (dict_truthy (detections state))
  then
    add_error now state "report"
      ("Missing required data: " ++ String.concat ", " (report_missing state))
  else
    or_error state "report"
      (report_out ← write_executive_report_llm
                       (incident_text state)
                       (default "" (triage_summary state))
                       (confirmed_techniques state)
                       (intel state) (detections state)
                       (detection_reasoning state) (mitigations state)
                       (navigator_layer_path state)
                       (default "gpt-4o-mini" (llm_model state));
       let report := get report_out "report" (VDict ∅) in
       markdown ← get_method report "markdown" (VStr "");
       _ ← open_for_writing "./out/incident_report.md";
       match report, markdown with
       | VDict report, VStr markdown =>
           _ ← file_write "./out/incident_report.md" markdown;
           Ok (completed state "report"
                 (mk_update None None None None None None None None None None
                    (Some report) (Some (Some markdown)) None None None))
       | _, _ =>
           Raise (mk_exn "TypeError"
                    ("write() argument must be str, not "
                     ++ type_name markdown))
       end).

(** The decorated nodes.  A body returns in every case, so every attempt
    of the decorator sees a returned update. *)
Definition mapping_node (state : InvestigationState) :=
  retry_async "mapping_node" 3 2 (fun _ => Ok (mapping_node_body state)).
Definition intel_node (state : InvestigationState) :=
  retry_async "intel_node" 1 2 (fun _ => Ok (intel_node_body state)).
Definition detection_node (state : InvestigationState) :=
  retry_async "detection_node" 1 2 (fun _ => Ok (detection_node_body state)).
Definition mitigation_node (state : InvestigationState) :=
  retry_async "mitigation_node" 1 2 (fun _ => Ok (mitigation_node_body state)).
Definition detection_reasoning_node (state : InvestigationState) :=
  retry_async "detection_reasoning_node" 1 1
    (fun _ => Ok (detection_reasoning_node_body state)).
Definition visualization_node (state : InvestigationState) :=
  retry_async "visualization_node" 1 1
    (fun _ => Ok (visualization_node_body state)).
Definition report_node (state : InvestigationState) :=
  retry_async "report_node" 1 2 (fun _ => Ok (report_node_body state)).
End Nodes.

(** *** The graph ([workflows/graph.py]) *)

(** The loop of [should_run_detection_reasoning] over the detection list. *)
Fixpoint any_zero_components (detection_list : list value) : result bool :=
  match detection_list with
  | [] => Ok false
  | item :: rest =>
      detection_data ← get_method item "detection" (VDict ∅);
      total_components ← get_method detection_data "total_datacomponents" (VInt 0);
      if eq_zero total_components then Ok true else any_zero_components rest
  end.

Definition should_run_detection_reasoning (state : InvestigationState)
  : result string :=
  let detections := detections state in
  detection_list ← iterate (get detections "detections" (VList []));
  zero ← any_zero_components detection_list;
  Ok (if zero : bool then "detection_reasoning" else "visualization").

Definition START : string := "__start__".
Definition END : string := "__end__".

(** [workflow.add_edge(source, target)], in the order of the source *)
Definition edges : list (string * string) :=
  [ (START, "triage"); ("triage", "mapping");
    ("mapping", "intel"); ("mapping", "detection"); ("mapping", "mitigation");
    ("intel", "visualization"); ("mitigation", "visualization");
    ("detection_reasoning", "visualization");
    ("visualization", "report"); ("report", END) ].

(** The path map of [workflow.add_conditional_edges("detection", ...)] *)
Definition path_map : list (string * string) :=
  [ ("detection_reasoning", "detection_reasoning");
    ("visualization", "visualization") ].

Fixpoint assoc (k : string) (l : list (string * string)) : option string :=
  match l with
  | [] => None
  | (k', v) :: rest => if String.eqb k k' then Some v else assoc k rest
  end.

Definition edge_targets (source : string) : list string :=
  snd <$> List.filter (fun e => String.eqb e.1 source) edges.

(** The successor that the conditional edge leaving [detection] activates
    when the node has terminated and [state] is the merged state. *)
Definition conditional_target (state : InvestigationState) : result string :=
  branch ← should_run_detection_reasoning state;
  match assoc branch path_map with
  | Some target => Ok target
  | None => Raise (mk_exn "KeyError" branch)
  end.

(** Modelled from the spec: the nodes that LangGraph, which is not part of
    this repository, schedules because [source] terminated with merged state
    [state].  Section 4.4, rules 2, 3 and 5: every edge leaving [source]
    activates its target, and the conditional edge activates the one
    successor that its predicate names.  The edges, the path map and the
    predicate are those of [create_investigation_graph]. *)
Definition activated (source : string) (state : InvestigationState)
  : result (list string) :=
  if String.eqb source "detection"
  then target ← conditional_target state; Ok (edge_targets source ++ [target])
  else Ok (edge_targets source).

(** *** Vocabulary of the properties, and example inputs *)

(** The step-output fields of a state. *)
Definition outputs (s : InvestigationState) :=
  (triage_summary s, technique_candidates s, technique_ids s,
   confirmed_techniques s, intel s, detections s, detection_reasoning s,
   mitigations s, navigator_layer_path s, navigator_layer s, report s,
   report_markdown s).

Definition not_both {A} (a b : option A) : Prop := a = None \/ b = None.

(** Two updates write disjoint step-output fields. *)
Definition disjoint_outputs (u1 u2 : update) : Prop :=
  not_both (u_triage_summary u1) (u_triage_summary u2)
  /\ not_both (u_technique_candidates u1) (u_technique_candidates u2)
  /\ not_both (u_technique_ids u1) (u_technique_ids u2)
  /\ not_both (u_confirmed_techniques u1) (u_confirmed_techniques u2)
  /\ not_both (u_intel u1) (u_intel u2)
  /\ not_both (u_detections u1) (u_detections u2)
  /\ not_both (u_detection_reasoning u1) (u_detection_reasoning u2)
  /\ not_both (u_mitigations u1) (u_mitigations u2)
  /\ not_both (u_navigator_layer_path u1) (u_navigator_layer_path u2)
  /\ not_both (u_navigator_layer u1) (u_navigator_layer u2)
  /\ not_both (u_report u1) (u_report u2)
  /\ not_both (u_report_markdown u1) (u_report_markdown u2).

(** Two timing dicts give the same duration to every key they share. *)
Definition agree (t1 t2 : gmap string Q) : Prop :=
  forall k v1 v2, t1 !! k = Some v1 -> t2 !! k = Some v2 -> v1 = v2.

(** The number that [should_run_detection_reasoning] reads in an entry of the
    detection list, when the entry has the shape the detection agent gives
    it; an absent key counts as 0. *)
Definition reported_count (item : value) : option Z :=
  match item with
  | VDict d =>
      match get d "detection" (VDict ∅) with
      | VDict dd =>
          match get dd "total_datacomponents" (VInt 0) with
          | VInt n => Some n
          | _ => None
          end
      | _ => None
      end
  | _ => None
  end.

(** What became of the results of the per-technique tasks. *)
Definition raised_text {A} (r : result A) : option string :=
  match r with Raise e => Some (exn_text e) | Ok _ => None end.

Definition found_technique (r : result (string * option dict)) : option dict :=
  match r with Ok (_, Some t) => Some t | _ => None end.

Definition missing_technique (r : result (string * option dict))
  : option string :=
  match r with Ok (tid, None) => Some tid | _ => None end.

Definition found_entry (r : result (option mitigation_entry))
  : option mitigation_entry :=
  match r with Ok (Some e) => Some e | _ => None end.

Definition boom : exn := mk_exn "ConnectionError" "server went away".

Definition technique_1 : dict :=
  {[ "id" := VStr "T1059.001"; "name" := VStr "PowerShell";
     "stix_id" := VStr "attack-pattern--1" ]}.

Definition technique_2 : dict :=
  {[ "id" := VStr "T1053.005"; "name" := VStr "Scheduled Task";
     "stix_id" := VStr "attack-pattern--2" ]}.

Definition state_0 : InvestigationState :=
  create_initial_state "alert A: powershell spawned by winword" "enterprise"
    "gpt-4o-mini" None.

(** Mapping has confirmed a technique; the state holds no client. *)
Definition state_without_client : InvestigationState :=
  apply_update state_0
    (mk_update None None None (Some [technique_1; technique_2]) None None None
       None None None None None None None None).

Definition detection_item (total : Z) : value :=
  VDict {[ "technique" := VDict technique_1;
           "detection" :=
             VDict {[ "mode" := VStr "datacomponents";
                      "total_datacomponents" := VInt total;
                      "top_datacomponents" := VList [] ]} ]}.

(** The entry that the detection agent writes when it fell back to the
    detection text of the technique: it has no [total_datacomponents]. *)
Definition fallback_item : value :=
  VDict {[ "technique" := VDict technique_2;
           "detection" :=
             VDict {[ "mode" := VStr "fallback_technique_detection";
                      "fallback_used" := VBool true ]} ]}.

Definition state_with_detections (items : list value) : InvestigationState :=
  apply_update state_without_client
    (mk_update None None None None None
       (Some {[ "domain" := VStr "enterprise"; "detections" := VList items ]})
       None None None None None None None None None).

(** Triage has named two techniques; the state holds a client. *)
Definition state_triaged : InvestigationState :=
  apply_update
    (create_initial_state "alert A: powershell spawned by winword" "enterprise"
       "gpt-4o-mini" (Some 0%nat))
    (mk_update None None (Some ["T1059.001"; "T9999"]) None None None None
       None None None None None None None None).

(** Mapping and detection are done: one technique has no data component. *)
Definition state_detected : InvestigationState :=
  apply_update
    (apply_update state_triaged
       (mk_update None None None (Some [technique_1; technique_2]) None None
          None None None None None None None None None))
    (mk_update None None None None None
       (Some {[ "domain" := VStr "enterprise";
                "detections" := VList [detection_item 3; fallback_item] ]})
       None None None None None None None None None).

(** Collaborators that raise whenever they are awaited. *)
Definition lookup_raises (i : nat) (tid domain : string) (b : bool)
  : result (option dict) := Raise boom.

Definition reasoning_raises (confirmed : list dict) (detections : dict)
    (incident_text model : string) (n : Z) : result dict := Raise boom.

(** Lookups of which the first finds its technique, the second raises and
    the others find nothing. *)
Definition mixed_lookup (i : nat) (tid domain : string) (b : bool)
  : result (option dict) :=
  match i with
  | 0%nat => Ok (Some technique_1)
  | 1%nat => Raise boom
  | _ => Ok None
  end.

(** Two mapping tasks under a semaphore of value 1, the first admitted. *)
Definition pool_one_admitted : pool (string * option dict) :=
  Eval vm_compute in
    default (map_techniques_pool ["T1059.001"; "T9999"] 1)
            (gather_step 0 (Raise boom)
               (map_techniques_pool ["T1059.001"; "T9999"] 1)).

(** A remote tool whose first call raises. *)
Definition first_call_raises (n : nat) (name : string) (arguments : dict)
  : result value :=
  match n with
  | O => Raise boom
  | _ => Ok (VDict {[ "groups" := VList [VStr "G0016"] ]})
  end.

End Workflow.

(** ** Further vocabulary for the MCP client *)

Module McpClientMore.
Import McpClient.

(** A [close] inside [async with self._close_lock]. *)
Definition in_close_section (t : task) : bool :=
  match t with
  | Closing (ClDrainWait _) | Closing ClSessionExit | Closing ClCtxExit => true
  | _ => false
  end.

(** A [close] that holds the lock and has not left the session yet. *)
Definition before_session_exit (t : task) : bool :=
  match t with
  | Closing (ClDrainWait _) | Closing ClSessionExit => true
  | _ => false
  end.

Definition at_ctx_exit (t : task) : bool :=
  match t with Closing ClCtxExit => true | _ => false end.

Definition finished (t : task) : bool :=
  match t with Finished _ _ => true | _ => false end.

(** The teardown operations run so far: each at most once, and the session
    never after the transport. *)
Definition teardown_in_order (log : list event) : Prop :=
  log = []
  \/ (exists i, log = [SessionExited i])
  \/ (exists i j, log = [SessionExited i; TransportExited j])
  \/ (exists j, log = [TransportExited j]).

(** The bookkeeping of [close]. *)
Record close_inv (s : system) : Prop := mk_close_inv {
  cinv_lock :
    count in_close_section (tasks s)
    = if _close_lock (cl s) then 1%nat else 0%nat;
  cinv_fresh : _closing (cl s) = false -> teardown_log (cl s) = [];
  cinv_before :
    forall i t, tasks s !! i = Some t -> before_session_exit t = true ->
                teardown_log (cl s) = [];
  cinv_ctx :
    forall i t, tasks s !! i = Some t -> at_ctx_exit t = true ->
                teardown_log (cl s) = []
                \/ exists n, teardown_log (cl s) = [SessionExited n];
  cinv_order : teardown_in_order (teardown_log (cl s));
  cinv_stall :
    forall i, tasks s !! i = Some (Closing (ClDrainWait false)) ->
              0 < _inflight (cl s)
}.

(** Coroutine 1 closes a connected client; coroutine 2 closes it again. *)
Definition two_closes : list task :=
  [Connecting AtEntry; Closing ClEntry; Closing ClEntry].

Definition sched_connect_then_close : list (nat * ext) :=
  [(0, ExtOk); (0, ExtOk); (0, ExtOk); (0, ExtOk);
   (1, ExtOk); (1, ExtOk); (1, ExtOk)]%nat.

(** The client is connected, then closed by coroutine 1. *)
Definition state_closed_once : system :=
  Eval vm_compute in
    default (initial two_closes)
            (run sched_connect_then_close (initial two_closes)).

Definition state_closed_twice : system :=
  Eval vm_compute in
    default state_closed_once (run [(2%nat, ExtOk)] state_closed_once).

(** Coroutine 0 is in flight and coroutine 1 waits for it in [close]. *)
Definition sched_call_returns : list (nat * ext) :=
  sched_close_waits ++ [(0%nat, ExtRaise 3)].

Definition state_call_returned : system :=
  Eval vm_compute in
    default (initial three_tasks)
            (run sched_call_returns (initial three_tasks)).

(** Coroutine 0 connects while coroutine 1 closes: the close runs to its
    end while the connect is parked in [await self._ctx.__aenter__()], then
    the connect goes on. *)
Definition connect_and_close : list task :=
  [Connecting AtEntry; Closing ClEntry].

Definition sched_close_overtakes : list (nat * ext) :=
  [(0, ExtOk); (1, ExtOk); (1, ExtOk)]%nat.

Definition state_closed_early : system :=
  Eval vm_compute in
    default (initial connect_and_close)
            (run sched_close_overtakes (initial connect_and_close)).

Definition sched_connect_goes_on : list (nat * ext) :=
  [(0, ExtOk); (0, ExtOk); (0, ExtOk)]%nat.

Definition state_connected_late : system :=
  Eval vm_compute in
    default state_closed_early (run sched_connect_goes_on state_closed_early).

End McpClientMore.

(** ** Further vocabulary for the workflow *)

Module WorkflowMore.
Import Workflow.

(** An update that holds one Error Record and nothing else. *)
Definition error_only (u : update) : Prop :=
  exists r,
    u = mk_update None None None None None None None None None None None None
          None (Some [r]) None.

(** An update that marks [name] as completed and holds no Error Record. *)
Definition completes (name : string) (u : update) : Prop :=
  u_errors u = None /\ u_completed_agents u = Some [name].

(** An entry of the detection list over which the loop of
    [should_run_detection_reasoning] passes: a dict whose ["detection"] is a
    dict (or absent) and whose count does not compare equal to 0. *)
Definition passed_entry (item : value) : Prop :=
  exists d dd,
    item = VDict d
    /\ get d "detection" (VDict ∅) = VDict dd
    /\ eq_zero (get dd "total_datacomponents" (VInt 0)) = false.

(** An entry at which the loop raises: it is no dict, or its ["detection"]
    is no dict. *)
Definition malformed_entry (item : value) : Prop :=
  (forall d, item <> VDict d)
  \/ exists d, item = VDict d /\ forall dd, get d "detection" (VDict ∅) <> VDict dd.

(** The technique has a STIX id that counts as true. *)
Definition has_stix (t : dict) : bool := truthy (get t "stix_id" VNone).

(** Progress made by the tasks of a pool: a task that runs counts 1, a task
    that is done counts 2. *)
Definition slot_progress {R} (s : slot R) : nat :=
  match s with Pending => 0 | Running => 1 | Done _ => 2 end.

Definition pool_progress {R} (p : pool R) : nat :=
  foldr (fun s n => (slot_progress s + n)%nat) 0%nat (slots p).

(** Running a schedule of a pool. *)
Fixpoint gather_run {R} (sched : list (nat * result R)) (p : pool R)
  : option (pool R) :=
  match sched with
  | [] => Some p
  | (i, r) :: rest =>
      match gather_step i r p with
      | Some p' => gather_run rest p'
      | None => None
      end
  end.

(** A coroutine that raises in its first two attempts and returns in the
    third. *)
Definition fails_twice (attempt : Z) : result update :=
  if attempt <? 3 then Raise boom else Ok (mark_agent_complete state_0 "mapping").

(** A state in which the intel node was timed before. *)
Definition state_timed : InvestigationState :=
  apply_update state_0 (add_timing state_0 "intel" 7).

Definition technique_without_stix : dict :=
  {[ "id" := VStr "T0000"; "name" := VStr "No reference" ]}.

(** A remote tool that answers every call. *)
Definition tool_answers (n : nat) (name : string) (arguments : dict)
  : result value :=
  Ok (VDict {[ "result" := VDict {[ "groups" := VList [VStr "G0016"];
                                     "software" := VList [] ]} ]}).

(** *** [triage_node] ([workflows/nodes.py])

    [triage_incident] is annotated to return a [TriageOutput], an object
    with the attributes [summary] (a string) and [technique_evidence] (a dict
    from technique identifiers to lists of strings, in insertion order).
    For such an object [hasattr] succeeds, so the branches of
    [_extract_technique_ids] and of the node for a plain dict are not
    taken. *)
Record TriageOutput := mk_triage {
  summary : string;
  technique_evidence : list (string * list string)
}.

(** [_extract_technique_ids]: [[str(k) for k in te.keys()]] *)
Definition _extract_technique_ids (triage_out : TriageOutput) : list string :=
  (technique_evidence triage_out).*1.

Section Triage.
Variable now : string.
Variables start_time end_time : Q.

(** [TriageInput(incident_text=...)]: the validated text, or the
    [ValidationError] of pydantic. *)
Variable TriageInput : string -> result string.
Variable triage_incident : string -> result TriageOutput.

(** [triage_node], undecorated *)
Definition triage_node_body (state : InvestigationState) : update :=
  or_error now state "triage"
    (let incident_text := incident_text state in
     if negb (truthy (VStr incident_text))
     then Raise (mk_exn "ValueError" "No incident text provided")
     else
       triage_input ← TriageInput incident_text;
       triage_out ← triage_incident triage_input;
       match _extract_technique_ids triage_out with
       | [] =>
           Raise (mk_exn "ValueError" "Triage produced no technique candidates")
       | technique_ids =>
           Ok (completed start_time end_time state "triage"
                 (mk_update (Some (Some (summary triage_out)))
                    (Some (technique_evidence triage_out))
                    (Some technique_ids)
                    None None None None None None None None None None None
                    None))
       end).

Definition triage_node (state : InvestigationState) :=
  retry_async "triage_node" 1 1 (fun _ => Ok (triage_node_body state)).
End Triage.

(** Collaborators of the examples. *)
Definition accepts_input (text : string) : result string := Ok text.

Definition triage_finds_two (text : string) : result TriageOutput :=
  Ok {| summary := "Office macro spawning PowerShell";
        technique_evidence :=
          [("T1059.001", ["powershell.exe"; "-EncodedCommand"]);
           ("T1053.005", ["scheduled task"])] |}.

End WorkflowMore.

(** ** The lookups of the agents and the helpers of the reasoning agent
    ([agents/mapping_agent.py], [mitigation_agent.py], [detection_agent.py],
    [detection_reasoning_agent.py], [triage_agent.py])

    A Python [str] is held as its UTF-8 encoding: its characters are the
    bytes that are no continuation bytes, each with the continuation bytes
    that follow it.  The builtins whose answer depends on Unicode tables or
    on the printed form of an object are parameters: [repr] (what [str(x)]
    gives for an object that is no [str]), [int_of] (what [int(x)] gives for
    an object that is neither an [int] nor a [bool]: a number parsed from a
    string, or the exception raised), [strip], [lower] and [split]
    ([str.strip()], [str.lower()], [str.split()]). *)

Module Agents.
Import Workflow WorkflowMore.

(** *** Text *)

Definition ellipsis : string := "…".

(** [s.find(c)] and [s.rfind(c)] for a character [c] of one byte: the
    offset of its first and of its last occurrence, [-1] if there is none.
    The offsets count bytes where Python counts characters; a cut from one
    such offset to another takes the same characters out either way. *)
Fixpoint find_from (c : Ascii.ascii) (s : string) (i : Z) : Z :=
  match s with
  | EmptyString => -1
  | String a rest => if Ascii.eqb a c then i else find_from c rest (i + 1)
  end.

Definition find (c : Ascii.ascii) (s : string) : Z := find_from c s 0.

Fixpoint rfind_from (c : Ascii.ascii) (s : string) (i last : Z) : Z :=
  match s with
  | EmptyString => last
  | String a rest =>
      rfind_from c rest (i + 1) (if Ascii.eqb a c then i else last)
  end.

Definition rfind (c : Ascii.ascii) (s : string) : Z := rfind_from c s 0 (-1).

(** [s.startswith(c)], [s.endswith(c)] *)
Definition startswith (c : Ascii.ascii) (s : string) : bool :=
  match s with
  | String a _ => Ascii.eqb a c
  | EmptyString => false
  end.

Fixpoint endswith (c : Ascii.ascii) (s : string) : bool :=
  match s with
  | EmptyString => false
  | String a EmptyString => Ascii.eqb a c
  | String _ rest => endswith c rest
  end.

(** [c in s] *)
Fixpoint contains (c : Ascii.ascii) (s : string) : bool :=
  match s with
  | EmptyString => false
  | String a rest => Ascii.eqb a c || contains c rest
  end.

Definition open_brace : Ascii.ascii := Ascii.ascii_of_nat 123.
Definition close_brace : Ascii.ascii := Ascii.ascii_of_nat 125.

Definition is_none (v : value) : bool :=
  match v with VNone => true | _ => false end.

(** [isinstance(x, list)] with the list at hand, [[]] otherwise. *)
Definition list_or_empty (x : value) : list value :=
  match x with VList l => l | _ => [] end.

Section Builtins.
Variable repr : value -> string.
Variable int_of : value -> result Z.
Variables strip lower : string -> string.
Variable split : string -> list string.

(** [str(x)] *)
Definition str (x : value) : string :=
  match x with VStr s => s | _ => repr x end.

(** [int(x)] *)
Definition int (x : value) : result Z :=
  match x with
  | VInt n => Ok n
  | VBool b => Ok (if b then 1 else 0)
  | _ => int_of x
  end.

(** *** [agents/mapping_agent.py] *)

(** [_fetch_technique_details]; [call_tool name arguments] is the outcome of
    [await client.call_tool(name, arguments)]. *)
Definition _fetch_technique_details (call_tool : string -> dict -> result value)
    (technique_id domain : string) (include_description : bool)
  : result (option dict) :=
  detail ← call_tool "get_technique_by_id"
             {[ "technique_id" := VStr technique_id;
                "domain" := VStr domain;
                "include_description" := VBool include_description ]};
  match _safe_get detail ["result"] detail with
  | VDict payload =>
      if negb (truthy (get payload "found" VNone)) then Ok None
      else
        match get payload "technique" (VDict ∅) with
        | VDict tech =>
            let t_id := py_or (get tech "id" VNone) (VStr technique_id) in
            let t_name := py_or (get tech "name" VNone) (VStr "") in
            let t_stix := get tech "stix_id" VNone in
            let t_desc :=
              if include_description then get tech "description" VNone
              else VNone in
            tactics_resp ← call_tool "get_technique_tactics"
                             {[ "technique_id" := t_id;
                                "domain" := VStr domain ]};
            let tactics_payload :=
              _safe_get tactics_resp ["result"] tactics_resp in
            let tactics :=
              match tactics_payload with
              | VDict d => get d "tactics" VNone
              | _ => VList []
              end in
            let tactics :=
              match tactics with VList _ => tactics | _ => VList [] end in
            Ok (Some {[ "id" := t_id;
                        "name" := t_name;
                        "stix_id" := t_stix;
                        "description" := t_desc;
                        "tactics" := tactics ]})
        | _ => Ok None
        end
  | _ => Ok None
  end.

(** *** [agents/mitigation_agent.py] *)

(** One entry of [mitigations]: the four fields of a dict; an item that is
    no dict has none of the attributes asked for, and every [getattr]
    answers its default [None]. *)
Definition mitigation_item (include_description : bool) (item : value) : dict :=
  match item with
  | VDict d =>
      {[ "attack_id" := get d "attack_id" VNone;
         "name" := get d "name" VNone;
         "stix_id" := py_or (get d "stix_id" VNone) (get d "id" VNone);
         "description" :=
           if include_description then get d "description" VNone else VNone ]}
  | _ =>
      {[ "attack_id" := VNone;
         "name" := VNone;
         "stix_id" := py_or VNone VNone;
         "description" := VNone ]}
  end.

Definition _fetch_mitigations_for_technique
    (call_tool : string -> dict -> result value)
    (technique : dict) (domain : string) (include_description : bool)
  : result (option mitigation_entry) :=
  let stix_id := get technique "stix_id" VNone in
  if negb (truthy stix_id) then Ok None
  else
    resp ← call_tool "get_mitigations_mitigating_technique"
             {[ "technique_stix_id" := stix_id;
                "domain" := VStr domain;
                "include_description" := VBool include_description ]};
    match _safe_get resp ["result"] resp with
    | VDict payload =>
        let raw_list := list_or_empty (get payload "mitigations" (VList [])) in
        let mitigations := mitigation_item include_description <$> raw_list in
        count ← int (get payload "count"
                       (VInt (Z.of_nat (length mitigations))));
        Ok (Some {| me_technique :=
                      {[ "id" := get technique "id" VNone;
                         "name" := get technique "name" VNone;
                         "stix_id" := stix_id ]};
                    me_found := truthy (get payload "found" VNone);
                    me_count := count;
                    me_mitigations := mitigations;
                    me_formatted := get payload "formatted" (VStr "");
                    me_message := get payload "message" (VStr "") |})
    | _ => Ok None
    end.

(** *** [agents/detection_agent.py] *)

(** The loop of [_extract_component_names]. *)
Fixpoint component_names (datacomponents_payload : list value) : list string :=
  match datacomponents_payload with
  | [] => []
  | VDict item :: rest =>
      let name :=
        match get item "object" VNone with
        | VDict obj => get obj "name" VNone
        | _ => get item "name" VNone
        end in
      if truthy name then str name :: component_names rest
      else component_names rest
  | _ :: rest => component_names rest
  end.

Definition _extract_component_names (datacomponents_payload : value)
    (max_items : Z) : list string * Z :=
  match datacomponents_payload with
  | VList l =>
      let names := component_names l in
      (slice_to max_items names, Z.of_nat (length names))
  | _ => ([], 0)
  end.

(** [_compact_detection_text], on the [str] that its caller passes. *)
Definition _compact_detection_text (text : string) (max_chars : Z) : string :=
  if negb (truthy (VStr text)) then ""
  else
    let s := String.concat " " (split (strip text)) in
    str_slice_to max_chars s ++ (if max_chars <? len s then "..." else "").

Definition _fallback_detection_from_technique_object
    (call_tool : string -> dict -> result value)
    (technique_stix_id : value) (domain : string) : result dict :=
  obj_resp ← call_tool "get_object_by_stix_id"
               {[ "stix_id" := technique_stix_id; "domain" := VStr domain ]};
  let technique_obj :=
    py_or (py_or (_safe_get obj_resp ["result"; "object"] VNone)
                 (_safe_get obj_resp ["result"] VNone))
          obj_resp in
  match technique_obj with
  | VDict obj =>
      let data_sources :=
        list_or_empty (py_or (get obj "x_mitre_data_sources" VNone) (VList [])) in
      let detection_text :=
        match py_or (get obj "x_mitre_detection" VNone) (VStr "") with
        | VStr s => s
        | _ => ""
        end in
      Ok {[ "fallback_used" := VBool true;
            "data_sources" := VList (VStr <$> slice_to 12 (str <$> data_sources));
            "detection_text" := VStr (_compact_detection_text detection_text 280);
            "note" := VStr "Structured data components were empty; used ATT&CK technique detection guidance instead." ]}
  | _ =>
      Ok {[ "fallback_used" := VBool true;
            "data_sources" := VList [];
            "detection_text" := VStr "";
            "note" := VStr "Technique object could not be parsed for detection guidance." ]}
  end.

(** [count] and [datacomponents] of [recommend_detection_telemetry]. *)
Definition count_and_components (payload : value) : result (Z * value) :=
  match payload with
  | VDict p =>
      count ← int (py_or (get p "count" VNone) (VInt 0));
      Ok (count, py_or (get p "datacomponents" VNone) (VList []))
  | _ => Ok (0, VList [])
  end.

Definition detection_entry (t : dict) (stix_id : value) (detection_block : dict)
  : value :=
  VDict {[ "technique" := VDict {[ "id" := get t "id" VNone;
                                    "name" := get t "name" VNone;
                                    "stix_id" := stix_id ]};
           "detection" := VDict detection_block ]}.

(** The loop [for t in confirmed_techniques] of
    [recommend_detection_telemetry]; [call_tool n] is the [n]-th call of the
    run, counted from 0, and [n] calls were made so far.  The result comes
    with the number of calls made. *)
Fixpoint detection_loop (call_tool : nat -> string -> dict -> result value)
    (n : nat) (techniques : list dict) (domain : string) (max_items : Z)
    (out : list value) : result (list value) * nat :=
  match techniques with
  | [] => (Ok out, n)
  | t :: rest =>
      let stix_id := get t "stix_id" VNone in
      if negb (truthy stix_id)
      then detection_loop call_tool n rest domain max_items out
      else
        match call_tool n "get_datacomponents_detecting_technique"
                {[ "technique_stix_id" := stix_id; "domain" := VStr domain ]} with
        | Raise e => (Raise e, S n)
        | Ok resp =>
            let payload := py_or (_safe_get resp ["result"] VNone) resp in
            match count_and_components payload with
            | Raise e => (Raise e, S n)
            | Ok (count, datacomponents) =>
                let '(top_names, total) :=
                  _extract_component_names datacomponents max_items in
                if (count =? 0) || (total =? 0)
                then
                  match _fallback_detection_from_technique_object
                          (call_tool (S n)) stix_id domain with
                  | Raise e => (Raise e, S (S n))
                  | Ok fallback =>
                      detection_loop call_tool (S (S n)) rest domain max_items
                        (out ++
                         [detection_entry t stix_id
                            (fallback ∪
                             {[ "mode" := VStr "fallback_technique_detection" ]})])
                  end
                else
                  detection_loop call_tool (S n) rest domain max_items
                    (out ++
                     [detection_entry t stix_id
                        {[ "mode" := VStr "datacomponents";
                           "total_datacomponents" := VInt total;
                           "top_datacomponents" := VList (VStr <$> top_names) ]}])
            end
        end
  end.

Definition recommend_detection_telemetry
    (call_tool : nat -> string -> dict -> result value)
    (confirmed_techniques : list dict) (domain : string) (max_items : Z)
  : result dict * nat :=
  match detection_loop call_tool 0 confirmed_techniques domain max_items [] with
  | (Ok out, n) =>
      (Ok {[ "domain" := VStr domain; "detections" := VList out ]}, n)
  | (Raise e, n) => (Raise e, n)
  end.

(** *** [agents/detection_reasoning_agent.py] *)

Definition _truncate_str (s : value) (max_len : Z) : string :=
  match s with
  | VNone => ""
  | _ =>
      let s := str s in
      if len s <=? max_len then s
      else str_slice_to (max_len - 1) s ++ ellipsis
  end.

Definition _extract_json_object (text : string) : string :=
  if negb (truthy (VStr text)) then "{}"
  else
    let text := strip text in
    if startswith open_brace text && endswith close_brace text then text
    else
      let start := find open_brace text in
      let end_ := rfind close_brace text in
      if negb (start =? -1) && negb (end_ =? -1) && (start <? end_)
      then String.substring (Z.to_nat start) (Z.to_nat (end_ + 1 - start)) text
      else "{}".

Definition default_telemetry : list string :=
  ["Endpoint process telemetry (EDR/Sysmon)";
   "Network telemetry (DNS/Proxy/Firewall)"].

Definition confidence_values : list string := ["low"; "medium"; "high"].

(** The body of the loop [for h in raw_h] for a dict [h]. *)
Definition sanitize_hypothesis (h : dict) : dict :=
  let title := _truncate_str (get h "title" (VStr "")) 140 in
  let telemetry := list_or_empty (get h "telemetry" (VList [])) in
  let telemetry :=
    (fun x => _truncate_str x 140)
      <$> List.filter (fun x => negb (is_none x)) telemetry in
  let telemetry := slice_to 8 telemetry in
  let telemetry :=
    if (length telemetry <? 2)%nat
    then if (length telemetry =? 0)%nat
         then default_telemetry
         else telemetry ++ ["Endpoint process telemetry (EDR/Sysmon)"]
    else telemetry in
  let rationale := _truncate_str (get h "rationale" (VStr "")) 400 in
  let conf := strip (lower (str (get h "confidence" (VStr "medium")))) in
  let conf :=
    if bool_decide (conf ∈ confidence_values) then conf else "medium" in
  {[ "title" := VStr title;
     "telemetry" := VList (VStr <$> telemetry);
     "rationale" := VStr rationale;
     "confidence" := VStr conf ]}.

Definition default_hypothesis : dict :=
  {[ "title" := VStr "Correlate endpoint execution chain with network activity";
     "telemetry" := VList (VStr <$> default_telemetry);
     "rationale" := VStr "When vendor mappings are missing, correlating process lineage with outbound traffic often surfaces suspicious behaviors.";
     "confidence" := VStr "medium" ]}.

Definition _sanitize_llm_payload (payload : dict) : dict :=
  let raw_h := list_or_empty (get payload "hypotheses" (VList [])) in
  let raw_h := slice_to 5 raw_h in
  let cleaned_h :=
    omap (fun h => match h with
                   | VDict d => Some (VDict (sanitize_hypothesis d))
                   | _ => None
                   end) raw_h in
  let cleaned_h :=
    match cleaned_h with [] => [VDict default_hypothesis] | _ => cleaned_h end in
  {[ "technique_id" := VStr (_truncate_str (get payload "technique_id" (VStr "")) 140);
     "technique_name" := VStr (_truncate_str (get payload "technique_name" (VStr "")) 140);
     "hypotheses" := VList cleaned_h ]}.

(** *** [agents/triage_agent.py] *)

(** The loop of [_dedupe_str_list]; [(x or "").strip()] raises for an [x]
    that counts as true and is no [str]. *)
Fixpoint dedupe_loop (xs : list value) (max_items : Z) (out : list string)
    (seen : gset string) : result (list string) :=
  match xs with
  | [] => Ok out
  | x :: rest =>
      match py_or x (VStr "") with
      | VStr x =>
          let s := strip x in
          if negb (truthy (VStr s)) then dedupe_loop rest max_items out seen
          else
            let k := lower s in
            if bool_decide (k ∈ seen) then dedupe_loop rest max_items out seen
            else
              let seen := {[ k ]} ∪ seen in
              let out := out ++ [s] in
              if max_items <=? Z.of_nat (length out) then Ok out
              else dedupe_loop rest max_items out seen
      | x =>
          Raise (mk_exn "AttributeError"
                   ("'" ++ type_name x ++ "' object has no attribute 'strip'"))
      end
  end.

Definition _dedupe_str_list (xs : list value) (max_items : Z)
  : result (list string) :=
  dedupe_loop xs max_items [] ∅.
End Builtins.

(** What the schema of the reasoning agent asks of a hypothesis
    ([DetectionHypothesis]) and of the whole answer ([DetectionLLMOutput]),
    with the bound of 140 characters that [_sanitize_llm_payload] promises
    for the items of [telemetry]. *)
Definition is_text_within (max_length : Z) (v : value) : bool :=
  match v with VStr s => len s <=? max_length | _ => false end.

Definition hypothesis_within_schema (h : value) : bool :=
  match h with
  | VDict d =>
      is_text_within 140 (get d "title" VNone)
      && match get d "telemetry" VNone with
         | VList items =>
             (2 <=? length items)%nat && (length items <=? 8)%nat
             && forallb (is_text_within 140) items
         | _ => false
         end
      && is_text_within 400 (get d "rationale" VNone)
      && match get d "confidence" VNone with
         | VStr c => bool_decide (c ∈ confidence_values)
         | _ => false
         end
  | _ => false
  end.

Definition within_schema (out : dict) : bool :=
  is_text_within 140 (get out "technique_id" VNone)
  && is_text_within 140 (get out "technique_name" VNone)
  && match get out "hypotheses" VNone with
     | VList hs =>
         (1 <=? length hs)%nat && (length hs <=? 5)%nat
         && forallb hypothesis_within_schema hs
     | _ => false
     end.

(** The entry of the detection list was built from the guidance of the
    technique object, not from data components. *)
Definition uses_fallback (entry : value) : bool :=
  match _safe_get entry ["detection"; "mode"] VNone with
  | VStr mode => String.eqb mode "fallback_technique_detection"
  | _ => false
  end.

(** [s] is the stripped, non-empty text of some item of [xs]. *)
Definition kept_from (strip : string -> string) (xs : list value) (s : string)
  : Prop :=
  s <> "" /\ exists x text, x ∈ xs /\ py_or x (VStr "") = VStr text
                            /\ s = strip text.

(** The keys of a confirmed technique, its list of tactics, and its
    description when none was asked for. *)
Definition technique_keys : list string :=
  ["id"; "name"; "stix_id"; "description"; "tactics"].

Definition confirmed_shape (include_description : bool) (t : dict) : Prop :=
  dom t = list_to_set technique_keys
  /\ (exists tactics, t !! "tactics" = Some (VList tactics))
  /\ (include_description = false -> t !! "description" = Some VNone).

(** *** Builtins and tools of the examples

    The examples apply [str] to texts only, [int] to numbers and to [None],
    and [strip] and [split] to texts in ASCII without blanks at their ends,
    where words are set apart by spaces. *)
Definition repr_unused (x : value) : string := "".

Definition int_of_rejects (x : value) : result Z :=
  Raise (mk_exn "TypeError"
           ("int() argument must be a string, a bytes-like object or a real number, not '"
            ++ type_name x ++ "'")).

Definition strip_nothing (s : string) : string := s.

Fixpoint split_spaces (word s : string) {struct s} : list string :=
  match s with
  | EmptyString => if String.eqb word "" then [] else [word]
  | String c rest =>
      if Ascii.eqb c (Ascii.ascii_of_nat 32)
      then if String.eqb word "" then split_spaces "" rest
           else word :: split_spaces "" rest
      else split_spaces (word ++ String c EmptyString) rest
  end.

(** The detection tool: data components for the first technique, none for
    the second, whose technique object is then asked for. *)
Definition detection_tool (n : nat) (name : string) (arguments : dict)
  : result value :=
  match n with
  | 0%nat =>
      Ok (VDict {[ "result" :=
                     VDict {[ "count" := VInt 2;
                              "datacomponents" :=
                                VList [VDict {[ "object" :=
                                                  VDict {[ "name" := VStr "Process Creation" ]} ]};
                                       VDict {[ "name" := VStr "Command Execution" ]}] ]} ]})
  | 1%nat => Ok (VDict {[ "count" := VInt 0 ]})
  | _ =>
      Ok (VDict {[ "result" :=
                     VDict {[ "object" :=
                                VDict {[ "x_mitre_data_sources" :=
                                           VList [VStr "Scheduled Job: Scheduled Job Creation"];
                                         "x_mitre_detection" :=
                                           VStr "Monitor scheduled task creation" ]} ]} ]})
  end.

Definition detection_example : result dict * nat :=
  recommend_detection_telemetry repr_unused int_of_rejects strip_nothing
    (split_spaces "") detection_tool
    [technique_1; technique_without_stix; technique_2] "enterprise" 7.

Definition detection_example_entries : list value :=
  match detection_example.1 with
  | Ok out => list_or_empty (get out "detections" VNone)
  | Raise _ => []
  end.

(** The mapping tool of task [i]: the first technique is known, with its
    tactics in an unexpected form; the second is not found. *)
Definition mapping_tool (i : nat) (name : string) (arguments : dict)
  : result value :=
  match i, name with
  | 0%nat, "get_technique_by_id" =>
      Ok (VDict {[ "result" :=
                     VDict {[ "found" := VBool true;
                              "technique" :=
                                VDict {[ "id" := VStr "T1059.001";
                                         "name" := VStr "PowerShell";
                                         "description" := VStr "Adversaries may abuse PowerShell." ]} ]} ]})
  | 0%nat, _ => Ok (VDict {[ "result" := VDict {[ "tactics" := VStr "execution" ]} ]})
  | _, _ => Ok (VDict {[ "found" := VBool false ]})
  end.

(** The mitigation tool: it reports five mitigations and lists one. *)
Definition mitigation_tool (name : string) (arguments : dict) : result value :=
  Ok (VDict {[ "result" :=
                 VDict {[ "found" := VBool true;
                          "count" := VInt 5;
                          "mitigations" :=
                            VList [VDict {[ "attack_id" := VStr "M1042";
                                            "name" := VStr "Disable or Remove Feature or Program";
                                            "id" := VStr "course-of-action--1" ]}] ]} ]}).

(** It reports no count it can be read as a number. *)
Definition mitigation_tool_null_count (name : string) (arguments : dict)
  : result value :=
  Ok (VDict {[ "found" := VBool true; "count" := VNone;
               "mitigations" := VList [] ]}).

End Agents.

(** * Properties of the MCP client *)

Module McpClientFacts.
Import McpClient.

Lemma count_insert (P : task -> bool) (ts : list task) (i : nat) (t t' : task) :
  ts !! i = Some t ->
  (count P (<[i := t']> ts) + Nat.b2n (P t) = count P ts + Nat.b2n (P t'))%nat.
Proof.
  unfold count. revert i. induction ts as [|a ts IH]; intros [|i] H; simpl in *;
    try discriminate.
  - injection H as ->. destruct (P t), (P t'); simpl; lia.
  - specialize (IH i H). destruct (P a); simpl; lia.
Qed.

Lemma count_wake (P : task -> bool) (ts : list task) :
  (forall t, P (wake t) = P t) -> count P (wake <$> ts) = count P ts.
Proof.
  intros HP. unfold count. induction ts as [|a ts IH]; simpl in *; [done|].
  rewrite HP. destruct (P a); simpl; [f_equal|]; exact IH.
Qed.

Lemma count_pos (P : task -> bool) (ts : list task) (i : nat) (t : task) :
  ts !! i = Some t -> P t = true -> (1 <= count P ts)%nat.
Proof.
  unfold count. revert i. induction ts as [|a ts IH]; intros [|i] H HP;
    simpl in *; try discriminate.
  - injection H as ->. rewrite HP. simpl. lia.
  - specialize (IH i H HP). destruct (P a); simpl; lia.
Qed.


Lemma lookup_after_plain (ts : list task) (i : nat) (t' : task) (j : nat)
    (u : task) :
  <[i := t']> ts !! j = Some u -> u = t' \/ (i <> j /\ ts !! j = Some u).
Proof.
  intros H. apply list_lookup_insert_Some in H as [(_ & -> & _)|(? & H)]; eauto.
Qed.

Lemma lookup_after_wake (ts : list task) (i : nat) (t' : task) (j : nat)
    (u : task) :
  (wake <$> <[i := t']> ts) !! j = Some u ->
  u = wake t' \/ exists u0, i <> j /\ ts !! j = Some u0 /\ u = wake u0.
Proof.
  rewrite list_lookup_fmap. intros H.
  destruct (<[i := t']> ts !! j) as [v|] eqn:Hv; simpl in H; [|done].
  injection H as <-. apply lookup_after_plain in Hv as [->|[? Hv]]; eauto.
Qed.

Lemma close_started_wake (t : task) : close_started (wake t) = close_started t.
Proof. destruct t as [| | |[]|]; done. Qed.

Lemma in_flight_wake (t : task) : in_flight (wake t) = in_flight t.
Proof. destruct t as [| | |[]|]; done. Qed.

Lemma past_drain_started (t : task) : past_drain t = true -> close_started t = true.
Proof. destruct t as [| | |[| |[]| |]|[]]; done. Qed.

Lemma past_drain_wake (t : task) :
  past_drain (wake t) = true -> close_started t = true.
Proof. destruct t as [| | |[| |[]| |]|[]]; done. Qed.

Ltac unfold_setters :=
  unfold set_connect_lock, set_close_lock, set_closing, set_inflight,
    spawn_ctx, open_session, drop_session, drop_ctx in *;
  simpl in *.

Ltac step_cases Hts :=
  unfold task_step, connect_step, close_step, connect_locked, close_locked,
    call_connected, teardown, teardown_ctx, _begin_call, _end_call in Hts;
  unfold_setters; try discriminate Hts;
  repeat (case_match; unfold_setters; simplify_eq); simplify_eq;
  unfold_setters.

Ltac old_task H :=
  first [ apply lookup_after_wake in H as [->|(? & ? & H & ->)]
        | apply lookup_after_plain in H as [->|[? H]] ].

Ltac use_inv Hcl Hp Hj Hu :=
  try (pose proof (Hp _ _ Hj Hu));
  try (pose proof (Hcl _ _ Hj Hu));
  try (pose proof (Hcl _ _ Hj (past_drain_started _ Hu)));
  try (rewrite close_started_wake in Hu; pose proof (Hcl _ _ Hj Hu));
  try (pose proof (Hcl _ _ Hj (past_drain_wake _ Hu))).

Lemma step_drain_inv s i x s' :
  drain_inv s -> step i x s = Some s' -> drain_inv s'.
Proof.
  intros [Hc He Hcl Hp Hf Hs] Hstep. unfold step in Hstep.
  destruct (tasks s !! i) as [t|] eqn:Hi; [|done].
  destruct (task_step x t (cl s)) as [[[c' t'] w]|] eqn:Hts; [|done].
  injection Hstep as <-. destruct s as [c ts]. simpl in *.
  pose proof (count_insert in_flight ts i t t' Hi) as Hcnt.
  pose proof (count_pos in_flight ts i t Hi) as Hpos.
  pose proof (Hcl i t Hi) as Ht_cl. pose proof (Hp i t Hi) as Ht_p.
  destruct c as [ctx rd wr sess clk xlk closing infl ev sp ss lg]; simpl in *.
  destruct t as [k|ck k|ck|k|o r]; [destruct k|destruct k|idtac|destruct k|idtac];
    step_cases Hts.
  all: try specialize (Hpos eq_refl).
  all: try specialize (Ht_cl eq_refl).
  all: try specialize (Ht_p eq_refl).
  all: constructor; simpl.
  all: try (rewrite ?(count_wake in_flight) by apply in_flight_wake; simpl in *; lia).
  all: try (intros j u Hj Hu; old_task Hj; use_inv Hcl Hp Hj Hu;
            first [done | lia]).
  all: try done.
  all: try (intros; lia).
  all: try (intros; exfalso; lia).
  all: try (intros; apply Hs; lia).
  all: try (intros; apply Hf; done).
  all: intros H1 H2; specialize (Hf H1 H2); lia.
Qed.

Lemma count_two (P : task -> bool) (ts : list task) (i j : nat) (t u : task) :
  ts !! i = Some t -> ts !! j = Some u -> i <> j ->
  P t = true -> P u = true -> (2 <= count P ts)%nat.
Proof.
  intros Hi Hj Hne Ht Hu. revert i j Hi Hj Hne.
  induction ts as [|a ts IH]; intros [|i] [|j] Hi Hj Hne; simpl in *;
    try discriminate; try congruence.
  - injection Hi as ->. pose proof (count_pos P ts j u Hj Hu) as H.
    unfold count in *. simpl. rewrite Ht. simpl. lia.
  - injection Hj as ->. pose proof (count_pos P ts i t Hi Ht) as H.
    unfold count in *. simpl. rewrite Hu. simpl. lia.
  - assert (i <> j) as Hne' by congruence.
    specialize (IH i j Hi Hj Hne'). unfold count in *. simpl.
    destruct (P a); simpl; lia.
Qed.

Lemma in_critical_wake (t : task) : in_critical (wake t) = in_critical t.
Proof. destruct t as [| | |[]|]; done. Qed.

Lemma at_ctx_enter_wake (t : task) : at_ctx_enter (wake t) = at_ctx_enter t.
Proof. destruct t as [| | |[]|]; done. Qed.

Lemma at_ctx_enter_critical (t : task) :
  at_ctx_enter t = true -> in_critical t = true.
Proof. destruct t as [[]|? []| | |]; done. Qed.

Lemma step_connect_inv s i x s' :
  drain_inv s -> connect_inv s -> step i x s = Some s' -> connect_inv s'.
Proof.
  intros [_ _ Hcl _ _ _] [Hcr Hun Hop Hen Hon] Hstep. unfold step in Hstep.
  destruct (tasks s !! i) as [t|] eqn:Hi; [|done].
  destruct (task_step x t (cl s)) as [[[c' t'] w]|] eqn:Hts; [|done].
  injection Hstep as <-. destruct s as [c ts]. simpl in *.
  pose proof (count_insert in_critical ts i t t' Hi) as Hcnt.
  pose proof (Hcl i t Hi) as Ht_cl. pose proof (Hen i t Hi) as Ht_en.
  destruct c as [ctx rd wr sess clk xlk closing infl ev sp ss lg]; simpl in *.
  destruct t as [k|ck k|ck|k|o r]; [destruct k|destruct k|idtac|destruct k|idtac];
    step_cases Hts.
  all: try specialize (Ht_cl eq_refl).
  all: try specialize (Ht_en eq_refl).
  all: constructor; simpl.
  all: try (rewrite ?(count_wake in_critical) by apply in_critical_wake;
            simpl in *; lia).
  all: try done.
  all: try lia.
  all: try (intros; first [ left; done | right; done | apply Hop; done ]).
  all: intros j u Hj Hu; old_task Hj; rewrite ?at_ctx_enter_wake in Hu;
    try done; try exact (Hen _ _ Hj Hu).
  all: try (destruct ss; [done|]; destruct Hop as [[? ?]|?]; [lia|done|done]).
  all: pose proof (count_two in_critical ts i j _ u Hi ltac:(eassumption)
                     ltac:(done) eq_refl (at_ctx_enter_critical _ Hu));
    try destruct clk; simpl in *; lia.
Qed.

Lemma count_fresh (P : task -> bool) (ts : list task) :
  (forall t, fresh t = true -> P t = false) -> all_fresh ts -> count P ts = 0%nat.
Proof.
  intros HP Hts. unfold count. induction Hts as [|t ts Ht _ IH]; simpl; [done|].
  rewrite (HP t Ht). exact IH.
Qed.

Lemma lookup_fresh (ts : list task) (i : nat) (t : task) :
  all_fresh ts -> ts !! i = Some t -> fresh t = true.
Proof.
  intros Hts Hi. unfold all_fresh in Hts. rewrite Forall_lookup in Hts.
  exact (Hts i t Hi).
Qed.

Lemma initial_drain_inv (ts : list task) : all_fresh ts -> drain_inv (initial ts).
Proof.
  intros Hts. constructor; simpl.
  - rewrite (count_fresh in_flight); [done| |done]. by intros [[]|? []| |[]|].
  - done.
  - intros i t Hi Ht. apply (lookup_fresh _ _ _ Hts) in Hi.
    by destruct t as [[]|? []| |[| |[]| |]|[]].
  - intros i t Hi Ht. apply (lookup_fresh _ _ _ Hts) in Hi.
    by destruct t as [[]|? []| |[| |[]| |]|[]].
  - done.
  - lia.
Qed.

Lemma initial_connect_inv (ts : list task) :
  all_fresh ts -> connect_inv (initial ts).
Proof.
  intros Hts. constructor; simpl.
  - rewrite (count_fresh in_critical); [done| |done]. by intros [[]|? []| |[]|].
  - done.
  - lia.
  - done.
  - lia.
Qed.

Lemma reachable_inv (ts : list task) (s : system) :
  all_fresh ts -> reachable (initial ts) s -> drain_inv s /\ connect_inv s.
Proof.
  intros Hts Hr. induction Hr as [|s i x s' _ [IHd IHc] Hstep].
  - split; [by apply initial_drain_inv | by apply initial_connect_inv].
  - split; [eapply step_drain_inv | eapply step_connect_inv]; eauto.
Qed.

Lemma run_reachable (sched : list (nat * ext)) (s0 s1 s : system) :
  reachable s0 s1 -> run sched s1 = Some s -> reachable s0 s.
Proof.
  revert s1. induction sched as [|[i x] rest IH]; intros s1 Hr Hrun; simpl in *.
  - by injection Hrun as <-.
  - destruct (step i x s1) as [s2|] eqn:Hs; [|done].
    eapply IH; [|exact Hrun]. eapply reach_step; eauto.
Qed.

Lemma step_closing (s : system) (j : nat) (x : ext) (s' : system) :
  step j x s = Some s' -> _closing (cl s) = true -> _closing (cl s') = true.
Proof.
  intros Hstep Hcl. unfold step in Hstep.
  destruct (tasks s !! j) as [t|] eqn:Hj; [|done].
  destruct (task_step x t (cl s)) as [[[c' t'] w]|] eqn:Hts; [|done].
  injection Hstep as <-. destruct s as [c ts]. simpl in *.
  destruct c as [ctx rd wr sess clk xlk closing infl ev sp ss lg]; simpl in *.
  destruct t as [k|ck k|ck|k|o r]; [destruct k|destruct k|idtac|destruct k|idtac];
    step_cases Hts; done.
Qed.

Lemma step_other (s : system) (j : nat) (x : ext) (s' : system) (i : nat)
    (t : task) :
  step j x s = Some s' -> i <> j -> tasks s !! i = Some t ->
  tasks s' !! i = Some t \/ tasks s' !! i = Some (wake t).
Proof.
  intros Hstep Hne Hi. unfold step in Hstep.
  destruct (tasks s !! j) as [u|] eqn:Hj; [|done].
  destruct (task_step x u (cl s)) as [[[c' u'] w]|] eqn:Hts; [|done].
  injection Hstep as <-. simpl. destruct w.
  - right. rewrite list_lookup_fmap, list_lookup_insert_ne by done.
    by rewrite Hi.
  - left. by rewrite list_lookup_insert_ne.
Qed.

Lemma step_self (s : system) (i : nat) (x : ext) (s' : system) (t : task) :
  step i x s = Some s' -> tasks s !! i = Some t ->
  exists c' t' w, task_step x t (cl s) = Some (c', t', w)
                  /\ tasks s' !! i = Some (if w then wake t' else t').
Proof.
  intros Hstep Hi. unfold step in Hstep. rewrite Hi in Hstep.
  destruct (task_step x t (cl s)) as [[[c' t'] w]|] eqn:Hts; [|done].
  injection Hstep as <-. exists c', t', w. split; [done|]. simpl.
  apply lookup_lt_Some in Hi. destruct w.
  - rewrite list_lookup_fmap, list_lookup_insert_eq by done. done.
  - by rewrite list_lookup_insert_eq.
Qed.

(** Under a closing client, the first two transitions of a call either park
    it at the connect lock or reject it. *)
Lemma rejected_step (c : client) (ck : call_kind) (k : conn_pc) (x : ext)
    (c' : client) (t' : task) (w : bool) :
  _closing c = true -> k = AtEntry \/ k = AtLockWait ->
  task_step x (Calling ck k) c = Some (c', t', w) ->
  w = false
  /\ (t' = Calling ck AtLockWait /\ k = AtEntry /\ _session c = None
      /\ _connect_lock c = true
      \/ exists r, t' = Finished (OpCall ck) r /\ is_closing_error r).
Proof.
  intros Hcl Hk Hts. unfold is_closing_error.
  destruct c as [ctx rd wr sess clk xlk closing infl ev sp ss lg]; simpl in *.
  destruct Hk as [-> | ->]; step_cases Hts; split; eauto 6.
Qed.

(** C1.  In every interleaving of calls, connects and closes on a new client:
    while a [close] is past its wait for the drain event (it is tearing down
    or has returned), the in-flight count is 0 and no call is in flight; and
    while a call is in flight, the count is positive, the session is still
    there, no [close] is past its wait, and the call can run to its end with
    whatever the remote call gives. *)
Theorem close_waits_for_inflight_calls (ts : list task) (s : system) :
  all_fresh ts -> reachable (initial ts) s ->
  (forall i t, tasks s !! i = Some t -> past_drain t = true ->
     _inflight (cl s) = 0
     /\ forall j u, tasks s !! j = Some u -> in_flight u = false)
  /\ (forall j ck, tasks s !! j = Some (InFlight ck) ->
        0 < _inflight (cl s)
        /\ is_Some (_session (cl s))
        /\ (forall i t, tasks s !! i = Some t -> past_drain t = false)
        /\ forall x, exists s',
             step j x s = Some s'
             /\ tasks s' !! j = Some (Finished (OpCall ck) (outcome_of x))).
Proof.
  intros Hts Hr. destruct (reachable_inv ts s Hts Hr) as [[Hc He Hcl Hp Hf Hs] _].
  split.
  - intros i t Hi Ht. pose proof (Hp i t Hi Ht) as H0. split; [done|].
    intros j u Hj. destruct (in_flight u) eqn:Hu; [|done].
    pose proof (count_pos in_flight _ j u Hj Hu). lia.
  - intros j ck Hj.
    pose proof (count_pos in_flight _ j _ Hj eq_refl) as Hpos.
    assert (0 < _inflight (cl s)) as Hin by lia.
    split; [done|]. split; [by apply Hs|]. split.
    + intros i t Hi. destruct (past_drain t) eqn:Ht; [|done].
      pose proof (Hp i t Hi Ht). lia.
    + intros x. unfold step. rewrite Hj. simpl.
      destruct (_end_call (cl s)) as [c' w]. eexists. split; [done|]. simpl.
      apply lookup_lt_Some in Hj. destruct w.
      * by rewrite list_lookup_fmap, list_lookup_insert_eq.
      * by rewrite list_lookup_insert_eq.
Qed.

Lemma close_waits_for_inflight_calls_witness :
  (forall i t, tasks state_close_waits !! i = Some t -> past_drain t = true ->
     _inflight (cl state_close_waits) = 0
     /\ forall j u, tasks state_close_waits !! j = Some u -> in_flight u = false)
  /\ (forall j ck, tasks state_close_waits !! j = Some (InFlight ck) ->
        0 < _inflight (cl state_close_waits)
        /\ is_Some (_session (cl state_close_waits))
        /\ (forall i t, tasks state_close_waits !! i = Some t ->
                        past_drain t = false)
        /\ forall x, exists s',
             step j x state_close_waits = Some s'
             /\ tasks s' !! j = Some (Finished (OpCall ck) (outcome_of x))).
Proof.
  apply (close_waits_for_inflight_calls three_tasks state_close_waits).
  - repeat constructor.
  - apply (run_reachable sched_close_waits _ (initial three_tasks));
      [apply reach_refl | reflexivity].
Defined.

(** The schedule of the example: the call is in flight and [close] waits. *)
Example close_waits_example :
  tasks state_close_waits
  = [InFlight CallTool; Closing (ClDrainWait false); Connecting AtEntry]
  /\ _inflight (cl state_close_waits) = 1
  /\ _closing (cl state_close_waits) = true.
Proof. repeat split; reflexivity. Qed.

(** A clean shutdown leaves the session first and the transport second. *)
Example clean_shutdown_example :
  match run sched_clean_shutdown (initial three_tasks) with
  | Some s =>
      tasks s !! 1%nat = Some (Finished OpClose Returned)
      /\ teardown_log (cl s) = [SessionExited 0; TransportExited 0]
      /\ _session (cl s) = None /\ _ctx (cl s) = None
  | None => False
  end.
Proof. vm_compute. repeat split; reflexivity. Qed.

(** C5, as stated, fails: [connect] called while the client is closing and
    the session is still there returns without an error. *)
Lemma connect_during_close_returns :
  _closing client_closing_connected = true
  /\ connect_step ExtOk AtEntry client_closing_connected
     = Some (client_closing_connected, inr Returned)
  /\ match run sched_connect_during_close (initial three_tasks) with
     | Some s => tasks s !! 2%nat = Some (Finished OpConnect Returned)
     | None => False
     end.
Proof. vm_compute. repeat split; reflexivity. Qed.

(** C5, amended.  [connect] on a client that holds a session returns at once
    and changes nothing, whether or not the client is closing.  In every
    interleaving on a new client at most one coroutine is inside the lock
    guarded part of [connect] and [ClientSession(...)] is built at most once.
    [connect] on a closing client without a session raises
    [RuntimeError("Client is closing; cannot connect.")] as soon as it holds
    the lock, and changes nothing. *)
Theorem connect_once (c : client) (x : ext) (ts : list task) (s : system) :
  (is_Some (_session c) -> connect_step x AtEntry c = Some (c, inr Returned))
  /\ (all_fresh ts -> reachable (initial ts) s ->
      (count in_critical (tasks s) <= 1)%nat /\ (sessions (cl s) <= 1)%nat)
  /\ (_session c = None -> _closing c = true -> _connect_lock c = false ->
      connect_step x AtEntry c
      = Some (c, inr (Raised (RuntimeError closing_cannot_connect)))
      /\ connect_step x AtLockWait c
         = Some (c, inr (Raised (RuntimeError closing_cannot_connect)))).
Proof.
  split; [|split].
  - intros [n Hn]. unfold connect_step. by rewrite Hn.
  - intros Hts Hr. destruct (reachable_inv ts s Hts Hr) as [_ [Hcr _ _ _ Hon]].
    split; [|done]. rewrite Hcr. destruct (_connect_lock (cl s)); lia.
  - intros Hs Hcl Hl. destruct c; simpl in *; subst.
    unfold connect_step, connect_locked; simpl. done.
Qed.

Lemma connect_once_witness :
  (connect_step ExtOk AtEntry client_closing_connected
   = Some (client_closing_connected, inr Returned))
  /\ ((count in_critical (tasks state_close_waits) <= 1)%nat
      /\ (sessions (cl state_close_waits) <= 1)%nat)
  /\ (connect_step ExtOk AtEntry client_closed
      = Some (client_closed, inr (Raised (RuntimeError closing_cannot_connect)))
      /\ connect_step ExtOk AtLockWait client_closed
         = Some (client_closed,
                 inr (Raised (RuntimeError closing_cannot_connect)))).
Proof.
  split; [|split].
  - apply (connect_once client_closing_connected ExtOk three_tasks
             state_close_waits). by exists 0%nat.
  - apply (connect_once client_closing_connected ExtOk three_tasks
             state_close_waits).
    + repeat constructor.
    + apply (run_reachable sched_close_waits _ (initial three_tasks));
        [apply reach_refl | reflexivity].
  - apply (connect_once client_closed ExtOk three_tasks state_close_waits);
      reflexivity.
Defined.

(** C6 at the failing input: a connected client without calls in flight,
    whose [self._session.__aexit__] raises.  [close] raises, the session
    handle is released, and the transport is neither left nor released. *)
Theorem close_keeps_transport_when_session_exit_raises :
  match run sched_session_exit_raises (initial three_tasks) with
  | Some s =>
      tasks s !! 1%nat = Some (Finished OpClose (Raised (RemoteError 7)))
      /\ _session (cl s) = None
      /\ _ctx (cl s) = Some 0%nat
      /\ _read (cl s) = Some 0%nat
      /\ teardown_log (cl s) = [SessionExited 0]
  | None => False
  end.
Proof. vm_compute. repeat split; reflexivity. Qed.

(** C7, as stated, fails: on a new client a connect is parked in
    [await self._ctx.__aenter__()], holding the connect lock, when [close]
    starts; a [call_tool] made then is not rejected: it waits for the
    connect lock in [await self.connect()] and cannot run, also after
    [close] has returned, for as long as the connect holds the lock. *)
Lemma call_blocks_on_connect_lock :
  reachable (initial blocked_call_tasks) state_closing_during_connect
  /\ _closing (cl state_closing_during_connect) = true
  /\ tasks state_closing_during_connect !! 2%nat
     = Some (Calling CallTool AtEntry)
  /\ step 2 ExtOk state_closing_during_connect = Some state_call_blocked
  /\ tasks state_call_blocked !! 2%nat = Some (Calling CallTool AtLockWait)
  /\ (forall x, step 2 x state_call_blocked = None)
  /\ step 1 ExtOk state_call_blocked = Some state_call_blocked_closed
  /\ tasks state_call_blocked_closed
     = [Connecting AtCtxEnter; Finished OpClose Returned;
        Calling CallTool AtLockWait]
  /\ (forall x, step 2 x state_call_blocked_closed = None).
Proof.
  split.
  { apply (run_reachable [(0, ExtOk); (1, ExtOk)]%nat _
             (initial blocked_call_tasks)); [apply reach_refl | reflexivity]. }
  repeat split; try reflexivity; intros []; reflexivity.
Qed.

(** C7, amended.  A [call_tool] or [list_tools] that starts on a client marked
    closing: its first transition rejects it with one of the two
    "Client is closing" errors, unless the client has no session and another
    coroutine holds the connect lock, in which case it waits for that lock;
    in every interleaving that follows it is not started, is waiting for
    that lock, or has been rejected with one of these errors, so it never
    comes to be in flight and never returns normally; and while it waits, its
    next transition is enabled as soon as the lock is free and rejects it.
    The two errors are the [RuntimeError]s of [connect] and [_begin_call]:
    the class has no exception type of its own for a closed client. *)
Theorem call_after_shutdown_is_rejected (s0 s : system) (i : nat)
    (ck : call_kind) :
  _closing (cl s0) = true -> tasks s0 !! i = Some (Calling ck AtEntry) ->
  reachable s0 s ->
  (forall x, exists s1,
     step i x s0 = Some s1
     /\ (tasks s1 !! i = Some (Calling ck AtLockWait)
         /\ _session (cl s0) = None /\ _connect_lock (cl s0) = true
         \/ exists r, tasks s1 !! i = Some (Finished (OpCall ck) r)
                      /\ is_closing_error r))
  /\ (tasks s !! i = Some (Calling ck AtEntry)
      \/ tasks s !! i = Some (Calling ck AtLockWait)
      \/ exists r, tasks s !! i = Some (Finished (OpCall ck) r)
                   /\ is_closing_error r)
  /\ (tasks s !! i = Some (Calling ck AtLockWait) ->
      _connect_lock (cl s) = false ->
      forall x, exists s1 r,
        step i x s = Some s1
        /\ tasks s1 !! i = Some (Finished (OpCall ck) r)
        /\ is_closing_error r).
Proof.
  intros Hcl Hi Hr.
  assert (_closing (cl s) = true
          /\ (tasks s !! i = Some (Calling ck AtEntry)
              \/ tasks s !! i = Some (Calling ck AtLockWait)
              \/ exists r, tasks s !! i = Some (Finished (OpCall ck) r)
                           /\ is_closing_error r)) as [Hcls Hpc].
  { induction Hr as [|s j x s' _ [IHcl IH] Hstep]; [by eauto|].
    split; [by eapply step_closing|].
    destruct (decide (i = j)) as [<-|Hne].
    + destruct IH as [Ht|[Ht|(r & Ht & Hr')]].
      * destruct (step_self _ _ _ _ _ Hstep Ht) as (c' & t' & w & Hts & Hs').
        destruct (rejected_step _ _ _ _ _ _ _ IHcl (or_introl eq_refl) Hts)
          as [-> [(-> & _)|(r & -> & Hr')]]; eauto.
      * destruct (step_self _ _ _ _ _ Hstep Ht) as (c' & t' & w & Hts & Hs').
        destruct (rejected_step _ _ _ _ _ _ _ IHcl (or_intror eq_refl) Hts)
          as [-> [(_ & ? & _)|(r & -> & Hr')]]; [done|eauto].
      * destruct (step_self _ _ _ _ _ Hstep Ht) as (c' & t' & w & Hts & _).
        done.
    + destruct IH as [Ht|[Ht|(r & Ht & Hr')]].
      * destruct (step_other _ _ _ _ _ _ Hstep Hne Ht) as [H|H]; eauto.
      * destruct (step_other _ _ _ _ _ _ Hstep Hne Ht) as [H|H]; eauto.
      * destruct (step_other _ _ _ _ _ _ Hstep Hne Ht) as [H|H]; eauto. }
  split; [|split; [exact Hpc|]].
  - intros x.
    destruct (task_step x (Calling ck AtEntry) (cl s0)) as [[[c' t'] w]|] eqn:Hts.
    + destruct (rejected_step _ _ _ _ _ _ _ Hcl (or_introl eq_refl) Hts)
        as [-> Ht'].
      exists {| cl := c'; tasks := <[i := t']> (tasks s0) |}.
      split; [unfold step; by rewrite Hi, Hts|]. simpl.
      apply lookup_lt_Some in Hi. rewrite list_lookup_insert_eq by done.
      destruct Ht' as [(-> & _ & ? & ?)|(r & -> & Hr')]; eauto.
    + exfalso. unfold task_step, connect_step in Hts.
      repeat case_match; simplify_eq.
  - intros Hw Hfree x.
    destruct (task_step x (Calling ck AtLockWait) (cl s)) as [[[c' t'] w]|]
      eqn:Hts.
    + destruct (rejected_step _ _ _ _ _ _ _ Hcls (or_intror eq_refl) Hts)
        as [-> [(_ & ? & _)|(r & -> & Hr')]]; [done|].
      exists {| cl := c'; tasks := <[i := Finished (OpCall ck) r]> (tasks s) |}, r.
      split; [unfold step; by rewrite Hw, Hts|]. simpl.
      apply lookup_lt_Some in Hw. by rewrite list_lookup_insert_eq.
    + exfalso. unfold task_step, connect_step in Hts. rewrite Hfree in Hts.
      repeat case_match; simplify_eq.
Qed.

Lemma call_after_shutdown_is_rejected_witness :
  (forall x, exists s1,
     step 2 x state_late_call = Some s1
     /\ (tasks s1 !! 2%nat = Some (Calling ListTools AtLockWait)
         /\ _session (cl state_late_call) = None
         /\ _connect_lock (cl state_late_call) = true
         \/ exists r, tasks s1 !! 2%nat = Some (Finished (OpCall ListTools) r)
                      /\ is_closing_error r))
  /\ (tasks state_late_call_rejected !! 2%nat = Some (Calling ListTools AtEntry)
      \/ tasks state_late_call_rejected !! 2%nat
         = Some (Calling ListTools AtLockWait)
      \/ exists r, tasks state_late_call_rejected !! 2%nat
                   = Some (Finished (OpCall ListTools) r)
                   /\ is_closing_error r)
  /\ (tasks state_late_call_rejected !! 2%nat
      = Some (Calling ListTools AtLockWait) ->
      _connect_lock (cl state_late_call_rejected) = false ->
      forall x, exists s1 r,
        step 2 x state_late_call_rejected = Some s1
        /\ tasks s1 !! 2%nat = Some (Finished (OpCall ListTools) r)
        /\ is_closing_error r).
Proof.
  apply (call_after_shutdown_is_rejected state_late_call
           state_late_call_rejected 2 ListTools).
  - reflexivity.
  - reflexivity.
  - apply (run_reachable [(2%nat, ExtOk)] _ state_late_call);
      [apply reach_refl | reflexivity].
Defined.

Example late_call_example :
  tasks state_late_call_rejected !! 2%nat
  = Some (Finished (OpCall ListTools) (Raised (RuntimeError closing_refusing)))
  /\ _inflight (cl state_late_call_rejected) = 1.
Proof. split; reflexivity. Qed.

End McpClientFacts.
(** * Properties of the workflow *)

Module WorkflowFacts.
Import Workflow.

(** ** The reducers *)

Lemma overwrite_swap {A} (old : A) (x y : option A) :
  not_both x y -> overwrite (overwrite old x) y = overwrite (overwrite old y) x.
Proof. intros [-> | ->]; [destruct y | destruct x]; done. Qed.

Lemma add_lists_both {A} (old : list A) (x y : option (list A)) :
  reduce add_lists (reduce add_lists old x) y
  ≡ₚ old ++ default [] x ++ default [] y.
Proof.
  destruct x as [x|], y as [y|]; unfold add_lists; simpl;
    rewrite ?app_nil_r, <- ?app_assoc; done.
Qed.

Lemma merge_dicts_lookup {V} (left right : gmap string V) (k : string) :
  merge_dicts left right !! k
  = match right !! k with Some v => Some v | None => left !! k end.
Proof.
  unfold merge_dicts. rewrite lookup_union.
  destruct (right !! k), (left !! k); done.
Qed.

Lemma merge_dicts_both_dom (old : gmap string Q) (x y : option (gmap string Q)) :
  dom (reduce merge_dicts (reduce merge_dicts old x) y)
  = dom old ∪ dom (default ∅ x) ∪ dom (default ∅ y).
Proof.
  destruct x as [x|], y as [y|]; unfold merge_dicts; simpl;
    rewrite ?dom_union_L, ?dom_empty_L; set_solver.
Qed.

Lemma merge_dicts_swap (old : gmap string Q) (x y : option (gmap string Q)) :
  agree (default ∅ x) (default ∅ y) ->
  reduce merge_dicts (reduce merge_dicts old x) y
  = reduce merge_dicts (reduce merge_dicts old y) x.
Proof.
  intros Hag. destruct x as [x|], y as [y|]; simpl in *; try done.
  apply map_eq. intros k. rewrite !merge_dicts_lookup.
  destruct (x !! k) as [vx|] eqn:Hx, (y !! k) as [vy|] eqn:Hy; try done.
  by rewrite (Hag k vx vy Hx Hy).
Qed.

(** C9, as stated, fails: two sibling updates that write no step-output field
    at all leave different states in the two orders, and of two timing
    entries for one node only the one merged last is kept. *)
Lemma merge_order_changes_state :
  disjoint_outputs (mark_agent_complete state_0 "intel")
                   (mark_agent_complete state_0 "detection")
  /\ apply_update (apply_update state_0 (mark_agent_complete state_0 "intel"))
                  (mark_agent_complete state_0 "detection")
     <> apply_update
          (apply_update state_0 (mark_agent_complete state_0 "detection"))
          (mark_agent_complete state_0 "intel")
  /\ timings (apply_update (apply_update state_0 (add_timing state_0 "intel" 1))
                           (add_timing state_0 "intel" 2)) !! "intel"
     = Some 2%Q.
Proof.
  split; [|split].
  - unfold disjoint_outputs, not_both. simpl. tauto.
  - intros H. apply (f_equal completed_agents) in H. discriminate H.
  - reflexivity.
Qed.

(** C9, amended.  Whatever the order in which two updates are merged: the
    lists [completed_agents] and [errors] hold every entry of the state and
    of both updates, so the two orders differ by a permutation only; the
    [timings] dicts have the same keys, those of the state and of both
    updates, and are equal when the two updates agree on the keys they
    share; and when the updates write disjoint step-output fields, the
    step-output fields are equal. *)
Theorem merge_order_loses_nothing (s : InvestigationState) (u1 u2 : update) :
  let s12 := apply_update (apply_update s u1) u2 in
  let s21 := apply_update (apply_update s u2) u1 in
  (completed_agents s12
     ≡ₚ completed_agents s ++ default [] (u_completed_agents u1)
                           ++ default [] (u_completed_agents u2)
   /\ completed_agents s12 ≡ₚ completed_agents s21)
  /\ (errors s12 ≡ₚ errors s ++ default [] (u_errors u1)
                            ++ default [] (u_errors u2)
      /\ errors s12 ≡ₚ errors s21)
  /\ (dom (timings s12)
        = dom (timings s) ∪ dom (default ∅ (u_timings u1))
                          ∪ dom (default ∅ (u_timings u2))
      /\ dom (timings s12) = dom (timings s21))
  /\ (agree (default ∅ (u_timings u1)) (default ∅ (u_timings u2)) ->
      timings s12 = timings s21)
  /\ (disjoint_outputs u1 u2 -> outputs s12 = outputs s21).
Proof.
  simpl. repeat split.
  - apply add_lists_both.
  - rewrite !add_lists_both. apply Permutation_app_head, Permutation_app_comm.
  - apply add_lists_both.
  - rewrite !add_lists_both. apply Permutation_app_head, Permutation_app_comm.
  - apply merge_dicts_both_dom.
  - rewrite !merge_dicts_both_dom. set_solver.
  - apply merge_dicts_swap.
  - intros (H1 & H2 & H3 & H4 & H5 & H6 & H7 & H8 & H9 & H10 & H11 & H12).
    unfold outputs. simpl.
    rewrite (overwrite_swap _ _ _ H1), (overwrite_swap _ _ _ H2),
      (overwrite_swap _ _ _ H3), (overwrite_swap _ _ _ H4),
      (overwrite_swap _ _ _ H5), (overwrite_swap _ _ _ H6),
      (overwrite_swap _ _ _ H7), (overwrite_swap _ _ _ H8),
      (overwrite_swap _ _ _ H9), (overwrite_swap _ _ _ H10),
      (overwrite_swap _ _ _ H11), (overwrite_swap _ _ _ H12).
    done.
Qed.


Lemma merge_order_loses_nothing_witness :
  timings (apply_update (apply_update state_0 (add_timing state_0 "intel" 1))
                        (add_timing state_0 "detection" 2))
  = timings (apply_update (apply_update state_0 (add_timing state_0 "detection" 2))
                          (add_timing state_0 "intel" 1))
  /\ outputs (apply_update (apply_update state_0 (add_timing state_0 "intel" 1))
                           (add_timing state_0 "detection" 2))
     = outputs (apply_update
                  (apply_update state_0 (add_timing state_0 "detection" 2))
                  (add_timing state_0 "intel" 1)).
Proof.
  pose proof (merge_order_loses_nothing state_0
                (add_timing state_0 "intel" 1)
                (add_timing state_0 "detection" 2)) as (_ & _ & _ & Ht & Ho).
  split.
  - apply Ht. intros k v1 v2 H1 H2. simpl in H1, H2.
    apply lookup_insert_Some in H1 as [[<- _]|[_ H1]]; [|done].
    apply lookup_insert_Some in H2 as [[? _]|[_ H2]]; done.
  - apply Ho. unfold disjoint_outputs, not_both. simpl. tauto.
Defined.

(** ** The retry decorator and the nodes *)

Lemma retry_loop_all_raise {A} (name : string) (max_attempts : Z) (backoff : Q)
    (func : Z -> result A) (n : nat) :
  forall (start : Z) (last : option exn) (slept : list Q),
    start + Z.of_nat n = max_attempts ->
    (forall k, start <= k <= max_attempts -> exists e, func k = Raise e) ->
    exists e,
      func max_attempts = Raise e
      /\ retry_loop name max_attempts backoff func
           (seqZ start (Z.of_nat (S n))) last slept
         = (Raise e, slept ++ (wait_time backoff <$> seqZ start (Z.of_nat n))).
Proof.
  induction n as [|n IH]; intros start last slept Hmax Hall;
    rewrite (seqZ_cons start (Z.of_nat (S _))) by lia;
    destruct (Hall start ltac:(lia)) as [e0 He0];
    simpl retry_loop; rewrite He0.
  - assert (start = max_attempts) as -> by lia.
    exists e0. split; [done|]. rewrite Z.ltb_irrefl. simpl.
    by rewrite app_nil_r.
  - destruct (IH (Z.succ start) (Some e0) (slept ++ [wait_time backoff start])
                 ltac:(lia) ltac:(intros; apply Hall; lia)) as (e & He & Hloop).
    exists e. split; [done|].
    replace (start <? max_attempts) with true by (symmetry; apply Z.ltb_lt; lia).
    replace (Z.pred (Z.of_nat (S (S n)))) with (Z.of_nat (S n)) by lia.
    rewrite Hloop.
    rewrite (seqZ_cons start (Z.of_nat (S n))) by lia.
    replace (Z.pred (Z.of_nat (S n))) with (Z.of_nat n) by lia.
    by rewrite fmap_cons, <- app_assoc.
Qed.

Lemma retry_first_returns {A} (name : string) (max_attempts : Z) (backoff : Q)
    (func : Z -> result A) (v : A) :
  0 < max_attempts -> func 1 = Ok v ->
  retry_async name max_attempts backoff func = (Ok v, []).
Proof.
  intros Hmax Hf. unfold retry_async. rewrite seqZ_cons by lia.
  simpl. by rewrite Hf.
Qed.

Lemma collect_none_confirmed (results : list (result (string * option dict))) :
  Forall (fun r => found_technique r = None) results ->
  forall confirmed not_found errors,
    (map_techniques_collect results confirmed not_found errors).1.1 = confirmed.
Proof.
  induction 1 as [|r results Hr _ IH]; intros confirmed not_found errors;
    simpl; [done|].
  destruct r as [[tid [t|]]|e]; simpl in *; try done; apply IH.
Qed.

Lemma Forall_imap {A B} (P : B -> Prop) (l : list A) :
  forall f : nat -> A -> B, (forall i x, P (f i x)) -> Forall P (imap f l).
Proof.
  induction l as [|a l IH]; intros f Hf; simpl; constructor; [apply Hf|].
  apply IH. intros i x. apply Hf.
Qed.

(** C2, as stated, fails: wrapped around a coroutine that raises in every
    attempt, the decorator with two attempts raises the last exception; it
    returns no update. *)
Lemma retry_exhausted_raises :
  retry_async (A := update) "mapping_node" 2 2 (fun _ => Raise boom)
  = (Raise boom, [2%Q])
  /\ forall u : update,
       (retry_async "mapping_node" 2 2 (fun _ => Raise boom)).1 <> Ok u.
Proof. split; [|intros u]; vm_compute; congruence. Qed.

(** C2, amended.  When every attempt raises and the waits are in the range
    of the floats (at most 1025 attempts, every wait finite), the decorator
    makes [max_attempts] attempts, sleeping [backoff * 2 ** (attempt - 1)]
    after each but the last, and then raises the exception of the last
    attempt.  The turning of a failure into an Error Record is done by the
    body of the node: when no technique is confirmed, [mapping_node] returns
    in its first attempt, without sleeping, an update that consists of one
    Error Record naming "mapping" and of nothing else. *)
Theorem retry_reraises_and_node_records {A} (name : string) (max_attempts : Z)
    (backoff : Q) (func : Z -> result A) (now : string) (start_time end_time : Q)
    (_fetch_technique_details :
       nat -> string -> string -> bool -> result (option dict))
    (state : InvestigationState) :
  (0 < max_attempts ->
   waits_in_range backoff (max_attempts - 1) ->
   (forall k, 1 <= k <= max_attempts -> exists e, func k = Raise e) ->
   exists e,
     func max_attempts = Raise e
     /\ retry_async name max_attempts backoff func
        = (Raise e, wait_time backoff <$> seqZ 1 (max_attempts - 1)))
  /\ (technique_ids state <> [] -> is_Some (mcp_client state) ->
      (forall i tid d b t, _fetch_technique_details i tid d b <> Ok (Some t)) ->
      mapping_node now start_time end_time _fetch_technique_details state
      = (Ok (mk_update None None None None None None None None None None None
               None None
               (Some [mk_error "mapping"
                        "No techniques confirmed by mapping agent" now])
               None),
         [])).
Proof.
  split.
  - intros Hmax _ Hall.
    destruct (retry_loop_all_raise name max_attempts backoff func
                (Z.to_nat (max_attempts - 1)) 1 None []
                ltac:(lia) Hall) as (e & He & Hloop).
    exists e. split; [done|]. unfold retry_async.
    replace (Z.of_nat (S (Z.to_nat (max_attempts - 1)))) with max_attempts
      in Hloop by lia.
    replace (Z.of_nat (Z.to_nat (max_attempts - 1))) with (max_attempts - 1)
      in Hloop by lia.
    exact Hloop.
  - intros Hids [client Hclient] Hnone.
    unfold mapping_node. apply retry_first_returns; [done|]. f_equal.
    unfold mapping_node_body. rewrite Hclient.
    destruct (technique_ids state) as [|tid ids] eqn:Htids; [done|].
    unfold map_techniques, map_techniques_finish.
    change (Semaphore default_concurrency) with (Ok (A := Z) 10).
    change (10 =? 0) with false. cbv iota beta.
    match goal with
    | |- context [map_techniques_collect ?rs [] [] []] =>
        pose proof (collect_none_confirmed rs) as Hc;
        destruct (map_techniques_collect rs [] [] []) as [[c nf] er] eqn:E
    end.
    assert (c = []) as ->.
    { rewrite <- (Hc ltac:(apply Forall_imap; intros i x;
                           unfold _fetch_with_limit;
                           destruct (_fetch_technique_details i x _ _)
                             as [[t|]|e] eqn:Hf;
                           [exfalso; eapply Hnone; eauto | done | done])
                     [] [] []).
      by rewrite E. }
    reflexivity.
Qed.

Lemma retry_reraises_and_node_records_witness :
  (exists e,
     Raise (A := update) boom = Raise e
     /\ retry_async (A := update) "mapping_node" 2 2 (fun _ => Raise boom)
        = (Raise e, wait_time 2 <$> seqZ 1 (2 - 1)))
  /\ mapping_node "2026-01-01T00:00:00" 0 1 lookup_raises state_triaged
     = (Ok (mk_update None None None None None None None None None None None
              None None
              (Some [mk_error "mapping"
                       "No techniques confirmed by mapping agent"
                       "2026-01-01T00:00:00"])
              None),
        []).
Proof.
  pose proof (retry_reraises_and_node_records (A := update) "mapping_node" 2 2
                (fun _ => Raise boom) "2026-01-01T00:00:00" 0 1 lookup_raises
                state_triaged) as [H1 H2].
  split.
  - apply H1; [lia | repeat split; by vm_compute |].
    intros k _. by exists boom.
  - apply H2; [done | by exists 0%nat | done].
Defined.

(** C8 at the failing input: a state that holds confirmed techniques and no
    client.  [intel_node], [detection_node] and [visualization_node] return
    one Error Record and no step output, but the record names "mapping", not
    the node; [mitigation_node], on the same state, names itself. *)
Theorem missing_client_is_blamed_on_mapping (now : string)
    (start_time end_time : Q)
    (call_tool : nat -> string -> dict -> result value)
    (recommend_detection_telemetry : list dict -> string -> Z -> result dict)
    (_fetch_mitigations_for_technique :
       nat -> dict -> string -> bool -> result (option mitigation_entry))
    (build_navigator_layer_from_techniques :
       list dict -> string -> string -> string -> result dict)
    (save_layer_json : dict -> string -> result string) :
  intel_node now start_time end_time call_tool state_without_client
  = (Ok (mk_update None None None None None None None None None None None None
           None (Some [mk_error "mapping" "No MCP client in state" now]) None),
     [])
  /\ detection_node now start_time end_time recommend_detection_telemetry
       state_without_client
     = (Ok (mk_update None None None None None None None None None None None
              None None
              (Some [mk_error "mapping" "No MCP client in state" now]) None),
        [])
  /\ visualization_node now start_time end_time
       build_navigator_layer_from_techniques save_layer_json
       state_without_client
     = (Ok (mk_update None None None None None None None None None None None
              None None
              (Some [mk_error "mapping" "No MCP client in state" now]) None),
        [])
  /\ mitigation_node now start_time end_time _fetch_mitigations_for_technique
       state_without_client
     = (Ok (mk_update None None None None None None None None None None None
              None None
              (Some [mk_error "mitigation" "No MCP client in state" now]) None),
        []).
Proof. repeat split; reflexivity. Qed.

(** A node whose confirmed techniques are missing names itself. *)
Lemma missing_techniques_name_the_node (now : string) (start_time end_time : Q)
    (call_tool : nat -> string -> dict -> result value)
    (recommend_detection_telemetry : list dict -> string -> Z -> result dict)
    (state : InvestigationState) :
  confirmed_techniques state = [] ->
  intel_node_body now start_time end_time call_tool state
  = add_error now state "intel" "No confirmed techniques"
  /\ detection_node_body now start_time end_time recommend_detection_telemetry
       state
     = add_error now state "detection" "No confirmed techniques".
Proof.
  intros H. unfold intel_node_body, detection_node_body. by rewrite H.
Qed.

(** C10.  On a state that holds confirmed techniques and a detections dict,
    when the reasoning call raises, [detection_reasoning_node] returns in its
    first attempt the update that sets [detection_reasoning] to
    [{"detection_reasoning": []}] and adds "detection_reasoning" to
    [completed_agents]: it holds no Error Record, no timing and nothing
    else. *)
Theorem reasoning_failure_is_completed (now : string) (start_time end_time : Q)
    (reason_detection_with_llm_fallback :
       list dict -> dict -> string -> string -> Z -> result dict)
    (state : InvestigationState) (e : exn) :
  confirmed_techniques state <> [] ->
  detections state <> ∅ ->
  reason_detection_with_llm_fallback (confirmed_techniques state)
    (detections state) (incident_text state)
    (default "gpt-4o-mini" (llm_model state)) 3 = Raise e ->
  detection_reasoning_node now start_time end_time
    reason_detection_with_llm_fallback state
  = (Ok (mk_update None None None None None None
           (Some {[ "detection_reasoning" := VList [] ]})
           None None None None None
           (Some ["detection_reasoning"]) None None),
     []).
Proof.
  intros Hc Hd He. unfold detection_reasoning_node.
  apply retry_first_returns; [done|]. f_equal.
  unfold detection_reasoning_node_body. rewrite He.
  destruct (confirmed_techniques state) as [|t ts]; [done|].
  unfold dict_truthy, truthy.
  destruct (size (detections state)) eqn:Hs.
  - apply map_size_empty_iff in Hs. done.
  - reflexivity.
Qed.

Lemma reasoning_failure_is_completed_witness :
  detection_reasoning_node "2026-01-01T00:00:00" 0 1 reasoning_raises
    state_detected
  = (Ok (mk_update None None None None None None
           (Some {[ "detection_reasoning" := VList [] ]})
           None None None None None
           (Some ["detection_reasoning"]) None None),
     []).
Proof.
  apply (reasoning_failure_is_completed "2026-01-01T00:00:00" 0 1
           reasoning_raises state_detected boom).
  - discriminate.
  - intros H. apply (f_equal (lookup "domain")) in H. vm_compute in H.
    discriminate H.
  - reflexivity.
Defined.

(** ** The per-technique fan-out *)

Lemma running_insert {R} (l : list (slot R)) (i : nat) (a b : slot R) :
  l !! i = Some a ->
  (length (List.filter is_running (<[i := b]> l)) + Nat.b2n (is_running a)
   = length (List.filter is_running l) + Nat.b2n (is_running b))%nat.
Proof.
  revert i. induction l as [|c l IH]; intros [|i] H; simpl in *;
    try discriminate.
  - injection H as ->. destruct (is_running a), (is_running b); simpl; lia.
  - specialize (IH i H). destruct (is_running c); simpl; lia.
Qed.

Lemma running_start {R} (n : nat) :
  length (List.filter is_running (replicate n (Pending (R := R)))) = 0%nat.
Proof. induction n as [|n IH]; simpl; [done | exact IH]. Qed.

Lemma gather_bound {R} (capacity : Z) (n : nat) (p : pool R) :
  0 <= capacity -> gather_reachable (gather_start capacity n) p ->
  sem_value p + Z.of_nat (running p) = capacity
  /\ 0 <= sem_value p
  /\ length (slots p) = n.
Proof.
  intros Hcap Hr. induction Hr as [|p i r p' _ (IH1 & IH2 & IH3) Hstep].
  - unfold running. simpl. rewrite running_start, length_replicate. lia.
  - unfold gather_step in Hstep.
    destruct (slots p !! i) as [[| |r0]|] eqn:Hi; try discriminate.
    + destruct (0 <? sem_value p) eqn:Hv; [|discriminate].
      injection Hstep as <-. apply Z.ltb_lt in Hv.
      pose proof (running_insert (slots p) i _ Running Hi) as Hc.
      unfold running in *. simpl in *. rewrite length_insert. lia.
    + injection Hstep as <-.
      pose proof (running_insert (slots p) i _ (Done r) Hi) as Hc.
      unfold running in *. simpl in *. rewrite length_insert. lia.
Qed.

Lemma gather_step_others {R} (i j : nat) (r : result R) (p p' : pool R) :
  gather_step i r p = Some p' -> j <> i -> slots p' !! j = slots p !! j.
Proof.
  intros Hstep Hne. unfold gather_step in Hstep.
  destruct (slots p !! i) as [[| |r0]|] eqn:Hi; try discriminate.
  - destruct (0 <? sem_value p); [|discriminate]. injection Hstep as <-.
    simpl. by rewrite list_lookup_insert_ne.
  - injection Hstep as <-. simpl. by rewrite list_lookup_insert_ne.
Qed.

Lemma gather_step_running {R} (i : nat) (r : result R) (p : pool R) :
  slots p !! i = Some Running ->
  exists p', gather_step i r p = Some p' /\ slots p' !! i = Some (Done r).
Proof.
  intros Hi. unfold gather_step. rewrite Hi. eexists. split; [done|]. simpl.
  apply lookup_lt_Some in Hi. by rewrite list_lookup_insert_eq.
Qed.

(** [gather] returns one entry per task, in the order of the tasks. *)
Lemma gathered_one_per_task {R} (capacity : Z) (n : nat) (p : pool R)
    (results : list (result R)) :
  0 <= capacity -> gather_reachable (gather_start capacity n) p ->
  gathered p = Some results ->
  length results = n
  /\ forall i r, results !! i = Some r <-> slots p !! i = Some (Done r).
Proof.
  intros Hcap Hr Hg. destruct (gather_bound capacity n p Hcap Hr) as (_ & _ & Hn).
  unfold gathered in Hg. split.
  - apply length_mapM in Hg. congruence.
  - apply mapM_Some in Hg. intros i r. split; intros H.
    + destruct (Forall2_lookup_r _ _ _ i r Hg H) as (sl & Hsl & Hres).
      destruct sl; simpl in Hres; simplify_eq. done.
    + destruct (Forall2_lookup_l _ _ _ i _ Hg H) as (r' & Hr' & Hres).
      simpl in Hres. by simplify_eq.
Qed.

Lemma map_techniques_collect_spec
    (results : list (result (string * option dict))) :
  forall confirmed not_found errors,
    map_techniques_collect results confirmed not_found errors
    = (confirmed ++ omap found_technique results,
       not_found ++ omap missing_technique results,
       errors ++ omap raised_text results).
Proof.
  induction results as [|r results IH]; intros confirmed not_found errors;
    simpl.
  - by rewrite !app_nil_r.
  - destruct r as [[tid [t|]]|e]; rewrite IH; simpl;
      by rewrite <- ?app_assoc.
Qed.

Lemma mitigations_collect_spec
    (results : list (result (option mitigation_entry))) :
  forall out errors,
    mitigations_collect results out errors
    = (out ++ omap found_entry results, errors ++ omap raised_text results).
Proof.
  induction results as [|r results IH]; intros out errors; simpl.
  - by rewrite !app_nil_r.
  - destruct r as [[t|]|e]; rewrite IH; simpl; by rewrite <- ?app_assoc.
Qed.

(** C3, as stated, fails for the intel agent: with two confirmed techniques
    and a remote tool whose first call raises, the agent raises after one
    call, the second technique is never looked up, and [intel_node] returns
    an Error Record and no [intel] output at all. *)
Lemma intel_lookup_failure_aborts :
  enrich_with_groups_and_software first_call_raises
    [technique_1; technique_2] "enterprise" 5
  = (Raise boom, 1%nat)
  /\ intel_node "2026-01-01T00:00:00" 0 1 first_call_raises state_detected
     = (Ok (mk_update None None None None None None None None None None None
              None None
              (Some [mk_error "intel" "server went away" "2026-01-01T00:00:00"])
              None),
        []).
Proof. split; reflexivity. Qed.

(** C3, amended.  In the mapping and the mitigation agents the lookups in
    progress never exceed the value of the semaphore, [concurrency]
    (default 10) for mapping and [max(1, concurrency)] for mitigation; a
    transition of one task, whatever the outcome of its lookup, leaves the
    other tasks as they are, and an admitted task can always finish; and
    every lookup ends in exactly one place: the text of its exception in
    the [errors] list of the agent's output, or its result among the
    confirmed techniques, the identifiers not found or the mitigations;
    a lookup that returned [None] for a technique without STIX id is
    skipped.  The intel agent looks the techniques up one after the other:
    an exception of a lookup ends the loop and is raised by the agent,
    whatever techniques remain. *)
Theorem fan_out_bounded_and_isolated :
  (default_concurrency = 10
   /\ (forall concurrency, 1 <= mitigation_capacity concurrency)
   /\ (forall technique_ids concurrency p,
         0 <= concurrency ->
         gather_reachable (map_techniques_pool technique_ids concurrency) p ->
         Z.of_nat (running p) <= concurrency
         /\ length (slots p) = length technique_ids)
   /\ (forall confirmed_techniques concurrency p,
         gather_reachable (mitigations_pool confirmed_techniques concurrency) p ->
         Z.of_nat (running p) <= Z.max 1 concurrency
         /\ length (slots p) = length confirmed_techniques)
   /\ (forall R i j r (p p' : pool R),
         gather_step i r p = Some p' -> j <> i ->
         slots p' !! j = slots p !! j)
   /\ (forall R i r (p : pool R),
         slots p !! i = Some Running ->
         exists p', gather_step i r p = Some p'
                    /\ slots p' !! i = Some (Done r)))
  /\ (forall fetch technique_ids domain include_description concurrency,
        0 < concurrency ->
        exists out,
          map_techniques fetch technique_ids domain include_description
            concurrency = Some (Ok out)
          /\ m_confirmed_techniques out
             = omap found_technique
                 (imap (_fetch_with_limit fetch domain include_description)
                       technique_ids)
          /\ m_not_found out
             = omap missing_technique
                 (imap (_fetch_with_limit fetch domain include_description)
                       technique_ids)
          /\ default [] (m_errors out)
             = omap raised_text
                 (imap (_fetch_with_limit fetch domain include_description)
                       technique_ids))
  /\ (forall fetch confirmed_techniques domain include_description concurrency,
        mo_mitigations
          (enrich_with_mitigations fetch confirmed_techniques domain
             include_description concurrency)
        = omap found_entry
            (imap (fun i t => fetch i t domain include_description)
                  confirmed_techniques)
        /\ mo_errors
             (enrich_with_mitigations fetch confirmed_techniques domain
                include_description concurrency)
           = omap raised_text
               (imap (fun i t => fetch i t domain include_description)
                     confirmed_techniques))
  /\ (forall call_tool n t rest domain max_items enriched e,
        truthy (get t "stix_id" VNone) = true ->
        call_tool n "get_groups_using_technique"
          ({[ "technique_stix_id" := get t "stix_id" VNone;
              "domain" := VStr domain ]} : dict) = Raise e ->
        enrich_loop call_tool n (t :: rest) domain max_items enriched
        = (Raise e, S n)).
Proof.
  split; [|split; [|split]].
  - split; [done|]. split; [unfold mitigation_capacity; lia|]. split.
    + intros ids c p Hc Hr.
      destruct (gather_bound c (length ids) p Hc Hr) as (H1 & H2 & H3).
      split; [lia | done].
    + split; [|split].
      * intros ts c p Hr. unfold mitigations_pool, mitigation_capacity in Hr.
        destruct (gather_bound (Z.max 1 c) (length ts) p ltac:(lia) Hr)
          as (H1 & H2 & H3).
        split; [lia | done].
      * intros R i j r p p'. apply gather_step_others.
      * intros R i r p. apply gather_step_running.
  - intros fetch ids domain incl c Hc. unfold map_techniques.
    destruct ids as [|tid ids].
    + eexists. split; [done|]. done.
    + unfold Semaphore.
      replace (c <? 0) with false by (symmetry; apply Z.ltb_ge; lia).
      replace (c =? 0) with false by (symmetry; apply Z.eqb_neq; lia).
      eexists. split; [done|]. unfold map_techniques_finish.
      rewrite map_techniques_collect_spec. done.
  - intros fetch ts domain incl c. unfold enrich_with_mitigations.
    destruct ts as [|t ts]; [done|].
    unfold enrich_with_mitigations_finish.
    rewrite mitigations_collect_spec. done.
  - intros call_tool n t rest domain max_items enriched e Hstix Hcall.
    simpl. rewrite Hstix. simpl. by rewrite Hcall.
Qed.

Lemma fan_out_bounded_and_isolated_witness :
  (Z.of_nat (running pool_one_admitted) <= 1
   /\ length (slots pool_one_admitted) = length ["T1059.001"; "T9999"])
  /\ (exists out,
        map_techniques mixed_lookup ["T1059.001"; "T9999"; "T0000"]
          "enterprise" true 10 = Some (Ok out)
        /\ m_confirmed_techniques out
           = omap found_technique
               (imap (_fetch_with_limit mixed_lookup "enterprise" true)
                     ["T1059.001"; "T9999"; "T0000"])
        /\ m_not_found out
           = omap missing_technique
               (imap (_fetch_with_limit mixed_lookup "enterprise" true)
                     ["T1059.001"; "T9999"; "T0000"])
        /\ default [] (m_errors out)
           = omap raised_text
               (imap (_fetch_with_limit mixed_lookup "enterprise" true)
                     ["T1059.001"; "T9999"; "T0000"]))
  /\ enrich_loop first_call_raises 0 [technique_1; technique_2] "enterprise" 5 []
     = (Raise boom, 1%nat).
Proof.
  pose proof fan_out_bounded_and_isolated
    as ((_ & _ & Hpool & _) & Hmap & _ & Hintel).
  split; [|split].
  - apply (Hpool ["T1059.001"; "T9999"] 1 pool_one_admitted); [lia|].
    apply (gather_next _ _ 0%nat (Raise boom) _ (gather_refl _)). reflexivity.
  - apply (Hmap mixed_lookup ["T1059.001"; "T9999"; "T0000"] "enterprise"
             true 10). lia.
  - apply (Hintel first_call_raises 0%nat technique_1 [technique_2]
             "enterprise" 5 [] boom); reflexivity.
Defined.

(** What the example gives: one confirmed, one not found, one error. *)
Example mixed_lookup_example :
  map_techniques mixed_lookup ["T1059.001"; "T9999"; "T0000"] "enterprise"
    true 10
  = Some (Ok {| m_domain := "enterprise";
                m_confirmed_techniques := [technique_1];
                m_not_found := ["T0000"];
                m_errors := Some ["server went away"] |}).
Proof. reflexivity. Qed.

(** ** The conditional edge *)

Lemma all_positive_no_zero (items : list value) :
  Forall (fun item => exists n, reported_count item = Some n /\ 0 < n) items ->
  any_zero_components items = Ok false.
Proof.
  induction 1 as [|item items (n & Hn & Hpos) _ IH]; [done|].
  simpl. unfold reported_count in Hn.
  destruct item as [| | | | |d]; try discriminate. simpl.
  destruct (get d "detection" (VDict ∅)) as [| | | | |dd]; try discriminate.
  simpl.
  destruct (get dd "total_datacomponents" (VInt 0)) as [| |m| | |];
    try discriminate.
  injection Hn as ->. simpl.
  replace (n =? 0) with false by (symmetry; apply Z.eqb_neq; lia).
  exact IH.
Qed.

Lemma some_zero_found (items : list value) :
  Forall (fun item => is_Some (reported_count item)) items ->
  Exists (fun item => reported_count item = Some 0) items ->
  any_zero_components items = Ok true.
Proof.
  induction 1 as [|item items [n Hn] _ IH]; intros Hex.
  - by apply Exists_nil in Hex.
  - simpl. unfold reported_count in Hn.
    destruct item as [| | | | |d] eqn:Hitem; try discriminate. simpl.
    destruct (get d "detection" (VDict ∅)) as [| | | | |dd] eqn:Hd;
      try discriminate.
    simpl.
    destruct (get dd "total_datacomponents" (VInt 0)) as [| |m| | |] eqn:Hm;
      try discriminate.
    injection Hn as ->. simpl.
    destruct (n =? 0) eqn:Hz; [done|].
    apply Exists_cons in Hex as [H0|Hex]; [|by apply IH].
    unfold reported_count in H0. rewrite Hd, Hm in H0.
    injection H0 as ->. done.
Qed.

Lemma edge_targets_in (source target : string) :
  In target (edge_targets source) -> In (source, target) edges.
Proof.
  unfold edge_targets. generalize edges. intros l.
  induction l as [|[a b] l IH]; simpl; [done|].
  destruct (String.eqb a source) eqn:Ha; simpl.
  - apply String.eqb_eq in Ha as ->. intros [->|H]; [by left | right; auto].
  - intros H. right. auto.
Qed.

Lemma no_edge_to_detection_reasoning (source : string) :
  ~ In "detection_reasoning" (edge_targets source).
Proof.
  intros H. apply edge_targets_in in H. unfold edges in H. simpl in H.
  repeat (destruct H as [H|H]; [discriminate H|]). done.
Qed.

(** C4, as stated, fails in its second half: in a merged state whose
    detection list has an entry without data components the predicate
    answers "detection_reasoning", yet [visualization] is scheduled all the
    same, by the edges that leave [intel], [mitigation] and
    [detection_reasoning]. *)
Lemma visualization_is_scheduled_anyway :
  should_run_detection_reasoning
    (state_with_detections [detection_item 3; fallback_item])
  = Ok "detection_reasoning"
  /\ activated "intel" (state_with_detections [detection_item 3; fallback_item])
     = Ok ["visualization"]
  /\ activated "mitigation"
       (state_with_detections [detection_item 3; fallback_item])
     = Ok ["visualization"]
  /\ activated "detection_reasoning"
       (state_with_detections [detection_item 3; fallback_item])
     = Ok ["visualization"].
Proof. repeat split; reflexivity. Qed.

(** C4, amended.  Let the merged state hold a detection list.  If every
    entry reports a count above 0, the predicate answers "visualization", the
    conditional edge of [detection] activates [visualization] alone, and no
    node, whichever terminates with that state, activates
    [detection_reasoning].  If every entry reports a count and some entry
    reports 0 (or none at all, which is read as 0), the predicate answers
    "detection_reasoning" and the termination of [detection] activates
    [detection_reasoning] alone: [visualization] is not a successor of
    [detection] then. *)
Theorem conditional_edge_routes (state : InvestigationState)
    (items : list value) :
  get (detections state) "detections" (VList []) = VList items ->
  (Forall (fun item => exists n, reported_count item = Some n /\ 0 < n) items ->
   should_run_detection_reasoning state = Ok "visualization"
   /\ activated "detection" state = Ok ["visualization"]
   /\ forall source targets,
        activated source state = Ok targets ->
        ~ In "detection_reasoning" targets)
  /\ (Forall (fun item => is_Some (reported_count item)) items ->
      Exists (fun item => reported_count item = Some 0) items ->
      should_run_detection_reasoning state = Ok "detection_reasoning"
      /\ activated "detection" state = Ok ["detection_reasoning"]
      /\ ~ In "visualization" (edge_targets "detection")).
Proof.
  intros Hlist. split.
  - intros Hpos.
    assert (should_run_detection_reasoning state = Ok "visualization") as Hrun.
    { unfold should_run_detection_reasoning. rewrite Hlist. simpl.
      by rewrite (all_positive_no_zero items Hpos). }
    split; [done|]. split.
    + unfold activated, conditional_target. simpl. by rewrite Hrun.
    + intros source targets Hact. unfold activated in Hact.
      destruct (String.eqb source "detection") eqn:Hs.
      * apply String.eqb_eq in Hs as ->.
        unfold conditional_target in Hact. rewrite Hrun in Hact. simpl in Hact.
        injection Hact as <-. simpl. intros [H|H]; [discriminate H | done].
      * injection Hact as <-. apply no_edge_to_detection_reasoning.
  - intros Hall Hzero.
    assert (should_run_detection_reasoning state = Ok "detection_reasoning")
      as Hrun.
    { unfold should_run_detection_reasoning. rewrite Hlist. simpl.
      by rewrite (some_zero_found items Hall Hzero). }
    split; [done|]. split.
    + unfold activated, conditional_target. simpl. by rewrite Hrun.
    + simpl. tauto.
Qed.

Lemma conditional_edge_routes_witness :
  (should_run_detection_reasoning
     (state_with_detections [detection_item 3; detection_item 1])
   = Ok "visualization"
   /\ activated "detection"
        (state_with_detections [detection_item 3; detection_item 1])
      = Ok ["visualization"]
   /\ forall source targets,
        activated source
          (state_with_detections [detection_item 3; detection_item 1])
        = Ok targets ->
        ~ In "detection_reasoning" targets)
  /\ (should_run_detection_reasoning
        (state_with_detections [detection_item 3; fallback_item])
      = Ok "detection_reasoning"
      /\ activated "detection"
           (state_with_detections [detection_item 3; fallback_item])
         = Ok ["detection_reasoning"]
      /\ ~ In "visualization" (edge_targets "detection")).
Proof.
  split.
  - apply (conditional_edge_routes
             (state_with_detections [detection_item 3; detection_item 1])
             [detection_item 3; detection_item 1]); [reflexivity|].
    repeat constructor.
    + exists 3. split; [reflexivity | lia].
    + exists 1. split; [reflexivity | lia].
  - apply (conditional_edge_routes
             (state_with_detections [detection_item 3; fallback_item])
             [detection_item 3; fallback_item]); [reflexivity| |].
    + repeat constructor; eexists; reflexivity.
    + apply Exists_cons. right. apply Exists_cons. left. reflexivity.
Defined.

End WorkflowFacts.

(** * Further properties of the MCP client *)

Module McpClientMoreFacts.
Import McpClient McpClientMore McpClientFacts.

Lemma in_close_section_wake (t : task) :
  in_close_section (wake t) = in_close_section t.
Proof. destruct t as [| | |[]|]; done. Qed.

Lemma before_session_exit_wake (t : task) :
  before_session_exit (wake t) = before_session_exit t.
Proof. destruct t as [| | |[]|]; done. Qed.

Lemma at_ctx_exit_wake (t : task) : at_ctx_exit (wake t) = at_ctx_exit t.
Proof. destruct t as [| | |[]|]; done. Qed.

Lemma before_session_exit_section (t : task) :
  before_session_exit t = true -> in_close_section t = true.
Proof. destruct t as [| | |[]|]; done. Qed.

Lemma at_ctx_exit_section (t : task) :
  at_ctx_exit t = true -> in_close_section t = true.
Proof. destruct t as [| | |[]|]; done. Qed.

(** Opens one transition: [t] is the coroutine that runs, [c] the client
    before and [c'], [t'], [w] what [task_step] gives. *)
Ltac open_step Hstep :=
  unfold step in Hstep;
  match type of Hstep with
  | context [tasks ?s !! ?i] =>
      let t := fresh "t" in
      destruct (tasks s !! i) as [t|] eqn:Hi; [|discriminate Hstep];
      let c' := fresh "c'" in
      let t' := fresh "t'" in
      let w := fresh "w" in
      destruct (task_step _ t (cl s)) as [[[c' t'] w]|] eqn:Hts;
        [|discriminate Hstep];
      injection Hstep as <-; destruct s as [c ts]; simpl in *
  end.

Ltac z_bools :=
  repeat match goal with
         | H : (_ =? _) = false |- _ => apply Z.eqb_neq in H
         | H : (_ =? _) = true |- _ => apply Z.eqb_eq in H
         | H : (_ <=? _) = false |- _ => apply Z.leb_gt in H
         | H : (_ <=? _) = true |- _ => apply Z.leb_le in H
         end.

Ltac split_lookup H :=
  first [ apply lookup_after_wake in H as [H|(? & ? & H & ?)]
        | apply lookup_after_plain in H as [H|[? H]] ].

Lemma step_close_lock s i x s' :
  close_inv s -> step i x s = Some s' ->
  count in_close_section (tasks s')
  = if _close_lock (cl s') then 1%nat else 0%nat.
Proof.
  intros [Hlk _ _ _ _ _] Hstep. open_step Hstep.
  pose proof (count_insert in_close_section ts i t t' Hi) as Hcnt.
  destruct c as [ctx rd wr sess clk xlk closing infl ev sp ss lg]; simpl in *.
  destruct t as [k|ck k|ck|k|o r]; [destruct k|destruct k|idtac|destruct k|idtac];
    step_cases Hts.
  all: rewrite ?(count_wake in_close_section) by apply in_close_section_wake;
    simpl in *; try destruct xlk; simpl in *; lia.
Qed.

Lemma step_close_inv s i x s' :
  drain_inv s -> close_inv s -> step i x s = Some s' -> close_inv s'.
Proof.
  intros Hd Hc Hstep.
  pose proof (step_close_lock s i x s' Hc Hstep) as Hlk'.
  destruct Hd as [Hcn He Hcl _ _ _]. destruct Hc as [Hlk Hfr Hbe Hct Hor Hst].
  open_step Hstep.
  pose proof (count_pos in_flight ts i t Hi) as Hpos.
  pose proof (Hcl i t Hi) as Ht_cl.
  pose proof (Hbe i t Hi) as Ht_be. pose proof (Hct i t Hi) as Ht_ct.
  pose proof (fun j u => count_two in_close_section ts i j t u Hi) as Htwo.
  destruct c as [ctx rd wr sess clk xlk closing infl ev sp ss lg]; simpl in *.
  destruct t as [k|ck k|ck|k|o r]; [destruct k|destruct k|idtac|destruct k|idtac];
    step_cases Hts.
  all: try specialize (Hpos eq_refl).
  all: try specialize (Ht_cl eq_refl).
  all: try specialize (Ht_be eq_refl).
  all: try specialize (Ht_ct eq_refl).
  all: constructor; simpl; try exact Hlk'.
  all: z_bools.
  all: try done.
  all: try (intros; apply Hfr; done).
  all: try (intros j Hj; split_lookup Hj;
            [ first [ discriminate Hj | lia ]
            | first [ specialize (Hst _ Hj); lia
                    | match goal with
                      | H : _ = wake ?u |- _ => destruct u as [| | |[]|]; discriminate H
                      end ] ]).
  all: try (intros j u Hj Hu; split_lookup Hj; subst; simpl in *;
            rewrite ?before_session_exit_wake, ?at_ctx_exit_wake in *;
            try discriminate Hu;
            try (pose proof (Hbe _ _ Hj Hu));
            try (pose proof (Hct _ _ Hj Hu));
            try (pose proof (Htwo _ _ Hj ltac:(done) eq_refl
                               (before_session_exit_section _ Hu)));
            try (pose proof (Htwo _ _ Hj ltac:(done) eq_refl
                               (at_ctx_exit_section _ Hu)));
            try (rewrite Hfr by done);
            subst; simpl in *;
            first [ done | lia | destruct xlk; simpl in *; lia | eauto; fail ]).
  all: try (intros; congruence).
  all: unfold teardown_in_order; rewrite ?app_nil_r; try exact Hor.
  all: try (rewrite Ht_be; simpl; eauto 6; fail).
  all: destruct Ht_ct as [->|[? ->]]; simpl; eauto 8.
Qed.

Lemma initial_close_inv (ts : list task) : all_fresh ts -> close_inv (initial ts).
Proof.
  intros Hts. constructor; simpl.
  - rewrite (count_fresh in_close_section); [done| |done].
    by intros [[]|? []| |[]|].
  - done.
  - done.
  - by left.
  - by left.
  - intros i Hi. apply (lookup_fresh _ _ _ Hts) in Hi. done.
Qed.

Lemma reachable_close_inv (ts : list task) (s : system) :
  all_fresh ts -> reachable (initial ts) s -> drain_inv s /\ close_inv s.
Proof.
  intros Hts Hr. induction Hr as [|s i x s' _ [IHd IHc] Hstep].
  - split; [by apply initial_drain_inv | by apply initial_close_inv].
  - split; [eapply step_drain_inv | eapply step_close_inv]; eauto.
Qed.

Lemma count_exists (P : task -> bool) (ts : list task) :
  (0 < count P ts)%nat -> exists j t, ts !! j = Some t /\ P t = true.
Proof.
  unfold count. induction ts as [|a ts IH]; simpl; [lia|].
  destruct (P a) eqn:Ha.
  - intros _. by exists 0%nat, a.
  - intros H. destruct (IH H) as (j & t & Hj & Ht). by exists (S j), t.
Qed.

Lemma count_none (P : task -> bool) (ts : list task) :
  (forall i t, ts !! i = Some t -> P t = false) -> count P ts = 0%nat.
Proof.
  intros H. destruct (count P ts) as [|n] eqn:E; [done|].
  destruct (count_exists P ts ltac:(lia)) as (j & t & Hj & Ht).
  rewrite (H j t Hj) in Ht. done.
Qed.

(** X1.  In every interleaving on a new client, [_inflight] is the number
    of calls between [_begin_call] and [_end_call], the event [_no_inflight]
    is set exactly when that number is 0, and [_end_call] always finds a
    positive count: the branch that resets a negative count to 0 never has
    anything to correct. *)
Theorem inflight_counts_calls (ts : list task) (s : system) :
  all_fresh ts -> reachable (initial ts) s ->
  _inflight (cl s) = Z.of_nat (count in_flight (tasks s))
  /\ _no_inflight (cl s) = (_inflight (cl s) =? 0)
  /\ (forall j ck, tasks s !! j = Some (InFlight ck) ->
        _inflight (_end_call (cl s)).1 = _inflight (cl s) - 1
        /\ 0 <= _inflight (_end_call (cl s)).1).
Proof.
  intros Hts Hr. destruct (reachable_inv ts s Hts Hr) as [[Hc He _ _ _ _] _].
  split; [done|]. split; [done|]. intros j ck Hj.
  pose proof (count_pos in_flight _ j _ Hj eq_refl) as Hpos.
  unfold _end_call. destruct (_inflight (cl s) - 1 <=? 0) eqn:E; simpl.
  - apply Z.leb_le in E. lia.
  - apply Z.leb_gt in E. lia.
Qed.

Lemma inflight_counts_calls_witness :
  _inflight (cl state_close_waits)
  = Z.of_nat (count in_flight (tasks state_close_waits))
  /\ _no_inflight (cl state_close_waits)
     = (_inflight (cl state_close_waits) =? 0)
  /\ (forall j ck, tasks state_close_waits !! j = Some (InFlight ck) ->
        _inflight (_end_call (cl state_close_waits)).1
        = _inflight (cl state_close_waits) - 1
        /\ 0 <= _inflight (_end_call (cl state_close_waits)).1).
Proof.
  apply (inflight_counts_calls three_tasks state_close_waits).
  - repeat constructor.
  - apply (run_reachable sched_close_waits _ (initial three_tasks));
      [apply reach_refl | reflexivity].
Defined.

(** X2.  In every interleaving on a new client, a [close] that is parked at
    [await self._no_inflight.wait()] without having been woken has a call in
    flight to wait for; and a [close] that has been woken can run. *)
Theorem close_never_stalls (ts : list task) (s : system) :
  all_fresh ts -> reachable (initial ts) s ->
  (forall i, tasks s !! i = Some (Closing (ClDrainWait false)) ->
     0 < _inflight (cl s)
     /\ exists j ck, tasks s !! j = Some (InFlight ck))
  /\ (forall i x, tasks s !! i = Some (Closing (ClDrainWait true)) ->
        is_Some (step i x s)).
Proof.
  intros Hts Hr.
  destruct (reachable_close_inv ts s Hts Hr)
    as [[Hc _ _ _ _ _] [_ _ _ _ _ Hst]].
  split.
  - intros i Hi. pose proof (Hst i Hi) as Hpos. split; [done|].
    destruct (count_exists in_flight (tasks s) ltac:(lia))
      as (j & t & Hj & Ht).
    destruct t as [| |ck| |]; try done. by exists j, ck.
  - intros i x Hi. unfold step. rewrite Hi. simpl.
    destruct (teardown (cl s)) as [c' t']. by eexists.
Qed.

Lemma close_never_stalls_witness :
  (forall i, tasks state_close_waits !! i = Some (Closing (ClDrainWait false)) ->
     0 < _inflight (cl state_close_waits)
     /\ exists j ck, tasks state_close_waits !! j = Some (InFlight ck))
  /\ (forall i x,
        tasks state_close_waits !! i = Some (Closing (ClDrainWait true)) ->
        is_Some (step i x state_close_waits)).
Proof.
  apply (close_never_stalls three_tasks state_close_waits).
  - repeat constructor.
  - apply (run_reachable sched_close_waits _ (initial three_tasks));
      [apply reach_refl | reflexivity].
Defined.

(** When the call that [close] waits for ends, even by an exception, the
    closer is woken. *)
Example call_end_wakes_close :
  tasks state_call_returned
  = [Finished (OpCall CallTool) (Raised (RemoteError 3));
     Closing (ClDrainWait true); Connecting AtEntry]
  /\ _inflight (cl state_call_returned) = 0
  /\ _no_inflight (cl state_call_returned) = true.
Proof. repeat split; reflexivity. Qed.

(** X3.  In every interleaving on a new client, whatever the number of
    [close] calls and whatever raises: the session is left at most once, the
    transport is left at most once, and the session is never left after the
    transport. *)
Theorem teardown_once_in_order (ts : list task) (s : system) :
  all_fresh ts -> reachable (initial ts) s ->
  teardown_in_order (teardown_log (cl s)).
Proof.
  intros Hts Hr. by destruct (reachable_close_inv ts s Hts Hr) as [_ []].
Qed.

Lemma teardown_once_in_order_witness :
  teardown_in_order (teardown_log (cl state_closed_twice)).
Proof.
  apply (teardown_once_in_order two_closes state_closed_twice).
  - repeat constructor.
  - apply (run_reachable (sched_connect_then_close ++ [(2%nat, ExtOk)]) _
             (initial two_closes)); [apply reach_refl | reflexivity].
Defined.

(** X4.  In every interleaving on a new client, each lock is held exactly
    when one coroutine is inside the part of [connect], respectively of
    [close], that it guards: no exception leaves a lock held, and once every
    coroutine has finished both locks are free. *)
Theorem locks_are_not_leaked (ts : list task) (s : system) :
  all_fresh ts -> reachable (initial ts) s ->
  count in_critical (tasks s) = (if _connect_lock (cl s) then 1 else 0)%nat
  /\ count in_close_section (tasks s)
     = (if _close_lock (cl s) then 1 else 0)%nat
  /\ ((forall i t, tasks s !! i = Some t -> finished t = true) ->
      _connect_lock (cl s) = false /\ _close_lock (cl s) = false).
Proof.
  intros Hts Hr.
  destruct (reachable_inv ts s Hts Hr) as [_ [Hcr _ _ _ _]].
  destruct (reachable_close_inv ts s Hts Hr) as [_ [Hlk _ _ _ _ _]].
  split; [done|]. split; [done|]. intros Hfin.
  rewrite (count_none in_critical) in Hcr.
  2:{ intros i t Hi. specialize (Hfin i t Hi). by destruct t. }
  rewrite (count_none in_close_section) in Hlk.
  2:{ intros i t Hi. specialize (Hfin i t Hi). by destruct t. }
  split; [by destruct (_connect_lock (cl s)) | by destruct (_close_lock (cl s))].
Qed.

Lemma locks_are_not_leaked_witness :
  count in_critical (tasks state_closed_twice)
  = (if _connect_lock (cl state_closed_twice) then 1 else 0)%nat
  /\ count in_close_section (tasks state_closed_twice)
     = (if _close_lock (cl state_closed_twice) then 1 else 0)%nat
  /\ ((forall i t, tasks state_closed_twice !! i = Some t ->
                   finished t = true) ->
      _connect_lock (cl state_closed_twice) = false
      /\ _close_lock (cl state_closed_twice) = false).
Proof.
  apply (locks_are_not_leaked two_closes state_closed_twice).
  - repeat constructor.
  - apply (run_reachable (sched_connect_then_close ++ [(2%nat, ExtOk)]) _
             (initial two_closes)); [apply reach_refl | reflexivity].
Defined.

Lemma late_close_step (c : client) (k : close_pc) (x : ext) (c' : client)
    (t' : task) (w : bool) :
  _closing c = true -> k = ClEntry \/ k = ClLockWait ->
  task_step x (Closing k) c = Some (c', t', w) ->
  w = false /\ c' = c
  /\ (t' = Closing ClLockWait /\ k = ClEntry /\ _close_lock c = true
      \/ t' = Finished OpClose Returned).
Proof.
  intros Hcl Hk Hts.
  destruct c as [ctx rd wr sess clk xlk closing infl ev sp ss lg]; simpl in *.
  destruct Hk as [-> | ->]; step_cases Hts; eauto 6.
Qed.

(** X5.  A [close] that starts on a client already marked closing does
    nothing, in every interleaving: it is not started, waits for the close
    lock, or has returned normally, and none of its transitions changes any
    field of the client. *)
Theorem late_close_is_noop (s0 s : system) (i : nat) :
  _closing (cl s0) = true -> tasks s0 !! i = Some (Closing ClEntry) ->
  reachable s0 s ->
  (tasks s !! i = Some (Closing ClEntry)
   \/ tasks s !! i = Some (Closing ClLockWait)
   \/ tasks s !! i = Some (Finished OpClose Returned))
  /\ (forall x s1, step i x s = Some s1 -> cl s1 = cl s).
Proof.
  intros Hcl Hi Hr.
  assert (_closing (cl s) = true
          /\ (tasks s !! i = Some (Closing ClEntry)
              \/ tasks s !! i = Some (Closing ClLockWait)
              \/ tasks s !! i = Some (Finished OpClose Returned)))
    as [Hcls Hpc].
  { induction Hr as [|s j x s' _ [IHcl IH] Hstep]; [by eauto|].
    split; [by eapply step_closing|].
    destruct (decide (i = j)) as [<-|Hne].
    - destruct IH as [Ht|[Ht|Ht]];
        destruct (step_self _ _ _ _ _ Hstep Ht) as (c' & t' & w & Hts & Hs');
        [ destruct (late_close_step _ _ _ _ _ _ IHcl (or_introl eq_refl) Hts)
            as (-> & _ & [(-> & _)| ->]); eauto
        | destruct (late_close_step _ _ _ _ _ _ IHcl (or_intror eq_refl) Hts)
            as (-> & _ & [(_ & ? & _)| ->]); [done|eauto]
        | done ].
    - destruct IH as [Ht|[Ht|Ht]];
        destruct (step_other _ _ _ _ _ _ Hstep Hne Ht) as [H|H]; eauto. }
  split; [exact Hpc|]. intros x s1 Hstep.
  destruct Hpc as [Ht|[Ht|Ht]];
    destruct (step_self _ _ _ _ _ Hstep Ht) as (c' & t' & w & Hts & _).
  - destruct (late_close_step _ _ _ _ _ _ Hcls (or_introl eq_refl) Hts)
      as (_ & Hc & _).
    unfold step in Hstep. rewrite Ht, Hts in Hstep. injection Hstep as <-.
    done.
  - destruct (late_close_step _ _ _ _ _ _ Hcls (or_intror eq_refl) Hts)
      as (_ & Hc & _).
    unfold step in Hstep. rewrite Ht, Hts in Hstep. injection Hstep as <-.
    done.
  - done.
Qed.

Lemma late_close_is_noop_witness :
  (tasks state_closed_twice !! 2%nat = Some (Closing ClEntry)
   \/ tasks state_closed_twice !! 2%nat = Some (Closing ClLockWait)
   \/ tasks state_closed_twice !! 2%nat = Some (Finished OpClose Returned))
  /\ (forall x s1, step 2 x state_closed_twice = Some s1 ->
                   cl s1 = cl state_closed_twice).
Proof.
  apply (late_close_is_noop state_closed_once state_closed_twice 2).
  - reflexivity.
  - reflexivity.
  - apply (run_reachable [(2%nat, ExtOk)] _ state_closed_once);
      [apply reach_refl | reflexivity].
Defined.

Example closed_twice_example :
  tasks state_closed_twice
  = [Finished OpConnect Returned; Finished OpClose Returned;
     Finished OpClose Returned]
  /\ teardown_log (cl state_closed_twice)
     = [SessionExited 0; TransportExited 0]
  /\ cl state_closed_twice = cl state_closed_once.
Proof. repeat split; reflexivity. Qed.

Lemma final_step s i x s' :
  _closing (cl s) = true -> count in_close_section (tasks s) = 0%nat ->
  step i x s = Some s' ->
  teardown_log (cl s') = teardown_log (cl s)
  /\ count in_close_section (tasks s') = 0%nat.
Proof.
  intros Hcl Hcnt Hstep. open_step Hstep.
  pose proof (count_insert in_close_section ts i t t' Hi) as Hins.
  assert (in_close_section t = false) as Hout.
  { destruct (in_close_section t) eqn:E; [|done].
    pose proof (count_pos in_close_section ts i t Hi E). lia. }
  destruct c as [ctx rd wr sess clk xlk closing infl ev sp ss lg]; simpl in *.
  subst closing.
  destruct t as [k|ck k|ck|k|o r]; [destruct k|destruct k|idtac|destruct k|idtac];
    try discriminate Hout; step_cases Hts.
  all: rewrite ?(count_wake in_close_section) by apply in_close_section_wake;
    simpl in *; split; [done | lia].
Qed.

(** X6.  Once a close has run to its end (the client is marked closing and
    no close is inside its locked section), nothing is torn down any more,
    in any interleaving: a session that a connect in progress opens
    afterwards is never exited. *)
Theorem shutdown_is_final (s0 s : system) :
  _closing (cl s0) = true -> count in_close_section (tasks s0) = 0%nat ->
  reachable s0 s ->
  teardown_log (cl s) = teardown_log (cl s0)
  /\ _closing (cl s) = true
  /\ count in_close_section (tasks s) = 0%nat.
Proof.
  intros Hcl Hcnt Hr.
  induction Hr as [|s i x s' _ (IHlog & IHcl & IHcnt) Hstep]; [done|].
  destruct (final_step s i x s' IHcl IHcnt Hstep) as [Hlog Hcnt'].
  split; [congruence|]. split; [by eapply step_closing | done].
Qed.

Lemma shutdown_is_final_witness :
  teardown_log (cl state_connected_late) = teardown_log (cl state_closed_early)
  /\ _closing (cl state_connected_late) = true
  /\ count in_close_section (tasks state_connected_late) = 0%nat.
Proof.
  apply (shutdown_is_final state_closed_early state_connected_late).
  - reflexivity.
  - reflexivity.
  - apply (run_reachable sched_connect_goes_on _ state_closed_early);
      [apply reach_refl | reflexivity].
Defined.

(** The close has taken the transport down and returned; the connect then
    returns normally with a session that stays open. *)
Example session_left_open :
  tasks state_closed_early
  = [Connecting AtCtxEnter; Finished OpClose Returned]
  /\ tasks state_connected_late
     = [Finished OpConnect Returned; Finished OpClose Returned]
  /\ _session (cl state_connected_late) = Some 0%nat
  /\ teardown_log (cl state_connected_late) = [TransportExited 0].
Proof. repeat split; reflexivity. Qed.

End McpClientMoreFacts.

(** * Further properties of the workflow *)

Module WorkflowMoreFacts.
Import Workflow WorkflowMore WorkflowFacts.

(** ** The retry decorator *)

Lemma retry_loop_success {A} (name : string) (max_attempts : Z) (backoff : Q)
    (func : Z -> result A) (k : Z) (v : A) (f : nat) :
  forall (start m : Z) (last : option exn) (slept : list Q),
    start + Z.of_nat f = k -> k < start + m -> k <= max_attempts ->
    (forall j, start <= j < k -> exists e, func j = Raise e) ->
    func k = Ok v ->
    retry_loop name max_attempts backoff func (seqZ start m) last slept
    = (Ok v, slept ++ (wait_time backoff <$> seqZ start (Z.of_nat f))).
Proof.
  induction f as [|f IH]; intros start m last slept Hk Hm Hmax Hfail Hok;
    rewrite (seqZ_cons start m) by lia; simpl retry_loop.
  - assert (start = k) as -> by lia. rewrite Hok. simpl. by rewrite app_nil_r.
  - destruct (Hfail start ltac:(lia)) as [e He]. rewrite He.
    replace (start <? max_attempts) with true by (symmetry; apply Z.ltb_lt; lia).
    rewrite (IH (Z.succ start) (Z.pred m) (Some e)
               (slept ++ [wait_time backoff start]))
      by (try lia; try done; intros; apply Hfail; lia).
    rewrite (seqZ_cons start (Z.of_nat (S f))) by lia.
    replace (Z.pred (Z.of_nat (S f))) with (Z.of_nat f) by lia.
    by rewrite fmap_cons, <- app_assoc.
Qed.

(** X7.  If the wrapped coroutine raises in the attempts before attempt [k]
    and returns [v] in attempt [k], with [k] within the budget and the
    [k - 1] waits in the range of the floats ([k <= 1025], every wait
    finite), the decorator returns [v] and has slept exactly [k - 1] times,
    for [backoff * 2 ** (j - 1)] after attempt [j]: neither the exceptions
    nor the later attempts leave a trace. *)
Theorem retry_returns_first_success {A} (name : string) (max_attempts : Z)
    (backoff : Q) (func : Z -> result A) (k : Z) (v : A) :
  1 <= k <= max_attempts ->
  waits_in_range backoff (k - 1) ->
  (forall j, 1 <= j < k -> exists e, func j = Raise e) ->
  func k = Ok v ->
  retry_async name max_attempts backoff func
  = (Ok v, wait_time backoff <$> seqZ 1 (k - 1)).
Proof.
  intros Hk _ Hfail Hok. unfold retry_async.
  rewrite (retry_loop_success name max_attempts backoff func k v
             (Z.to_nat (k - 1)) 1 max_attempts None []);
    try done; try lia.
  by replace (Z.of_nat (Z.to_nat (k - 1))) with (k - 1) by lia.
Qed.

Lemma retry_returns_first_success_witness :
  retry_async "mapping_node" 3 2 fails_twice
  = (Ok (mark_agent_complete state_0 "mapping"), wait_time 2 <$> seqZ 1 (3 - 1)).
Proof.
  apply (retry_returns_first_success "mapping_node" 3 2 fails_twice 3).
  - lia.
  - repeat split; by vm_compute.
  - intros j Hj. exists boom. unfold fails_twice.
    by replace (j <? 3) with true by (symmetry; apply Z.ltb_lt; lia).
  - reflexivity.
Defined.

(** The two sleeps of the example last 2 and 4 seconds. *)
Example retry_waits_example :
  (retry_async "mapping_node" 3 2 fails_twice).2 = [2 * 1; 2 * 2]%Q.
Proof. reflexivity. Qed.

(** X8.  With a budget of no attempt at all ([max_attempts <= 0]) the
    decorator never calls the wrapped coroutine and never sleeps: it raises
    [RuntimeError("<name> failed with no exception captured")]. *)
Theorem retry_without_attempts {A} (name : string) (max_attempts : Z)
    (backoff : Q) (func : Z -> result A) :
  max_attempts <= 0 ->
  retry_async name max_attempts backoff func
  = (Raise (mk_exn "RuntimeError"
              (name ++ " failed with no exception captured")), []).
Proof. intros H. unfold retry_async. by rewrite seqZ_nil. Qed.

Lemma retry_without_attempts_witness :
  retry_async "triage_node" 0 1 fails_twice
  = (Raise (mk_exn "RuntimeError"
              ("triage_node" ++ " failed with no exception captured")), []).
Proof. apply (retry_without_attempts "triage_node" 0 1 fails_twice). lia. Defined.

(** ** Timings *)

(** Merging the update of [add_timing] into the state it was computed
    from records the duration under the name of the node and changes nothing
    else: the other timings, the lists and the step outputs are as before,
    although the update carries a copy of all earlier timings. *)
Lemma add_timing_records (s : InvestigationState) (name : string)
    (duration : Q) :
  let s' := apply_update s (add_timing s name duration) in
  timings s' = <[name := duration]> (timings s)
  /\ timings s' !! name = Some duration
  /\ (forall k, k <> name -> timings s' !! k = timings s !! k)
  /\ completed_agents s' = completed_agents s
  /\ errors s' = errors s
  /\ outputs s' = outputs s.
Proof.
  simpl.
  assert (merge_dicts (timings s) (<[name := duration]> (timings s))
          = <[name := duration]> (timings s)) as ->.
  { apply map_eq. intros k. rewrite merge_dicts_lookup.
    destruct (decide (name = k)) as [->|Hne].
    - by rewrite lookup_insert_eq.
    - rewrite lookup_insert_ne by done. by destruct (timings s !! k). }
  repeat split.
  - apply lookup_insert_eq.
  - intros k Hk. by rewrite lookup_insert_ne.
Qed.

(** X9.  Two sibling nodes that computed their timing updates from the same
    state, neither of which was timed in that state: merging the two updates
    in either order gives the same timings, with both durations. *)
Theorem sibling_timings_commute (s : InvestigationState) (a b : string)
    (da db : Q) :
  a <> b -> timings s !! a = None -> timings s !! b = None ->
  timings (apply_update (apply_update s (add_timing s a da))
                        (add_timing s b db))
  = <[a := da]> (<[b := db]> (timings s))
  /\ timings (apply_update (apply_update s (add_timing s b db))
                           (add_timing s a da))
     = <[a := da]> (<[b := db]> (timings s)).
Proof.
  intros Hne Ha Hb. simpl. split; apply map_eq; intros k;
    rewrite !merge_dicts_lookup, !lookup_insert;
    repeat case_decide; simplify_eq; rewrite ?Ha, ?Hb; try done;
    by case_match.
Qed.

Lemma sibling_timings_commute_witness :
  timings (apply_update (apply_update state_0 (add_timing state_0 "intel" 1))
                        (add_timing state_0 "detection" 2))
  = <["intel" := 1%Q]> (<["detection" := 2%Q]> (timings state_0))
  /\ timings (apply_update
                (apply_update state_0 (add_timing state_0 "detection" 2))
                (add_timing state_0 "intel" 1))
     = <["intel" := 1%Q]> (<["detection" := 2%Q]> (timings state_0)).
Proof.
  apply (sibling_timings_commute state_0 "intel" "detection" 1 2); done.
Defined.

(** X10.  The copy that [add_timing] makes goes stale: if node [a] was
    timed before and is timed again next to a sibling [b] that read the same
    state, then merging the update of [a] first and that of [b] second puts
    the old duration of [a] back. *)
Theorem stale_timing_overwrites (s : InvestigationState) (a b : string)
    (old da db : Q) :
  a <> b -> timings s !! a = Some old ->
  timings (apply_update (apply_update s (add_timing s a da))
                        (add_timing s b db)) !! a
  = Some old.
Proof.
  intros Hne Ha. simpl. rewrite merge_dicts_lookup.
  rewrite lookup_insert_ne by done. by rewrite Ha.
Qed.

Lemma stale_timing_overwrites_witness :
  timings (apply_update (apply_update state_timed
                           (add_timing state_timed "intel" 1))
                        (add_timing state_timed "detection" 2)) !! "intel"
  = Some 7%Q.
Proof.
  apply (stale_timing_overwrites state_timed "intel" "detection" 7 1 2); done.
Defined.

(** ** What the nodes return *)

Lemma completed_completes (start_time end_time : Q) (state : InvestigationState)
    (name : string) (outputs : update) :
  u_errors outputs = None ->
  completes name (completed start_time end_time state name outputs).
Proof. intros H. unfold completes, completed. simpl. by rewrite H. Qed.

Lemma add_error_only (now : string) (state : InvestigationState)
    (name msg : string) :
  error_only (add_error now state name msg).
Proof. by eexists. Qed.

Lemma or_error_shape (now : string) (state : InvestigationState)
    (name who : string) (body : result update) :
  (forall u, body = Ok u -> completes who u) ->
  error_only (or_error now state name body)
  \/ completes who (or_error now state name body).
Proof.
  intros H. destruct body as [u|e]; simpl.
  - right. by apply H.
  - left. apply add_error_only.
Qed.

Ltac node_shape :=
  repeat first
    [ apply add_error_only
    | progress (left; apply add_error_only)
    | progress (right; apply completed_completes; reflexivity)
    | progress (right; split; reflexivity)
    | apply or_error_shape; intros ? ?
    | match goal with
      | H : mbind _ ?m = Ok _ |- _ =>
          let E := fresh "E" in destruct m eqn:E; simpl in H; [|discriminate H]
      | H : Ok _ = Ok _ |- _ => injection H as <-
      | H : Raise _ = Ok _ |- _ => discriminate H
      | H : match ?x with _ => _ end = Ok _ |- _ =>
          let E := fresh "E" in destruct x eqn:E; simpl in H
      | H : (if ?x then _ else _) = Ok _ |- _ =>
          let E := fresh "E" in destruct x eqn:E; simpl in H
      | |- completes _ (completed _ _ _ _ _) =>
          apply completed_completes; reflexivity
      | |- context [match ?x with _ => _ end] =>
          let E := fresh "E" in destruct x eqn:E; simpl
      end ].

Lemma map_techniques_returns
    (fetch : nat -> string -> string -> bool -> result (option dict))
    (technique_ids : list string) (domain : string) (b : bool) :
  exists r,
    map_techniques fetch technique_ids domain b default_concurrency = Some r.
Proof. unfold map_techniques. destruct technique_ids; simpl; eauto. Qed.

Lemma shape_adds_one (name : string) (u : update) (s : InvestigationState) :
  error_only u \/ completes name u ->
  (length (errors (apply_update s u))
   + length (completed_agents (apply_update s u))
   = S (length (errors s) + length (completed_agents s)))%nat.
Proof.
  intros [[r ->]|[He Hc]]; simpl.
  - unfold add_lists. rewrite length_app. simpl. lia.
  - rewrite He, Hc. simpl. unfold add_lists. rewrite length_app. simpl. lia.
Qed.

(** X11.  Whatever the state and whatever the collaborators return or
    raise, the update that a node returns has one of two shapes: one
    Error Record and nothing else (no step output, no completion mark, no
    timing),
    or a completion mark with the name of the node and no Error Record.
    Merged into any state, it therefore adds exactly one entry to [errors]
    and [completed_agents] taken together. *)
Theorem nodes_add_one_entry (now : string) (start_time end_time : Q)
    (TriageInput : string -> result string)
    (triage_incident : string -> result TriageOutput)
    (_fetch_technique_details :
       nat -> string -> string -> bool -> result (option dict))
    (call_tool : nat -> string -> dict -> result value)
    (recommend_detection_telemetry : list dict -> string -> Z -> result dict)
    (_fetch_mitigations_for_technique :
       nat -> dict -> string -> bool -> result (option mitigation_entry))
    (reason_detection_with_llm_fallback :
       list dict -> dict -> string -> string -> Z -> result dict)
    (build_navigator_layer_from_techniques :
       list dict -> string -> string -> string -> result dict)
    (save_layer_json : dict -> string -> result string)
    (write_executive_report_llm :
       string -> string -> list dict -> dict -> dict -> dict -> dict ->
       option string -> string -> result dict)
    (open_for_writing : string -> result unit)
    (file_write : string -> string -> result unit)
    (state s : InvestigationState) :
  Forall
    (fun nu : string * update =>
       (error_only nu.2 \/ completes nu.1 nu.2)
       /\ (length (errors (apply_update s nu.2))
           + length (completed_agents (apply_update s nu.2))
           = S (length (errors s) + length (completed_agents s)))%nat)
    [ ("triage",
       triage_node_body now start_time end_time TriageInput triage_incident
         state);
      ("mapping",
       mapping_node_body now start_time end_time _fetch_technique_details state);
      ("intel", intel_node_body now start_time end_time call_tool state);
      ("detection",
       detection_node_body now start_time end_time
         recommend_detection_telemetry state);
      ("mitigation",
       mitigation_node_body now start_time end_time
         _fetch_mitigations_for_technique state);
      ("detection_reasoning",
       detection_reasoning_node_body now start_time end_time
         reason_detection_with_llm_fallback state);
      ("visualization",
       visualization_node_body now start_time end_time
         build_navigator_layer_from_techniques save_layer_json state);
      ("report",
       report_node_body now start_time end_time write_executive_report_llm
         open_for_writing file_write state) ].
Proof.
  assert (forall name u,
            error_only u \/ completes name u ->
            (error_only u \/ completes name u)
            /\ (length (errors (apply_update s u))
                + length (completed_agents (apply_update s u))
                = S (length (errors s) + length (completed_agents s)))%nat)
    as Hboth by (intros name u H; split; [done | by apply (shape_adds_one name)]).
  repeat match goal with
         | |- Forall _ (_ :: _) => constructor; [apply Hboth; simpl|]
         | |- Forall _ [] => constructor
         end.
  - unfold triage_node_body. node_shape.
  - unfold mapping_node_body.
    destruct (technique_ids state) as [|tid ids]; [node_shape|].
    destruct (mcp_client state); [|node_shape].
    destruct (map_techniques_returns _fetch_technique_details (tid :: ids)
                (default "enterprise" (domain state)) true) as [r ->].
    node_shape.
  - unfold intel_node_body. node_shape.
  - unfold detection_node_body. node_shape.
  - unfold mitigation_node_body. node_shape.
  - unfold detection_reasoning_node_body. node_shape.
  - unfold visualization_node_body. node_shape.
  - unfold report_node_body. node_shape.
Qed.

(** X12.  [triage_node]: an empty incident text is refused before any
    collaborator is called; and whenever the node completes, the technique
    identifiers it writes are the keys of the candidates it writes, in the
    same order, and there is at least one. *)
Theorem triage_ids_are_candidate_keys (now : string) (start_time end_time : Q)
    (TriageInput : string -> result string)
    (triage_incident : string -> result TriageOutput)
    (state : InvestigationState) :
  (incident_text state = "" ->
   triage_node_body now start_time end_time TriageInput triage_incident state
   = add_error now state "triage" "No incident text provided")
  /\ (completes "triage"
        (triage_node_body now start_time end_time TriageInput triage_incident
           state) ->
      exists ids candidates,
        u_technique_ids
          (triage_node_body now start_time end_time TriageInput
             triage_incident state) = Some ids
        /\ u_technique_candidates
             (triage_node_body now start_time end_time TriageInput
                triage_incident state) = Some candidates
        /\ ids = candidates.*1
        /\ ids <> []).
Proof.
  unfold triage_node_body. split.
  - intros ->. reflexivity.
  - destruct (negb (truthy (VStr (incident_text state)))).
    { intros [H _]. discriminate H. }
    destruct (TriageInput (incident_text state)) as [input|e]; simpl.
    2:{ intros [H _]. discriminate H. }
    destruct (triage_incident input) as [out|e]; simpl.
    2:{ intros [H _]. discriminate H. }
    unfold _extract_technique_ids.
    destruct ((technique_evidence out).*1) as [|tid ids] eqn:E; simpl.
    { intros [H _]. discriminate H. }
    intros _. exists (tid :: ids), (technique_evidence out). by rewrite E.
Qed.

Lemma triage_ids_are_candidate_keys_witness :
  exists ids candidates,
    u_technique_ids
      (triage_node_body "2026-01-01T00:00:00" 0 1 accepts_input
         triage_finds_two state_0) = Some ids
    /\ u_technique_candidates
         (triage_node_body "2026-01-01T00:00:00" 0 1 accepts_input
            triage_finds_two state_0) = Some candidates
    /\ ids = candidates.*1
    /\ ids <> [].
Proof.
  apply (triage_ids_are_candidate_keys "2026-01-01T00:00:00" 0 1 accepts_input
           triage_finds_two state_0).
  split; reflexivity.
Defined.

(** ** The predicate of the conditional edge *)

Lemma any_zero_passed (pre rest : list value) :
  Forall passed_entry pre ->
  any_zero_components (pre ++ rest) = any_zero_components rest.
Proof.
  induction 1 as [|item pre (d & dd & -> & Hd & Hz) _ IH]; [done|].
  simpl. rewrite Hd. simpl. by rewrite Hz.
Qed.

(** X13.  The predicate stops at the first entry of the detection list
    whose count is 0: when the entries before it are passed over, the
    answer is "detection_reasoning" whatever follows, well formed or not. *)
Theorem first_zero_decides (state : InvestigationState)
    (pre post : list value) (z : value) :
  get (detections state) "detections" (VList []) = VList (pre ++ z :: post) ->
  Forall passed_entry pre ->
  reported_count z = Some 0 ->
  should_run_detection_reasoning state = Ok "detection_reasoning"
  /\ activated "detection" state = Ok ["detection_reasoning"].
Proof.
  intros Hlist Hpre Hz.
  assert (should_run_detection_reasoning state = Ok "detection_reasoning")
    as Hrun.
  { unfold should_run_detection_reasoning. rewrite Hlist. simpl.
    rewrite (any_zero_passed pre (z :: post) Hpre). simpl.
    unfold reported_count in Hz.
    destruct z as [| | | | |d]; try discriminate. simpl.
    destruct (get d "detection" (VDict ∅)) as [| | | | |dd]; try discriminate.
    simpl.
    destruct (get dd "total_datacomponents" (VInt 0)) as [| |m| | |];
      try discriminate.
    by injection Hz as ->. }
  split; [done|]. unfold activated, conditional_target. simpl. by rewrite Hrun.
Qed.

Lemma first_zero_decides_witness :
  should_run_detection_reasoning
    (state_with_detections [detection_item 3; fallback_item; VInt 5])
  = Ok "detection_reasoning"
  /\ activated "detection"
       (state_with_detections [detection_item 3; fallback_item; VInt 5])
     = Ok ["detection_reasoning"].
Proof.
  apply (first_zero_decides
           (state_with_detections [detection_item 3; fallback_item; VInt 5])
           [detection_item 3] [VInt 5] fallback_item).
  - reflexivity.
  - repeat constructor. eexists _, _. repeat split; reflexivity.
  - reflexivity.
Defined.

(** X14.  The predicate raises instead of answering in two cases: an entry
    that is no dict, or whose ["detection"] is no dict, reached before any
    zero count, raises [AttributeError]; a detection list that is [None], a
    number or a boolean raises [TypeError].  The conditional edge then has no
    successor to activate. *)
Theorem malformed_detections_raise (state : InvestigationState) :
  (forall pre bad post,
     get (detections state) "detections" (VList [])
     = VList (pre ++ bad :: post) ->
     Forall passed_entry pre -> malformed_entry bad ->
     exists e,
       exn_class e = "AttributeError"
       /\ should_run_detection_reasoning state = Raise e
       /\ activated "detection" state = Raise e)
  /\ (forall v,
        get (detections state) "detections" (VList []) = v ->
        (v = VNone \/ (exists n, v = VInt n) \/ exists b, v = VBool b) ->
        should_run_detection_reasoning state
        = Raise (mk_exn "TypeError"
                   ("'" ++ type_name v ++ "' object is not iterable"))).
Proof.
  split.
  - intros pre bad post Hlist Hpre Hbad.
    assert (exists e, exn_class e = "AttributeError"
                      /\ any_zero_components (bad :: post) = Raise e)
      as (e & Hcls & He).
    { simpl. destruct Hbad as [Hnd|(d & -> & Hnd)].
      - destruct bad as [| | | | |d]; simpl;
          try (eexists; split; [|reflexivity]; reflexivity).
        by destruct (Hnd d).
      - simpl.
        destruct (get d "detection" (VDict ∅)) as [| | | | |dd] eqn:Hd;
          simpl; try (eexists; split; [|reflexivity]; reflexivity).
        by destruct (Hnd dd). }
    exists e. split; [done|].
    assert (should_run_detection_reasoning state = Raise e) as Hrun.
    { unfold should_run_detection_reasoning. rewrite Hlist. simpl.
      rewrite (any_zero_passed pre (bad :: post) Hpre). by rewrite He. }
    split; [done|]. unfold activated, conditional_target. simpl.
    by rewrite Hrun.
  - intros v Hv Hcases. unfold should_run_detection_reasoning. rewrite Hv.
    destruct Hcases as [->|[[n ->]|[b ->]]]; reflexivity.
Qed.

Lemma malformed_detections_raise_witness :
  (exists e,
     exn_class e = "AttributeError"
     /\ should_run_detection_reasoning
          (state_with_detections [detection_item 3; VStr "T1059"; fallback_item])
        = Raise e
     /\ activated "detection"
          (state_with_detections [detection_item 3; VStr "T1059"; fallback_item])
        = Raise e).
Proof.
  destruct (malformed_detections_raise
              (state_with_detections
                 [detection_item 3; VStr "T1059"; fallback_item])) as [H _].
  apply (H [detection_item 3] (VStr "T1059") [fallback_item]).
  - reflexivity.
  - repeat constructor. eexists _, _. repeat split; reflexivity.
  - left. intros d. discriminate.
Defined.

Lemma any_zero_components_outcome (items : list value) :
  (exists b, any_zero_components items = Ok b)
  \/ exists e, any_zero_components items = Raise e
               /\ exn_class e = "AttributeError".
Proof.
  induction items as [|item items IH]; simpl; [eauto|].
  destruct item as [| | | | |d]; simpl; eauto.
  destruct (get d "detection" (VDict ∅)) as [| | | | |dd]; simpl; eauto.
  destruct (eq_zero _); eauto.
Qed.

(** X15.  Whatever the state, the predicate answers one of the two keys of
    the path map or raises [AttributeError] or [TypeError]: the conditional
    edge never misses its path map, and it activates at most one of
    [detection_reasoning] and [visualization]. *)
Theorem predicate_stays_in_path_map (state : InvestigationState) :
  conditional_target state = Ok "detection_reasoning"
  \/ conditional_target state = Ok "visualization"
  \/ exists e, conditional_target state = Raise e
               /\ (exn_class e = "AttributeError" \/ exn_class e = "TypeError").
Proof.
  unfold conditional_target, should_run_detection_reasoning.
  destruct (iterate (get (detections state) "detections" (VList [])))
    as [items|e] eqn:Hit; simpl.
  - destruct (any_zero_components_outcome items) as [[b ->]|(e & -> & He)];
      simpl.
    + destruct b; simpl; eauto.
    + right. right. eauto.
  - right. right. exists e. split; [done|]. right.
    unfold iterate in Hit.
    destruct (get (detections state) "detections" (VList []));
      simplify_eq; done.
Qed.

(** ** The pool of tasks under the semaphore *)

Lemma progress_insert {R} (l : list (slot R)) (i : nat) (a b : slot R) :
  l !! i = Some a ->
  (foldr (fun s n => slot_progress s + n) 0 (<[i := b]> l) + slot_progress a
   = foldr (fun s n => slot_progress s + n) 0 l + slot_progress b)%nat.
Proof.
  revert i. induction l as [|c l IH]; intros [|i] H; simpl in *;
    try discriminate.
  - injection H as ->. lia.
  - specialize (IH i H). lia.
Qed.

Lemma gather_step_progress {R} (i : nat) (r : result R) (p p' : pool R) :
  gather_step i r p = Some p' -> pool_progress p' = S (pool_progress p).
Proof.
  intros Hstep. unfold gather_step in Hstep.
  destruct (slots p !! i) as [[| |r0]|] eqn:Hi; try discriminate.
  - destruct (0 <? sem_value p); [|discriminate]. injection Hstep as <-.
    pose proof (progress_insert (slots p) i _ Running Hi) as H.
    unfold pool_progress. simpl in *. lia.
  - injection Hstep as <-.
    pose proof (progress_insert (slots p) i _ (Done r) Hi) as H.
    unfold pool_progress. simpl in *. lia.
Qed.

Lemma gather_run_reachable {R} (sched : list (nat * result R)) :
  forall p0 p1 p : pool R,
    gather_reachable p0 p1 -> gather_run sched p1 = Some p ->
    gather_reachable p0 p.
Proof.
  induction sched as [|[i r] sched IH]; intros p0 p1 p Hr Hrun; simpl in Hrun.
  - by injection Hrun as <-.
  - destruct (gather_step i r p1) as [p2|] eqn:Hstep; [|discriminate].
    apply (IH p0 p2 p); [|done]. by apply (gather_next _ p1 i r).
Qed.

Lemma gather_run_progress {R} (sched : list (nat * result R)) :
  forall p0 p : pool R,
    gather_run sched p0 = Some p ->
    pool_progress p = (length sched + pool_progress p0)%nat.
Proof.
  induction sched as [|[i r] sched IH]; intros p0 p Hrun; simpl in Hrun.
  - by injection Hrun as <-.
  - destruct (gather_step i r p0) as [p1|] eqn:Hstep; [|discriminate].
    rewrite (IH p1 p Hrun), (gather_step_progress i r p0 p1 Hstep). simpl. lia.
Qed.

Lemma progress_start {R} (capacity : Z) (n : nat) :
  pool_progress (gather_start (R := R) capacity n) = 0%nat.
Proof. unfold pool_progress. simpl. induction n as [|n IH]; simpl; done. Qed.

(** The progress of a pool is at most 2 per task; below that, some task is
    still to be admitted or running; at that, every task is done. *)
Lemma progress_cases {R} (l : list (slot R)) :
  (foldr (fun s n => slot_progress s + n) 0 l <= 2 * length l)%nat
  /\ ((foldr (fun s n => slot_progress s + n) 0 l < 2 * length l)%nat ->
      exists i, l !! i = Some Pending \/ l !! i = Some Running)
  /\ (foldr (fun s n => slot_progress s + n) 0 l = 2 * length l ->
      is_Some (mapM slot_result l))%nat.
Proof.
  induction l as [|c l (IH1 & IH2 & IH3)]; simpl.
  - split; [lia|]. split; [lia|]. intros _. by eexists.
  - split; [destruct c; simpl; lia|]. split.
    + intros H. destruct c as [| |r].
      * exists 0%nat. by left.
      * exists 0%nat. by right.
      * destruct IH2 as [i Hi]; [simpl in H; lia|]. by exists (S i).
    + intros H. destruct c as [| |r]; simpl in H; try lia.
      destruct IH3 as [rs Hrs]; [lia|]. rewrite Hrs. by eexists.
Qed.

Lemma running_exists {R} (l : list (slot R)) :
  (0 < length (List.filter is_running l))%nat ->
  exists i, l !! i = Some Running.
Proof.
  induction l as [|c l IH]; simpl; [lia|]. destruct c as [| |r]; simpl.
  - intros H. destruct (IH H) as [i Hi]. by exists (S i).
  - intros _. by exists 0%nat.
  - intros H. destruct (IH H) as [i Hi]. by exists (S i).
Qed.

(** X16.  Under a semaphore of value at least 1 the tasks handed to
    [gather] cannot get stuck: a run of the [n] tasks takes at most [2 n]
    transitions (one admission and one completion per task); as long as
    fewer were taken, some task can move whatever its lookup answers; and
    after [2 n] of them [gather] has one result per task. *)
Theorem gather_completes {R} (capacity : Z) (n : nat)
    (sched : list (nat * result R)) (p : pool R) :
  0 < capacity ->
  gather_run sched (gather_start capacity n) = Some p ->
  (length sched <= 2 * n)%nat
  /\ ((length sched < 2 * n)%nat ->
      exists i, forall r, is_Some (gather_step i r p))
  /\ (length sched = (2 * n)%nat ->
      exists results, gathered p = Some results /\ length results = n).
Proof.
  intros Hcap Hrun.
  pose proof (gather_run_reachable sched _ _ p (gather_refl _) Hrun) as Hreach.
  destruct (gather_bound capacity n p ltac:(lia) Hreach) as (Hsem & Hpos & Hn).
  pose proof (gather_run_progress sched _ p Hrun) as Hprog.
  rewrite progress_start in Hprog.
  destruct (progress_cases (slots p)) as (H1 & H2 & H3).
  unfold pool_progress in Hprog. rewrite Hn in *.
  split; [lia|]. split.
  - intros Hlt.
    destruct (decide (0 < running p)%nat) as [Hrunning|Hnone].
    + destruct (running_exists (slots p) Hrunning) as [i Hi]. exists i.
      intros r. unfold gather_step. by rewrite Hi.
    + destruct H2 as [i [Hi|Hi]]; [lia| |].
      * exists i. intros r. unfold gather_step. rewrite Hi.
        replace (0 <? sem_value p) with true by (symmetry; apply Z.ltb_lt; lia).
        done.
      * exists i. intros r. unfold gather_step. by rewrite Hi.
  - intros Hall. destruct H3 as [rs Hrs]; [lia|]. exists rs. split; [done|].
    apply length_mapM in Hrs. congruence.
Qed.

Lemma gather_completes_witness :
  (length [(1%nat, Ok 7); (0%nat, Ok 7); (1%nat, Raise boom); (0%nat, Ok 8)]
   <= 2 * 2)%nat
  /\ ((length [(1%nat, Ok 7); (0%nat, Ok 7); (1%nat, Raise boom); (0%nat, Ok 8)]
       < 2 * 2)%nat ->
      exists i, forall r : result Z,
        is_Some (gather_step i r
                   {| sem_value := 2;
                      slots := [Done (Ok 8); Done (Raise boom)] |}))
  /\ (length [(1%nat, Ok 7); (0%nat, Ok 7); (1%nat, Raise boom); (0%nat, Ok 8)]
      = (2 * 2)%nat ->
      exists results,
        gathered {| sem_value := 2; slots := [Done (Ok 8); Done (Raise boom)] |}
        = Some results
        /\ length results = 2%nat).
Proof.
  apply (gather_completes 2 2
           [(1%nat, Ok 7); (0%nat, Ok 7); (1%nat, Raise boom); (0%nat, Ok 8)]).
  - lia.
  - reflexivity.
Defined.

(** X17.  [map_techniques] builds its semaphore from [concurrency] as it
    is.  With [concurrency = 0] no task is ever admitted: the pool never
    leaves its first state, and for a list of identifiers that is not empty
    [gather] never has its results, so the call does not return.
    ([enrich_with_mitigations] builds its semaphore from
    [max(1, concurrency)].) *)
Theorem zero_semaphore_blocks_every_task (technique_ids : list string)
    (p : pool (string * option dict)) :
  gather_reachable (map_techniques_pool technique_ids 0) p ->
  p = map_techniques_pool technique_ids 0
  /\ (forall i r, gather_step i r p = None)
  /\ (technique_ids <> [] -> gathered p = None).
Proof.
  unfold map_techniques_pool. intros Hr.
  assert (p = gather_start 0 (length technique_ids)) as ->.
  { induction Hr as [|p i r p' _ -> Hstep]; [done|].
    unfold gather_step in Hstep. simpl in Hstep.
    destruct (replicate (length technique_ids) Pending !! i) as [sl|] eqn:Hi;
      [|discriminate].
    apply lookup_replicate in Hi as [-> _]. discriminate. }
  split; [done|]. split.
  - intros i r. unfold gather_step. simpl.
    destruct (replicate (length technique_ids) Pending !! i) as [sl|] eqn:Hi;
      [|done].
    by apply lookup_replicate in Hi as [-> _].
  - intros Hn. destruct technique_ids as [|tid ids]; [done|]. reflexivity.
Qed.

Lemma zero_semaphore_blocks_every_task_witness :
  map_techniques_pool ["T1059.001"; "T9999"] 0
  = map_techniques_pool ["T1059.001"; "T9999"] 0
  /\ (forall i r, gather_step i r (map_techniques_pool ["T1059.001"; "T9999"] 0)
                  = None)
  /\ (["T1059.001"; "T9999"] <> [] ->
      gathered (map_techniques_pool ["T1059.001"; "T9999"] 0) = None).
Proof.
  apply (zero_semaphore_blocks_every_task ["T1059.001"; "T9999"]
           (map_techniques_pool ["T1059.001"; "T9999"] 0)).
  apply gather_refl.
Defined.

(** ** The intel agent *)

Lemma enrich_loop_returns (call_tool : nat -> string -> dict -> result value)
    (domain : string) (max_items : Z) (techniques : list dict) :
  forall n enriched entries n',
    enrich_loop call_tool n techniques domain max_items enriched
    = (Ok entries, n') ->
    n' = (n + 2 * length (List.filter has_stix techniques))%nat
    /\ exists new,
         entries = enriched ++ new
         /\ (fun e => _safe_get e ["technique"; "stix_id"] VNone) <$> new
            = (fun t => get t "stix_id" VNone)
                <$> List.filter has_stix techniques.
Proof.
  induction techniques as [|t rest IH]; intros n enriched entries n' H;
    simpl in H.
  - injection H as <- <-. split; [simpl; lia|]. exists [].
    by rewrite app_nil_r.
  - simpl. destruct (has_stix t) eqn:Hstix; unfold has_stix in Hstix;
      rewrite Hstix in H; simpl in H.
    + destruct (call_tool n _ _) as [groups_resp|e]; [|discriminate].
      destruct (call_tool (S n) _ _) as [software_resp|e]; [|discriminate].
      apply IH in H as (-> & new & -> & Hnew). split; [simpl; lia|].
      eexists (_ :: new). rewrite <- app_assoc. split; [done|].
      simpl. f_equal. exact Hnew.
    + apply IH in H as (-> & new & -> & Hnew). split; [lia|]. by exists new.
Qed.

(** X18.  When the intel agent returns, it has made exactly two calls per
    technique whose STIX id counts as true and none for the others, and its
    ["intel"] list holds one entry per such technique, in their order and
    under their STIX ids: a confirmed technique without STIX id is left out
    without a word. *)
Theorem intel_covers_techniques_with_stix
    (call_tool : nat -> string -> dict -> result value)
    (confirmed_techniques : list dict) (domain : string) (max_items : Z)
    (out : dict) (n : nat) :
  enrich_with_groups_and_software call_tool confirmed_techniques domain
    max_items = (Ok out, n) ->
  n = (2 * length (List.filter has_stix confirmed_techniques))%nat
  /\ exists entries,
       out = {[ "domain" := VStr domain; "intel" := VList entries ]}
       /\ length entries = length (List.filter has_stix confirmed_techniques)
       /\ (fun e => _safe_get e ["technique"; "stix_id"] VNone) <$> entries
          = (fun t => get t "stix_id" VNone)
              <$> List.filter has_stix confirmed_techniques.
Proof.
  unfold enrich_with_groups_and_software. intros H.
  destruct (enrich_loop call_tool 0 confirmed_techniques domain max_items [])
    as [[entries|e] n'] eqn:Hloop; [|discriminate].
  injection H as <- <-.
  apply enrich_loop_returns in Hloop as (-> & new & -> & Hnew).
  split; [lia|]. exists new. split; [done|]. split; [|done].
  apply (f_equal length) in Hnew. by rewrite !length_fmap in Hnew.
Qed.

Lemma intel_covers_techniques_with_stix_witness :
  exists out n,
    enrich_with_groups_and_software tool_answers
      [technique_1; technique_without_stix; technique_2] "enterprise" 8
    = (Ok out, n)
    /\ n = (2 * length (List.filter has_stix
                          [technique_1; technique_without_stix; technique_2]))%nat
    /\ exists entries,
         out = {[ "domain" := VStr "enterprise"; "intel" := VList entries ]}
         /\ length entries
            = length (List.filter has_stix
                        [technique_1; technique_without_stix; technique_2])
         /\ (fun e => _safe_get e ["technique"; "stix_id"] VNone) <$> entries
            = (fun t => get t "stix_id" VNone)
                <$> List.filter has_stix
                      [technique_1; technique_without_stix; technique_2].
Proof.
  eexists _, _. split; [reflexivity|].
  apply (intel_covers_techniques_with_stix tool_answers
           [technique_1; technique_without_stix; technique_2] "enterprise" 8).
  reflexivity.
Defined.

End WorkflowMoreFacts.

(** * Properties of the agents' lookups and helpers *)

Module AgentsFacts.
Import Workflow WorkflowMore Agents WorkflowFacts.

(** ** Text *)

Lemma len_nonneg (s : string) : 0 <= len s.
Proof. induction s as [|c s IH]; simpl; [lia|]. destruct (is_continuation c); lia. Qed.

Lemma len_app (a b : string) : len (a ++ b) = len a + len b.
Proof. induction a as [|c a IH]; simpl; [done|]. rewrite IH. lia. Qed.

Lemma len_take_chars (k : nat) (s : string) :
  len (take_chars k s) <= Z.of_nat k /\ len (take_chars k s) <= len s.
Proof.
  revert k. induction s as [|c s IH]; intros k; simpl; [lia|].
  destruct (is_continuation c) eqn:Hc.
  - simpl. rewrite Hc. specialize (IH k). lia.
  - destruct k as [|k].
    + simpl. pose proof (len_nonneg s). lia.
    + simpl. rewrite Hc. specialize (IH k). lia.
Qed.

Lemma len_str_slice_to (k : Z) (s : string) :
  (0 <= k -> len (str_slice_to k s) <= k)
  /\ (k < 0 -> len (str_slice_to k s) <= Z.max 0 (len s + k))
  /\ len (str_slice_to k s) <= len s.
Proof.
  unfold str_slice_to. destruct (0 <=? k) eqn:Hk.
  - apply Z.leb_le in Hk. pose proof (len_take_chars (Z.to_nat k) s). lia.
  - apply Z.leb_gt in Hk.
    pose proof (len_take_chars (Z.to_nat (len s + k)) s). lia.
Qed.

Lemma len_ellipsis : len ellipsis = 1.
Proof. reflexivity. Qed.

Lemma truncate_text_fits (text : string) (max_len : Z) :
  1 <= max_len ->
  len (if len text <=? max_len then text
       else str_slice_to (max_len - 1) text ++ ellipsis) <= max_len.
Proof.
  intros Hmax. destruct (len text <=? max_len) eqn:Hlen.
  - by apply Z.leb_le in Hlen.
  - rewrite len_app, len_ellipsis.
    pose proof (len_str_slice_to (max_len - 1) text). lia.
Qed.

Lemma truncate_str_len (repr : value -> string) (s : value) (max_len : Z) :
  1 <= max_len -> len (_truncate_str repr s max_len) <= max_len.
Proof.
  intros Hmax. unfold _truncate_str.
  destruct s; try (simpl; lia); by apply truncate_text_fits.
Qed.

(** X19.  [_truncate_str] keeps its promise for every bound of at least 1:
    the text it returns has at most [max_len] characters, whatever object it
    is given, and a text that fits is returned as it is. *)
Theorem truncate_str_fits (repr : value -> string) (s : value) (max_len : Z) :
  1 <= max_len ->
  len (_truncate_str repr s max_len) <= max_len
  /\ (forall text, s = VStr text -> len text <= max_len ->
      _truncate_str repr s max_len = text).
Proof.
  intros Hmax. split.
  - by apply truncate_str_len.
  - intros text -> Hlen. unfold _truncate_str. simpl.
    by replace (len text <=? max_len) with true
      by (symmetry; by apply Z.leb_le).
Qed.

Lemma truncate_str_fits_witness :
  len (_truncate_str (fun _ => "") (VStr "déjà vu, encore") 7) <= 7
  /\ (forall text, VStr "déjà vu, encore" = VStr text -> len text <= 7 ->
      _truncate_str (fun _ => "") (VStr "déjà vu, encore") 7 = text).
Proof. apply (truncate_str_fits (fun _ => "") (VStr "déjà vu, encore") 7). lia. Defined.

(** Characters are counted, not bytes; and a bound of 0 is not kept. *)
Example truncate_str_example :
  _truncate_str (fun _ => "") (VStr "déjà vu, encore") 7 = "déjà v…"
  /\ len (_truncate_str (fun _ => "") (VStr "déjà vu") 0) = 7.
Proof. split; reflexivity. Qed.

(** ** The sanitizer of the reasoning agent *)

Lemma truncate_str_within (repr : value -> string) (s : value) (max_len : Z) :
  1 <= max_len ->
  is_text_within max_len (VStr (_truncate_str repr s max_len)) = true.
Proof.
  intros H. simpl. apply Z.leb_le. by apply truncate_str_len.
Qed.

Lemma omap_length_le {A B} (f : A -> option B) (l : list A) :
  (length (omap f l) <= length l)%nat.
Proof.
  induction l as [|x l IH]; [done|]. csimpl. destruct (f x); simpl; lia.
Qed.

Lemma forallb_within (max_length : Z) (l : list string) :
  Forall (fun s => len s <= max_length) l ->
  forallb (is_text_within max_length) (VStr <$> l) = true.
Proof.
  induction 1 as [|s l Hs _ IH]; simpl; [done|].
  apply andb_true_iff. split; [by apply Z.leb_le | exact IH].
Qed.

Lemma default_telemetry_within :
  Forall (fun s => len s <= 140) default_telemetry.
Proof. repeat constructor; by vm_compute. Qed.

Lemma sanitize_hypothesis_within (repr : value -> string)
    (strip lower : string -> string) (h : dict) :
  hypothesis_within_schema (VDict (sanitize_hypothesis repr strip lower h))
  = true.
Proof.
  unfold hypothesis_within_schema, sanitize_hypothesis.
  set (tel := slice_to 8 _).
  assert (length tel <= 8)%nat as Hlen.
  { unfold tel, slice_to. simpl. rewrite length_take. lia. }
  assert (Forall (fun s => len s <= 140) tel) as Hall.
  { unfold tel, slice_to. simpl. apply Forall_take, Forall_fmap, Forall_forall.
    intros x _. simpl. by apply truncate_str_len. }
  clearbody tel. unfold get. simplify_map_eq.
  rewrite !andb_true_iff. repeat split.
  - apply Z.leb_le. by apply truncate_str_len.
  - destruct tel as [|a [|b tel]]; done.
  - destruct tel as [|a [|b tel]]; simpl; try done.
    rewrite length_fmap. simpl in Hlen.
    destruct (length tel) as [|[|[|[|[|[|[|n]]]]]]] eqn:E; simpl; try done. lia.
  - apply forallb_within.
    destruct tel as [|a [|b tel]]; simpl; try done.
    + apply default_telemetry_within.
    + inversion_clear Hall. repeat constructor; [done|]. by vm_compute.
  - apply Z.leb_le. by apply truncate_str_len.
  - apply bool_decide_eq_true. case_bool_decide; [done|].
    unfold confidence_values. set_solver.
Qed.

(** X20.  Whatever dict the model's answer was parsed to, the dict that
    [_sanitize_llm_payload] returns is within the limits of the schema:
    identifier and name of at most 140 characters, between 1 and 5
    hypotheses, each with a title of at most 140 characters, between 2 and 8
    telemetry items of at most 140 characters, a rationale of at most 400
    characters and a confidence that is low, medium or high. *)
Theorem sanitized_payload_within_schema (repr : value -> string)
    (strip lower : string -> string) (payload : dict) :
  within_schema (_sanitize_llm_payload repr strip lower payload) = true.
Proof.
  unfold within_schema, _sanitize_llm_payload.
  set (raw := slice_to 5 _).
  assert (length raw <= 5)%nat as Hlen.
  { unfold raw, slice_to. simpl. rewrite length_take. lia. }
  clearbody raw. unfold get. simplify_map_eq.
  set (clean := omap _ raw).
  assert (length clean <= 5)%nat as Hclean.
  { unfold clean. etransitivity; [apply omap_length_le | exact Hlen]. }
  assert (forallb hypothesis_within_schema clean = true) as Hall.
  { unfold clean. clear. induction raw as [|x raw IH]; [done|]. csimpl.
    destruct x; try exact IH. csimpl.
    apply andb_true_iff. split; [apply sanitize_hypothesis_within | exact IH]. }
  clearbody clean.
  rewrite !andb_true_iff. repeat split.
  - apply Z.leb_le. by apply truncate_str_len.
  - apply Z.leb_le. by apply truncate_str_len.
  - by destruct clean.
  - destruct clean as [|c clean]; [done|]. simpl in *.
    destruct (length clean) as [|[|[|[|[|n]]]]]; try done. lia.
  - destruct clean as [|c clean]; [|done]. by vm_compute.
Qed.

(** ** [_dedupe_str_list] *)

Lemma dedupe_loop_result (strip lower : string -> string) (max_items : Z)
    (xs : list value) :
  forall out seen res,
    dedupe_loop strip lower xs max_items out seen = Ok res ->
    (forall k, k ∈ seen <-> k ∈ lower <$> out) ->
    NoDup (lower <$> out) ->
    out = [] \/ Z.of_nat (length out) < max_items ->
    NoDup (lower <$> res)
    /\ Z.of_nat (length res) <= Z.max 1 max_items
    /\ exists new, res = out ++ new /\ Forall (kept_from strip xs) new.
Proof.
  induction xs as [|x xs IH]; intros out seen res Hres Hseen Hnd Hlen;
    simpl in Hres.
  - injection Hres as <-. split; [done|]. split.
    + destruct Hlen as [->|Hlen]; simpl; lia.
    + exists []. by rewrite app_nil_r.
  - assert (forall new, Forall (kept_from strip xs) new ->
                        Forall (kept_from strip (x :: xs)) new) as Hweak.
    { intros new H. eapply Forall_impl; [exact H|].
      intros s0 (Hne & y & text & Hy & Htext & ->).
      split; [done|]. exists y, text. split; [by right | done]. }
    destruct (py_or x (VStr "")) as [| | |text| |] eqn:Hx; try discriminate.
    destruct (String.eqb (strip text) "") eqn:Hempty; simpl in Hres.
    { destruct (IH out seen res Hres Hseen Hnd Hlen)
        as (H1 & H2 & new & -> & H3).
      eauto 10. }
    apply String.eqb_neq in Hempty.
    assert (kept_from strip (x :: xs) (strip text)) as Hkept.
    { split; [done|]. exists x, text. split; [by left | done]. }
    case_bool_decide as Hk.
    { destruct (IH out seen res Hres Hseen Hnd Hlen)
        as (H1 & H2 & new & -> & H3).
      eauto 10. }
    assert (NoDup (lower <$> out ++ [strip text])) as Hnd'.
    { rewrite fmap_app. apply NoDup_app. split; [done|]. split.
      - intros k Hin Hin'. apply list_elem_of_singleton in Hin' as ->.
        apply Hk, Hseen, Hin.
      - apply NoDup_singleton. }
    destruct (max_items <=? Z.of_nat (length (out ++ [strip text]))) eqn:Hfull.
    + injection Hres as <-. split; [done|]. split.
      * rewrite length_app. simpl. destruct Hlen as [->|Hlen]; simpl; lia.
      * exists [strip text]. split; [done|]. by constructor.
    + apply Z.leb_gt in Hfull.
      destruct (IH _ _ res Hres) as (H1 & H2 & new & -> & H3).
      * intros k. rewrite fmap_app, elem_of_union, elem_of_singleton,
          elem_of_app, Hseen. simpl. rewrite list_elem_of_singleton. tauto.
      * done.
      * by right.
      * split; [done|]. split; [done|]. exists (strip text :: new).
        rewrite <- app_assoc. split; [done|]. constructor; [done|].
        by apply Hweak.
Qed.

(** X21.  What [_dedupe_str_list] returns holds no two texts that are equal
    when lowered, only stripped non-empty texts of its input, and at most
    [max_items] of them, but one for a [max_items] below 1: the bound is
    tested after an item was added. *)
Theorem dedupe_str_list_result (strip lower : string -> string)
    (xs : list value) (max_items : Z) (out : list string) :
  _dedupe_str_list strip lower xs max_items = Ok out ->
  NoDup (lower <$> out)
  /\ Z.of_nat (length out) <= Z.max 1 max_items
  /\ Forall (kept_from strip xs) out.
Proof.
  intros H. apply dedupe_loop_result in H as (H1 & H2 & new & -> & H3).
  - done.
  - intros k. simpl. rewrite elem_of_empty, elem_of_nil. tauto.
  - simpl. apply NoDup_nil_2.
  - by left.
Qed.

Lemma dedupe_str_list_result_witness :
  exists out,
    _dedupe_str_list (fun s => s) (fun s => s)
      [VStr "rundll32"; VNone; VStr "schtasks"; VStr "rundll32"] 0 = Ok out
    /\ NoDup ((fun s => s) <$> out)
    /\ Z.of_nat (length out) <= Z.max 1 0
    /\ Forall (kept_from (fun s => s)
                 [VStr "rundll32"; VNone; VStr "schtasks"; VStr "rundll32"])
              out.
Proof.
  eexists. split; [reflexivity|].
  apply (dedupe_str_list_result (fun s => s) (fun s => s)
           [VStr "rundll32"; VNone; VStr "schtasks"; VStr "rundll32"] 0).
  reflexivity.
Defined.

(** A bound of 0 lets one text through; a number among the items raises. *)
Example dedupe_str_list_example :
  _dedupe_str_list (fun s => s) (fun s => s)
    [VStr "rundll32"; VNone; VStr "schtasks"; VStr "rundll32"] 0
  = Ok ["rundll32"]
  /\ _dedupe_str_list (fun s => s) (fun s => s)
       [VStr "rundll32"; VNone; VStr "schtasks"; VStr "rundll32"] 5
     = Ok ["rundll32"; "schtasks"]
  /\ _dedupe_str_list (fun s => s) (fun s => s) [VStr "rundll32"; VInt 7] 5
     = Raise (mk_exn "AttributeError" "'int' object has no attribute 'strip'").
Proof. repeat split; reflexivity. Qed.

(** ** The detection agent and the conditional edge *)

Lemma fallback_block (repr : value -> string) (strip : string -> string)
    (split : string -> list string)
    (call_tool : string -> dict -> result value) (stix_id : value)
    (domain : string) (fallback : dict) :
  _fallback_detection_from_technique_object repr strip split call_tool stix_id
    domain = Ok fallback ->
  (fallback ∪ {[ "mode" := VStr "fallback_technique_detection" ]})
    !! "total_datacomponents" = None
  /\ (fallback ∪ {[ "mode" := VStr "fallback_technique_detection" ]}) !! "mode"
     = Some (VStr "fallback_technique_detection").
Proof.
  unfold _fallback_detection_from_technique_object.
  destruct (call_tool _ _) as [obj_resp|e]; [|discriminate]. simpl.
  destruct (py_or _ obj_resp); intros H; injection H as <-;
    rewrite !lookup_union; by simplify_map_eq.
Qed.

Lemma entry_routed (t : dict) (stix_id : value) (block : dict) :
  exists d,
    detection_entry t stix_id block = VDict d
    /\ get d "detection" (VDict ∅) = VDict block
    /\ _safe_get (detection_entry t stix_id block) ["detection"; "mode"] VNone
       = default VNone (block !! "mode").
Proof.
  eexists. split; [reflexivity|]. unfold get. simpl. simplify_map_eq.
  split; [done|]. by destruct (block !! "mode").
Qed.

Lemma detection_loop_routed (repr : value -> string)
    (int_of : value -> result Z) (strip : string -> string)
    (split : string -> list string)
    (call_tool : nat -> string -> dict -> result value)
    (domain : string) (max_items : Z) (techniques : list dict) :
  forall n out res n',
    detection_loop repr int_of strip split call_tool n techniques domain
      max_items out = (Ok res, n') ->
    exists new,
      res = out ++ new
      /\ length new = length (List.filter has_stix techniques)
      /\ Forall (fun e => exists d dd,
                   e = VDict d
                   /\ get d "detection" (VDict ∅) = VDict dd
                   /\ eq_zero (get dd "total_datacomponents" (VInt 0))
                      = uses_fallback e) new.
Proof.
  induction techniques as [|t rest IH]; intros n out res n' H; simpl in H.
  - injection H as <- <-. exists []. by rewrite app_nil_r.
  - simpl. destruct (has_stix t) eqn:Hstix; unfold has_stix in Hstix;
      rewrite Hstix in H; simpl in H; [|by apply IH in H].
    destruct (call_tool n _ _) as [resp|e]; [|discriminate].
    destruct (count_and_components _ _) as [[count datacomponents]|e];
      [|discriminate].
    destruct (_extract_component_names repr datacomponents max_items)
      as [top_names total].
    destruct ((count =? 0) || (total =? 0)) eqn:Hzero.
    + destruct (_fallback_detection_from_technique_object _ _ _ _ _ _)
        as [fallback|e] eqn:Hfb; [|discriminate].
      apply IH in H as (new & -> & Hlen & Hall).
      apply fallback_block in Hfb as [Htotal Hmode].
      eexists (_ :: new). rewrite <- app_assoc. split; [done|].
      split; [simpl; by rewrite Hlen|]. constructor; [|done].
      destruct (entry_routed t (get t "stix_id" VNone)
                  (fallback ∪ {[ "mode" := VStr "fallback_technique_detection" ]}))
        as (d & Hd & Hdet & Hsafe).
      eexists d, _. split; [exact Hd|]. split; [exact Hdet|].
      unfold uses_fallback. rewrite Hsafe, Hmode. unfold get.
      by rewrite Htotal.
    + apply IH in H as (new & -> & Hlen & Hall).
      eexists (_ :: new). rewrite <- app_assoc. split; [done|].
      split; [simpl; by rewrite Hlen|]. constructor; [|done].
      apply orb_false_iff in Hzero as [_ Htotal].
      destruct (entry_routed t (get t "stix_id" VNone)
                  {[ "mode" := VStr "datacomponents";
                     "total_datacomponents" := VInt total;
                     "top_datacomponents" := VList (VStr <$> top_names) ]})
        as (d & Hd & Hdet & Hsafe).
      eexists d, _. split; [exact Hd|]. split; [exact Hdet|].
      unfold uses_fallback. rewrite Hsafe. unfold get. by simplify_map_eq.
Qed.

Lemma routed_any_zero (items : list value) :
  Forall (fun e => exists d dd,
            e = VDict d
            /\ get d "detection" (VDict ∅) = VDict dd
            /\ eq_zero (get dd "total_datacomponents" (VInt 0))
               = uses_fallback e) items ->
  any_zero_components items = Ok (existsb uses_fallback items).
Proof.
  induction 1 as [|e items (d & dd & -> & Hd & Hz) _ IH]; [done|].
  simpl. rewrite Hd. simpl. rewrite Hz.
  destruct (uses_fallback (VDict d)); [done|]. by rewrite IH.
Qed.

(** X22.  On what the detection agent returns the predicate of the
    conditional edge never raises, and it answers "detection_reasoning"
    exactly when some technique was answered from the fallback (the tool
    reported a count of 0 or no named data component): the block of such a
    technique has no ["total_datacomponents"], which the predicate reads as
    0.  The list holds one entry per technique with a STIX id. *)
Theorem detection_output_routes (repr : value -> string)
    (int_of : value -> result Z) (strip : string -> string)
    (split : string -> list string)
    (call_tool : nat -> string -> dict -> result value)
    (confirmed : list dict) (domain : string) (max_items : Z)
    (out : dict) (n : nat) (state : InvestigationState) :
  recommend_detection_telemetry repr int_of strip split call_tool confirmed
    domain max_items = (Ok out, n) ->
  detections state = out ->
  exists entries,
    out !! "detections" = Some (VList entries)
    /\ length entries = length (List.filter has_stix confirmed)
    /\ should_run_detection_reasoning state
       = Ok (if existsb uses_fallback entries
             then "detection_reasoning" else "visualization").
Proof.
  unfold recommend_detection_telemetry. intros H Hstate.
  destruct (detection_loop _ _ _ _ _ _ _ _ _ _) as [[entries|e] n'] eqn:Hloop;
    [|discriminate].
  injection H as <- <-.
  apply detection_loop_routed in Hloop as (new & -> & Hlen & Hall).
  exists new. split; [by simplify_map_eq|]. split; [done|].
  unfold should_run_detection_reasoning. rewrite Hstate. unfold get.
  simplify_map_eq. simpl. by rewrite (routed_any_zero new Hall).
Qed.

Lemma detection_output_routes_witness :
  exists entries,
    ({[ "domain" := VStr "enterprise";
        "detections" := VList detection_example_entries ]} : dict)
      !! "detections" = Some (VList entries)
    /\ length entries
       = length (List.filter has_stix
                   [technique_1; technique_without_stix; technique_2])
    /\ should_run_detection_reasoning
         (state_with_detections detection_example_entries)
       = Ok (if existsb uses_fallback entries
             then "detection_reasoning" else "visualization").
Proof.
  apply (detection_output_routes repr_unused int_of_rejects strip_nothing
           (split_spaces "") detection_tool
           [technique_1; technique_without_stix; technique_2] "enterprise" 7
           _ 3 (state_with_detections detection_example_entries));
    reflexivity.
Defined.

(** The first technique is answered from its data components, the second
    from the guidance of its technique object: reasoning runs. *)
Example detection_example_routes :
  uses_fallback <$> detection_example_entries = [false; true]
  /\ should_run_detection_reasoning
       (state_with_detections detection_example_entries)
     = Ok "detection_reasoning".
Proof. split; reflexivity. Qed.

(** ** The lookups of the mapping and mitigation agents *)

Lemma technique_details_shape (call_tool : string -> dict -> result value)
    (technique_id domain : string) (include_description : bool) (t : dict) :
  _fetch_technique_details call_tool technique_id domain include_description
  = Ok (Some t) ->
  confirmed_shape include_description t.
Proof.
  unfold _fetch_technique_details, mbind, result_bind.
  destruct (call_tool "get_technique_by_id" _) as [detail|e]; [|discriminate].
  destruct (_safe_get detail ["result"] detail) as [| | | | |payload];
    try discriminate.
  destruct (negb (truthy (get payload "found" VNone))); [discriminate|].
  destruct (get payload "technique" (VDict ∅)) as [| | | | |tech];
    try discriminate.
  destruct (call_tool "get_technique_tactics" _) as [tactics_resp|e];
    [|discriminate].
  intros H. injection H as <-. split; [|split].
  - rewrite !dom_insert_L, dom_singleton_L. unfold technique_keys. simpl.
    set_solver.
  - simplify_map_eq.
    match goal with
    | |- context [match ?x with VList _ => _ | _ => _ end] => destruct x
    end; eauto.
  - intros ->. by simplify_map_eq.
Qed.

Lemma Forall_omap_imap {A B C} (P : C -> Prop) (g : B -> option C)
    (l : list A) :
  forall f : nat -> A -> B,
    (forall i x t, g (f i x) = Some t -> P t) ->
    Forall P (omap g (imap f l)).
Proof.
  induction l as [|x l IH]; intros f H; [constructor|]. csimpl.
  destruct (g (f 0%nat x)) as [t|] eqn:E.
  - constructor; [by apply (H 0%nat x)|]. apply IH. intros i y. apply H.
  - apply IH. intros i y. apply H.
Qed.

(** X23.  Whatever the server answers, every technique that
    [map_techniques] confirms through [_fetch_technique_details] has exactly
    the keys id, name, stix_id, description and tactics; its tactics are a
    list, also when the answer about the tactics has another form; and its
    description is [None] when none was asked for. *)
Theorem confirmed_techniques_are_well_formed
    (call_tool : nat -> string -> dict -> result value)
    (technique_ids : list string) (domain : string)
    (include_description : bool) (concurrency : Z) (out : mapping_output) :
  map_techniques
    (fun i tid domain include_description =>
       _fetch_technique_details (call_tool i) tid domain include_description)
    technique_ids domain include_description concurrency = Some (Ok out) ->
  Forall (confirmed_shape include_description) (m_confirmed_techniques out).
Proof.
  unfold map_techniques. destruct technique_ids as [|tid ids].
  { intros H. injection H as <-. constructor. }
  destruct (Semaphore concurrency) as [sem|e]; [|discriminate].
  destruct (sem =? 0); [discriminate|]. intros H. injection H as <-.
  unfold map_techniques_finish. rewrite map_techniques_collect_spec. simpl.
  apply (Forall_omap_imap _ found_technique (tid :: ids)).
  intros i x t. unfold _fetch_with_limit, found_technique.
  destruct (_fetch_technique_details _ _ _ _) as [[t'|]|e] eqn:E;
    try discriminate.
  intros H. injection H as <-. by apply technique_details_shape in E.
Qed.

Lemma confirmed_techniques_are_well_formed_witness :
  exists out,
    map_techniques
      (fun i tid domain include_description =>
         _fetch_technique_details (mapping_tool i) tid domain
           include_description)
      ["T1059.001"; "T9999"] "enterprise" false 10 = Some (Ok out)
    /\ Forall (confirmed_shape false) (m_confirmed_techniques out).
Proof.
  eexists. split; [reflexivity|].
  apply (confirmed_techniques_are_well_formed mapping_tool
           ["T1059.001"; "T9999"] "enterprise" false 10).
  reflexivity.
Defined.

(** The tactics came as a text and are replaced by the empty list; the
    description is dropped. *)
Example mapping_tool_example :
  map_techniques
    (fun i tid domain include_description =>
       _fetch_technique_details (mapping_tool i) tid domain include_description)
    ["T1059.001"; "T9999"] "enterprise" false 10
  = Some (Ok {| m_domain := "enterprise";
                m_confirmed_techniques :=
                  [ {[ "id" := VStr "T1059.001"; "name" := VStr "PowerShell";
                       "stix_id" := VNone; "description" := VNone;
                       "tactics" := VList [] ]} ];
                m_not_found := ["T9999"];
                m_errors := Some [] |}).
Proof. reflexivity. Qed.

(** X24.  [_fetch_mitigations_for_technique] lists one mitigation per item
    of the answer, and takes the count from the answer when it has one: the
    count is the server's number, also when it differs from the number of
    mitigations listed, and the number listed when the answer has no
    ["count"].  A technique without STIX id is not looked up. *)
Theorem mitigation_count_is_the_servers (int_of : value -> result Z)
    (call_tool : string -> dict -> result value) (technique : dict)
    (domain : string) (include_description : bool) (e : mitigation_entry) :
  _fetch_mitigations_for_technique int_of call_tool technique domain
    include_description = Ok (Some e) ->
  has_stix technique = true
  /\ exists resp payload,
       call_tool "get_mitigations_mitigating_technique"
         {[ "technique_stix_id" := get technique "stix_id" VNone;
            "domain" := VStr domain;
            "include_description" := VBool include_description ]} = Ok resp
       /\ _safe_get resp ["result"] resp = VDict payload
       /\ length (me_mitigations e)
          = length (list_or_empty (get payload "mitigations" (VList [])))
       /\ (payload !! "count" = None ->
           me_count e = Z.of_nat (length (me_mitigations e)))
       /\ (forall n, payload !! "count" = Some (VInt n) -> me_count e = n).
Proof.
  unfold _fetch_mitigations_for_technique, mbind, result_bind, has_stix.
  destruct (truthy (get technique "stix_id" VNone)); [|discriminate].
  cbn [negb]. destruct (call_tool _ _) as [resp|e0]; [|discriminate].
  destruct (_safe_get resp ["result"] resp) as [| | | | |payload] eqn:Hp;
    try (intros; discriminate).
  destruct (int int_of _) as [count|e0] eqn:Hcount; [|discriminate].
  intros H. injection H as <-. split; [done|]. exists resp, payload.
  split; [done|]. split; [done|]. simpl. rewrite length_fmap.
  split; [done|]. unfold get in Hcount. split.
  - intros Hnone. rewrite Hnone in Hcount. simpl in Hcount.
    rewrite length_fmap in Hcount. by injection Hcount as <-.
  - intros n Hn. rewrite Hn in Hcount. simpl in Hcount.
    by injection Hcount as <-.
Qed.

Lemma mitigation_count_is_the_servers_witness :
  exists e,
    _fetch_mitigations_for_technique int_of_rejects mitigation_tool
      technique_1 "enterprise" false = Ok (Some e)
    /\ me_count e = 5
    /\ length (me_mitigations e) = 1%nat.
Proof.
  eexists. split; [reflexivity|].
  destruct (mitigation_count_is_the_servers int_of_rejects mitigation_tool
              technique_1 "enterprise" false _ eq_refl)
    as (_ & resp & payload & Hresp & Hpayload & Hlen & _ & Hcount).
  injection Hresp as <-. injection Hpayload as <-.
  split; [by apply Hcount | exact Hlen].
Defined.

(** A count that is no number makes the lookup raise; the technique is
    then missing from the mitigations and its error is listed. *)
Example null_count_example :
  mo_mitigations
    (enrich_with_mitigations
       (fun i => _fetch_mitigations_for_technique int_of_rejects
                   mitigation_tool_null_count)
       [technique_1] "enterprise" false 10) = []
  /\ mo_errors
       (enrich_with_mitigations
          (fun i => _fetch_mitigations_for_technique int_of_rejects
                      mitigation_tool_null_count)
          [technique_1] "enterprise" false 10)
     = ["int() argument must be a string, a bytes-like object or a real number, not 'NoneType'"].
Proof. split; reflexivity. Qed.

Lemma sum_ones {A} (l : list A) :
  sum_list ((fun _ => 1) <$> l) = Z.of_nat (length l).
Proof. induction l as [|x l IH]; [done|]. csimpl. unfold sum_list in *. simpl. lia. Qed.

Lemma length_omap_two {A B C} (f : A -> option B) (g : A -> option C)
    (l : list A) :
  (forall x, f x = None \/ g x = None) ->
  (length (omap f l) + length (omap g l) <= length l)%nat.
Proof.
  intros H. induction l as [|x l IH]; [done|]. csimpl.
  destruct (H x) as [-> | ->]; destruct (f x), (g x); simpl; lia.
Qed.

Lemma sum_positive_counts (out : list mitigation_entry) :
  Forall (fun e => 0 <= me_count e) out ->
  Z.of_nat (length (filter (fun item => 0 < me_count item) out))
  <= sum_list (me_count <$> out).
Proof.
  induction 1 as [|e out He _ IH]; [done|]. csimpl. unfold sum_list in *.
  rewrite filter_cons. simpl. case_decide; simpl; lia.
Qed.

(** X25.  The summary of [enrich_with_mitigations] is consistent with its
    lists: [total_techniques] counts every technique handed in, also those
    skipped or failed; every technique ends up at most once in the
    mitigations or in the errors; [with_mitigations] is at most the number
    of entries; and it is at most [total_mitigations] as long as no count is
    negative. *)
Theorem mitigation_summary_is_consistent
    (fetch : nat -> dict -> string -> bool -> result (option mitigation_entry))
    (confirmed : list dict) (domain : string) (include_description : bool)
    (concurrency : Z) :
  let o := enrich_with_mitigations fetch confirmed domain include_description
             concurrency in
  total_techniques (mo_summary o) = Z.of_nat (length confirmed)
  /\ (length (mo_mitigations o) + length (mo_errors o) <= length confirmed)%nat
  /\ 0 <= with_mitigations (mo_summary o)
       <= Z.of_nat (length (mo_mitigations o))
  /\ (Forall (fun e => 0 <= me_count e) (mo_mitigations o) ->
      with_mitigations (mo_summary o) <= total_mitigations (mo_summary o)).
Proof.
  unfold enrich_with_mitigations. destruct confirmed as [|t ts].
  { simpl. repeat split; try lia. }
  unfold enrich_with_mitigations_finish.
  rewrite mitigations_collect_spec. cbn [mo_summary mo_mitigations mo_errors
    total_techniques with_mitigations total_mitigations app].
  set (results := imap _ (t :: ts)).
  assert (length results = length (t :: ts)) as Hres
    by (unfold results; by rewrite length_imap).
  rewrite <- Hres, sum_ones. split; [done|]. split; [|split].
  - apply length_omap_two. intros [[e|]|e]; simpl; auto.
  - split; [lia|]. apply Nat2Z.inj_le, length_filter.
  - apply sum_positive_counts.
Qed.

Lemma mitigation_summary_is_consistent_witness :
  with_mitigations
    (mo_summary
       (enrich_with_mitigations
          (fun i => _fetch_mitigations_for_technique int_of_rejects
                      mitigation_tool)
          [technique_1; technique_without_stix] "enterprise" false 10))
  <= total_mitigations
       (mo_summary
          (enrich_with_mitigations
             (fun i => _fetch_mitigations_for_technique int_of_rejects
                         mitigation_tool)
             [technique_1; technique_without_stix] "enterprise" false 10)).
Proof.
  apply (mitigation_summary_is_consistent
           (fun i => _fetch_mitigations_for_technique int_of_rejects
                       mitigation_tool)
           [technique_1; technique_without_stix] "enterprise" false 10).
  repeat constructor; by vm_compute.
Defined.

(** The summary reports five mitigations where one is listed, and two
    techniques where one has an entry. *)
Example mitigation_summary_example :
  mo_summary
    (enrich_with_mitigations
       (fun i => _fetch_mitigations_for_technique int_of_rejects mitigation_tool)
       [technique_1; technique_without_stix] "enterprise" false 10)
  = mk_summary 2 1 5.
Proof. reflexivity. Qed.

(** ** The blocks of the detection agent *)

Lemma length_slice_to {A} (n : Z) (l : list A) :
  (length (slice_to n l) <= length l)%nat
  /\ (0 <= n -> Z.of_nat (length (slice_to n l)) <= n).
Proof.
  unfold slice_to. destruct (0 <=? n) eqn:Hn; rewrite length_take.
  - apply Z.leb_le in Hn. lia.
  - apply Z.leb_gt in Hn. lia.
Qed.

Lemma compact_detection_text_fits (strip : string -> string)
    (split : string -> list string) (text : string) (max_chars : Z) :
  0 <= max_chars ->
  len (_compact_detection_text strip split text max_chars) <= max_chars + 3.
Proof.
  intros Hmax. unfold _compact_detection_text.
  destruct (negb (truthy (VStr text))); [simpl; lia|].
  rewrite len_app.
  pose proof (len_str_slice_to max_chars
                (String.concat " " (split (strip text)))) as (H & _ & _).
  specialize (H Hmax). destruct (max_chars <? _); simpl; lia.
Qed.

(** X26.  Once the technique object was fetched, the fallback of the
    detection agent returns a block whatever the answer holds: it is marked
    [fallback_used], lists at most 12 data sources, and its detection text
    has at most 283 characters (280 and the three dots). *)
Theorem fallback_block_is_bounded (repr : value -> string)
    (strip : string -> string) (split : string -> list string)
    (call_tool : string -> dict -> result value) (stix_id : value)
    (domain : string) (obj_resp : value) :
  call_tool "get_object_by_stix_id"
    {[ "stix_id" := stix_id; "domain" := VStr domain ]} = Ok obj_resp ->
  exists fallback sources text,
    _fallback_detection_from_technique_object repr strip split call_tool
      stix_id domain = Ok fallback
    /\ fallback !! "fallback_used" = Some (VBool true)
    /\ fallback !! "data_sources" = Some (VList (VStr <$> sources))
    /\ (length sources <= 12)%nat
    /\ fallback !! "detection_text" = Some (VStr text)
    /\ len text <= 283.
Proof.
  intros Hcall. unfold _fallback_detection_from_technique_object.
  rewrite Hcall. unfold mbind, result_bind.
  destruct (py_or _ obj_resp) as [| | | | |obj].
  1-5: eexists _, [], ""; split; [reflexivity|]; simplify_map_eq;
    repeat split; simpl; lia.
  eexists _, _, _. split; [reflexivity|]. simplify_map_eq.
  repeat split.
  - pose proof (length_slice_to 12
                  (str repr <$> list_or_empty
                     (py_or (get obj "x_mitre_data_sources" VNone) (VList []))))
      as [_ H].
    specialize (H ltac:(lia)). lia.
  - pose proof (compact_detection_text_fits strip split
                  match py_or (get obj "x_mitre_detection" VNone) (VStr "") with
                  | VStr s => s
                  | _ => ""
                  end 280 ltac:(lia)). lia.
Qed.

Lemma fallback_block_is_bounded_witness :
  exists fallback sources text,
    _fallback_detection_from_technique_object repr_unused strip_nothing
      (split_spaces "") (detection_tool 2) (VStr "attack-pattern--2")
      "enterprise" = Ok fallback
    /\ fallback !! "fallback_used" = Some (VBool true)
    /\ fallback !! "data_sources" = Some (VList (VStr <$> sources))
    /\ (length sources <= 12)%nat
    /\ fallback !! "detection_text" = Some (VStr text)
    /\ len text <= 283.
Proof.
  apply (fallback_block_is_bounded repr_unused strip_nothing (split_spaces "")
           (detection_tool 2) (VStr "attack-pattern--2") "enterprise"
           (VDict {[ "result" :=
                       VDict {[ "object" :=
                                  VDict {[ "x_mitre_data_sources" :=
                                             VList [VStr "Scheduled Job: Scheduled Job Creation"];
                                           "x_mitre_detection" :=
                                             VStr "Monitor scheduled task creation" ]} ]} ]})).
  reflexivity.
Defined.

Lemma component_names_length (repr : value -> string) (l : list value) :
  (length (component_names repr l) <= length l)%nat.
Proof.
  induction l as [|item l IH]; simpl; [done|].
  destruct item as [| | | | |d]; simpl; try lia.
  destruct (truthy _); simpl; lia.
Qed.

(** X27.  [_extract_component_names] counts the names it found before it
    cuts the list: the count is at most the number of items of the payload
    and 0 for a payload that is no list, and the names returned are at most
    the count, and at most [max_items] for a [max_items] that is not
    negative. *)
Theorem component_names_are_counted_before_the_cut (repr : value -> string)
    (datacomponents_payload : value) (max_items : Z) (names : list string)
    (total : Z) :
  _extract_component_names repr datacomponents_payload max_items
  = (names, total) ->
  Z.of_nat (length names) <= total
  /\ total <= Z.of_nat (length (list_or_empty datacomponents_payload))
  /\ (0 <= max_items -> Z.of_nat (length names) <= max_items).
Proof.
  unfold _extract_component_names.
  destruct datacomponents_payload as [| | | |l|];
    try (intros H; injection H as <- <-; simpl; lia).
  intros H. injection H as <- <-.
  pose proof (length_slice_to max_items (component_names repr l)) as [H1 H2].
  pose proof (component_names_length repr l). simpl. lia.
Qed.

Lemma component_names_are_counted_before_the_cut_witness :
  Z.of_nat (length ["Process Creation"]) <= 2
  /\ 2 <= Z.of_nat (length (list_or_empty
                              (VList [VDict {[ "object" := VDict {[ "name" := VStr "Process Creation" ]} ]};
                                      VInt 4;
                                      VDict {[ "name" := VStr "Command Execution" ]}])))
  /\ (0 <= 1 -> Z.of_nat (length ["Process Creation"]) <= 1).
Proof.
  apply (component_names_are_counted_before_the_cut repr_unused
           (VList [VDict {[ "object" := VDict {[ "name" := VStr "Process Creation" ]} ]};
                   VInt 4;
                   VDict {[ "name" := VStr "Command Execution" ]}]) 1).
  reflexivity.
Defined.

(** ** [_extract_json_object] *)

Lemma find_from_get (c : Ascii.ascii) (s : string) :
  forall i j, find_from c s i = j -> j <> -1 -> 0 <= i ->
              i <= j /\ String.get (Z.to_nat (j - i)) s = Some c.
Proof.
  induction s as [|a s IH]; intros i j H Hj Hi; simpl in H; [lia|].
  destruct (Ascii.eqb a c) eqn:E.
  - subst j. apply Ascii.eqb_eq in E as ->. rewrite Z.sub_diag. by split; [lia|].
  - destruct (IH (i + 1) j H Hj ltac:(lia)) as [Hle Hget]. split; [lia|].
    replace (Z.to_nat (j - i)) with (S (Z.to_nat (j - (i + 1)))) by lia.
    exact Hget.
Qed.

Lemma rfind_from_get (c : Ascii.ascii) (s : string) :
  forall i last j, rfind_from c s i last = j -> 0 <= i ->
                   j = last
                   \/ (i <= j /\ String.get (Z.to_nat (j - i)) s = Some c).
Proof.
  induction s as [|a s IH]; intros i last j H Hi; simpl in H; [by left|].
  destruct (IH (i + 1) _ j H ltac:(lia)) as [Hlast|[Hle Hget]].
  - destruct (Ascii.eqb a c) eqn:E; [|by left]. right. simpl in Hlast.
    rewrite Hlast. apply Ascii.eqb_eq in E as ->. rewrite Z.sub_diag.
    by split; [lia|].
  - right. split; [lia|].
    replace (Z.to_nat (j - i)) with (S (Z.to_nat (j - (i + 1)))) by lia.
    exact Hget.
Qed.

Lemma startswith_substring (c : Ascii.ascii) (s : string) :
  forall n m, String.get n s = Some c ->
              startswith c (String.substring n (S m) s) = true.
Proof.
  induction s as [|a s IH]; intros n m H; [by destruct n|].
  destruct n as [|n]; simpl in *.
  - injection H as ->. apply Ascii.eqb_refl.
  - by apply IH.
Qed.

Lemma endswith_substring (c : Ascii.ascii) (s : string) :
  forall n m, String.get (n + m) s = Some c ->
              endswith c (String.substring n (S m) s) = true.
Proof.
  induction s as [|a s IH]; intros n m H; [by destruct n, m|].
  destruct n as [|n]; simpl in *.
  - destruct m as [|m]; simpl in *.
    + injection H as ->. destruct s; simpl; apply Ascii.eqb_refl.
    + specialize (IH 0%nat m H). simpl in IH.
      destruct s as [|b s]; [done|]. simpl in *. exact IH.
  - by apply IH.
Qed.

Lemma find_from_app (c : Ascii.ascii) (pre rest : string) :
  contains c pre = false ->
  forall i, find_from c (pre ++ String c rest) i
            = i + Z.of_nat (String.length pre).
Proof.
  induction pre as [|a pre IH]; intros Hpre i; simpl.
  - rewrite Ascii.eqb_refl. lia.
  - simpl in Hpre. apply orb_false_iff in Hpre as [Ha Hpre]. rewrite Ha.
    rewrite (IH Hpre). lia.
Qed.

Lemma rfind_from_absent (c : Ascii.ascii) (s : string) :
  contains c s = false -> forall i last, rfind_from c s i last = last.
Proof.
  induction s as [|a s IH]; intros Hs i last; simpl; [done|].
  simpl in Hs. apply orb_false_iff in Hs as [Ha Hs]. rewrite Ha.
  by apply IH.
Qed.

Lemma rfind_from_app (c : Ascii.ascii) (s post : string) :
  contains c post = false ->
  forall i last, rfind_from c (s ++ String c post) i last
                 = i + Z.of_nat (String.length s).
Proof.
  intros Hpost. induction s as [|a s IH]; intros i last; simpl.
  - rewrite Ascii.eqb_refl, (rfind_from_absent c post Hpost). lia.
  - rewrite IH. lia.
Qed.

Lemma length_app_cons (s : string) (a : Ascii.ascii) (t : string) :
  String.length (s ++ String a t) = S (String.length s + String.length t).
Proof. induction s as [|b s IH]; simpl; [done|]. rewrite IH. lia. Qed.

Lemma substring_middle (pre mid post : string) (a b : Ascii.ascii) :
  String.substring (String.length pre) (S (S (String.length mid)))
    (pre ++ String a (mid ++ String b post))
  = String a (mid ++ String b EmptyString).
Proof.
  induction pre as [|p pre IH]; simpl; [|exact IH]. f_equal.
  induction mid as [|m mid IHm]; simpl.
  - by destruct post.
  - by rewrite IHm.
Qed.

Lemma get_split (c : Ascii.ascii) (s : string) :
  forall n, String.get n s = Some c ->
            exists pre rest : string,
              s = (pre ++ String c rest)%string /\ String.length pre = n.
Proof.
  induction s as [|a s IH]; intros n H; [by destruct n|].
  destruct n as [|n]; simpl in H.
  - injection H as ->. by exists EmptyString, s.
  - destruct (IH n H) as (pre & rest & -> & <-).
    by exists (String a pre), rest.
Qed.

Lemma get_after (c : Ascii.ascii) (pre rest : string) (a : Ascii.ascii) :
  forall n, (String.length pre < n)%nat ->
            String.get n (pre ++ String a rest) = Some c ->
            exists mid post : string, rest = (mid ++ String c post)%string.
Proof.
  induction pre as [|p pre IH]; intros n Hn H; destruct n as [|n];
    simpl in *; try lia.
  - destruct (get_split _ _ _ H) as (mid & post & -> & _). by exists mid, post.
  - apply (IH n); [lia | exact H].
Qed.

Lemma app_assoc_cons (pre : string) (a : Ascii.ascii) (mid rest : string) :
  (pre ++ String a (mid ++ rest) = (pre ++ String a mid) ++ rest)%string.
Proof.
  induction pre as [|p pre IH]; [done|].
  change (String p (pre ++ String a (mid ++ rest))
          = String p ((pre ++ String a mid) ++ rest))%string.
  by rewrite IH.
Qed.

(** X28.  [_extract_json_object] answers ["{}"] for an empty text; the
    stripped text itself when it begins with an opening and ends with a
    closing brace; otherwise its part from the first opening to the last
    closing brace when they come in that order, and ["{}"] when no opening
    brace comes before a closing one.  In every case the answer begins with
    an opening and ends with a closing brace. *)
Theorem json_object_is_braced (strip : string -> string) (text : string) :
  (text = "" -> _extract_json_object strip text = "{}")
  /\ (text <> "" ->
      startswith open_brace (strip text) = true ->
      endswith close_brace (strip text) = true ->
      _extract_json_object strip text = strip text)
  /\ (text <> "" ->
      startswith open_brace (strip text) && endswith close_brace (strip text)
      = false ->
      forall pre mid post : string,
        strip text
        = (pre ++ String open_brace mid ++ String close_brace post)%string ->
        contains open_brace pre = false ->
        contains close_brace post = false ->
        _extract_json_object strip text
        = (String open_brace mid ++ String close_brace EmptyString)%string)
  /\ (text <> "" ->
      startswith open_brace (strip text) && endswith close_brace (strip text)
      = false ->
      (forall pre mid post : string,
         strip text
         <> (pre ++ String open_brace mid ++ String close_brace post)%string) ->
      _extract_json_object strip text = "{}")
  /\ startswith open_brace (_extract_json_object strip text) = true
  /\ endswith close_brace (_extract_json_object strip text) = true.
Proof.
  assert (forall t : string, t <> "" -> negb (truthy (VStr t)) = false)
    as Htruthy.
  { intros t Ht. simpl. apply negb_false_iff, negb_true_iff.
    by apply String.eqb_neq. }
  split; [by intros ->|]. split; [|split; [|split]].
  - intros Hne Hs He. unfold _extract_json_object.
    by rewrite (Htruthy text Hne), Hs, He.
  - intros Hne Hboth pre mid post Ht Hpre Hpost.
    unfold _extract_json_object. rewrite (Htruthy text Hne), Hboth.
    assert (strip text
            = (pre ++ String open_brace (mid ++ String close_brace post))%string)
      as Ht' by exact Ht.
    assert (find open_brace (strip text) = Z.of_nat (String.length pre))
      as Hstart.
    { unfold find. rewrite Ht'.
      rewrite (find_from_app open_brace pre _ Hpre). lia. }
    assert (rfind close_brace (strip text)
            = Z.of_nat (S (String.length pre + String.length mid))) as Hend.
    { unfold rfind. rewrite Ht', app_assoc_cons.
      rewrite (rfind_from_app close_brace _ post Hpost).
      rewrite length_app_cons. lia. }
    rewrite Hstart, Hend.
    replace (negb (Z.of_nat (String.length pre) =? -1)) with true
      by (symmetry; apply negb_true_iff, Z.eqb_neq; lia).
    replace (negb (Z.of_nat (S (String.length pre + String.length mid)) =? -1))
      with true by (symmetry; apply negb_true_iff, Z.eqb_neq; lia).
    replace (Z.of_nat (String.length pre)
             <? Z.of_nat (S (String.length pre + String.length mid)))
      with true by (symmetry; apply Z.ltb_lt; lia).
    cbn [andb]. rewrite Nat2Z.id.
    replace (Z.to_nat (Z.of_nat (S (String.length pre + String.length mid)) + 1
                       - Z.of_nat (String.length pre)))
      with (S (S (String.length mid))) by lia.
    rewrite Ht'. apply substring_middle.
  - intros Hne Hboth Hnone.
    unfold _extract_json_object. rewrite (Htruthy text Hne), Hboth.
    destruct (negb (find open_brace (strip text) =? -1)
              && negb (rfind close_brace (strip text) =? -1)
              && (find open_brace (strip text) <? rfind close_brace (strip text)))
      eqn:Hcut; [|done].
    exfalso.
    apply andb_true_iff in Hcut as [Hcut Hlt].
    apply andb_true_iff in Hcut as [Hs He].
    apply negb_true_iff, Z.eqb_neq in Hs, He. apply Z.ltb_lt in Hlt.
    destruct (find_from_get open_brace (strip text) 0 _ eq_refl Hs ltac:(lia))
      as [Hs0 Hsget].
    destruct (rfind_from_get close_brace (strip text) 0 (-1) _ eq_refl
                ltac:(lia)) as [Hlast|[He0 Heget]]; [done|].
    fold (find open_brace (strip text)) in *.
    fold (rfind close_brace (strip text)) in *.
    rewrite Z.sub_0_r in Hsget, Heget.
    destruct (get_split _ _ _ Hsget) as (pre & rest & Ht & Hlen).
    assert (String.get (Z.to_nat (rfind close_brace (strip text)))
              (pre ++ String open_brace rest) = Some close_brace) as Hget2
      by (rewrite <- Ht; exact Heget).
    destruct (get_after close_brace pre rest open_brace
                (Z.to_nat (rfind close_brace (strip text))) ltac:(lia) Hget2)
      as (mid & post & ->).
    by apply (Hnone pre mid post).
  - unfold _extract_json_object.
    destruct (negb (truthy (VStr text))); [done|].
    destruct (startswith open_brace (strip text)
              && endswith close_brace (strip text)) eqn:Hboth.
    { by apply andb_true_iff in Hboth. }
    destruct (negb (find open_brace (strip text) =? -1)
              && negb (rfind close_brace (strip text) =? -1)
              && (find open_brace (strip text) <? rfind close_brace (strip text)))
      eqn:Hcut; [|done].
    apply andb_true_iff in Hcut as [Hcut Hlt].
    apply andb_true_iff in Hcut as [Hs He].
    apply negb_true_iff, Z.eqb_neq in Hs, He. apply Z.ltb_lt in Hlt.
    destruct (find_from_get open_brace (strip text) 0 _ eq_refl Hs ltac:(lia))
      as [Hs0 Hsget].
    destruct (rfind_from_get close_brace (strip text) 0 (-1) _ eq_refl
                ltac:(lia)) as [Hlast|[He0 Heget]]; [done|].
    fold (find open_brace (strip text)) in *.
    fold (rfind close_brace (strip text)) in *.
    rewrite Z.sub_0_r in Hsget, Heget.
    set (start := find open_brace (strip text)) in *.
    set (end_ := rfind close_brace (strip text)) in *.
    replace (Z.to_nat (end_ + 1 - start))
      with (S (Z.to_nat end_ - Z.to_nat start)) by lia.
    split.
    + by apply startswith_substring.
    + apply endswith_substring.
      by replace (Z.to_nat start + (Z.to_nat end_ - Z.to_nat start))%nat
        with (Z.to_nat end_) by lia.
Qed.

Lemma json_object_is_braced_witness :
  _extract_json_object strip_nothing "Sure: {[1, 2]: {}} Done."
  = "{[1, 2]: {}}".
Proof.
  destruct (json_object_is_braced strip_nothing "Sure: {[1, 2]: {}} Done.")
    as (_ & _ & Hcut & _).
  apply (Hcut ltac:(done) eq_refl "Sure: " "[1, 2]: {}" " Done.");
    reflexivity.
Defined.

(** Without an opening brace before a closing one the answer is the empty
    object; a text in braces is returned as it is. *)
Example json_object_example :
  _extract_json_object strip_nothing "} nothing {" = "{}"
  /\ _extract_json_object strip_nothing "{[1, 2]: {}}" = "{[1, 2]: {}}"
  /\ _extract_json_object strip_nothing "" = "{}".
Proof. repeat split; reflexivity. Qed.

End AgentsFacts.
